(** * OpenVDB AX: code generation utilities ([codegen/Utils.h])

    A shallow embedding of the helpers that [codegen/Utils.h] builds on top
    of the LLVM [IRBuilder]: type precedence, selection of cast and binary
    instructions from types and operator tokens, scalar and array
    conversions, boolean coercion, binary operators and array packing.

    The LLVM side is kept as small as the helpers need it: IR types are an
    inductive type, an [llvm::Value*] is a typed register or constant, and
    the [IRBuilder] is a state holding the instructions it has inserted so
    far.  A function of [Utils.h] that takes the builder becomes a function
    in the monad [M] below (state passing, with the C++ exceptions and the
    [assert]s as outcomes).  The meaning of the inserted instructions is
    given by a small interpreter, following the LLVM language reference. *)

From Stdlib Require Import ZArith NArith List Bool Lia.
From Stdlib Require Import Floats.SpecFloat.
From stdpp Require Import base decidable option list gmap strings.

Local Open Scope Z_scope.

(** ** IR types *)

Module Types.

(** [llvm::Type].  The six floating point kinds are the ones
    [Type::isFloatingPointTy] accepts; label, metadata, function, struct and
    vector types never reach the helpers and are left out. *)
Inductive llvmType : Type :=
| VoidTy
| HalfTy
| FloatTy
| DoubleTy
| X86_FP80Ty
| FP128Ty
| PPC_FP128Ty
| IntegerTy (bits : N)
| PointerTy (pointee : llvmType)
| ArrayTy (elem : llvmType) (num : nat).

#[global] Instance llvmType_eq_dec : EqDecision llvmType.
Proof. solve_decision. Defined.

Definition isDoubleTy (t : llvmType) : bool :=
  match t with DoubleTy => true | _ => false end.

Definition isFloatTy (t : llvmType) : bool :=
  match t with FloatTy => true | _ => false end.

(** [Type::isIntegerTy()] *)
Definition isIntegerTy (t : llvmType) : bool :=
  match t with IntegerTy _ => true | _ => false end.

(** [Type::isIntegerTy(unsigned Bitwidth)] *)
Definition isIntegerTyN (t : llvmType) (w : N) : bool :=
  match t with IntegerTy b => N.eqb b w | _ => false end.

Definition isFloatingPointTy (t : llvmType) : bool :=
  match t with
  | HalfTy | FloatTy | DoubleTy | X86_FP80Ty | FP128Ty | PPC_FP128Ty => true
  | _ => false
  end.

(** Modelled from the spec: [isScalarType] is declared in [codegen/Types.h],
    which is not part of the sources at hand.  The spec's scalars are the
    integer and floating point types, and the assertions of
    [arithmeticConversion] and [arrayCast] in [Utils.h] spell "is not a
    scalar type" as [isIntegerTy() || isFloatingPointTy()]. *)
Definition isScalarType (t : llvmType) : bool :=
  isIntegerTy t || isFloatingPointTy t.

(** Modelled from the spec: [LLVMType<T>::get] is declared in
    [codegen/Types.h]; each AX type maps to exactly one IR type, [int64_t]
    to the 64 bit integer. *)
Definition LLVMType_int64_t : llvmType := IntegerTy 64.

(** The scalar types of the AX language, as IR types:
    bool, i8, i16, i32, i64, f32, f64. *)
Definition axScalarTypes : list llvmType :=
  [IntegerTy 1; IntegerTy 8; IntegerTy 16; IntegerTy 32; IntegerTy 64;
   FloatTy; DoubleTy].

(** The floating point types of the AX language: f32 and f64. *)
Definition isAXFloat (t : llvmType) : bool :=
  isFloatTy t || isDoubleTy t.

End Types.
Export Types.

(** ** Operator tokens *)

Module Tokens.

(** Modelled from the spec: [ast/Tokens.h] is not part of the sources at
    hand.  [OperatorType] is the classification [operatorType] returns;
    [Utils.h] itself only names [LOGICAL] and [BITWISE]. *)
Inductive OperatorType : Type :=
| ARITHMETIC | LOGICAL | RELATIONAL | BITWISE | ASSIGNMENT.

#[global] Instance OperatorType_eq_dec : EqDecision OperatorType.
Proof. solve_decision. Defined.

(** Modelled from the spec: the tokens [Utils.h] dispatches on, by the names
    it uses.  [UNLISTED] stands for any further token of [ast/Tokens.h]
    (unary and assignment operators), which [Utils.h] never names and
    answers with "Unrecognised binary operator"; it carries the class
    [operatorType] gives that token. *)
Inductive OperatorToken : Type :=
| PLUS | MINUS | MULTIPLY | DIVIDE | MODULO
| AND | OR
| EQUALSEQUALS | NOTEQUALS | MORETHAN | LESSTHAN
| MORETHANOREQUAL | LESSTHANOREQUAL
| BITAND | BITOR | BITXOR
| UNLISTED (class : OperatorType).

#[global] Instance OperatorToken_eq_dec : EqDecision OperatorToken.
Proof. solve_decision. Defined.

(** Modelled from the spec: [operatorType] of [ast/Tokens.h].  The logical
    operators are the short-circuit [&&] and [||], the bitwise ones [&],
    [|] and [^]; comparisons are relational, the rest arithmetic. *)
Definition operatorType (token : OperatorToken) : OperatorType :=
  match token with
  | PLUS | MINUS | MULTIPLY | DIVIDE | MODULO => ARITHMETIC
  | AND | OR => LOGICAL
  | EQUALSEQUALS | NOTEQUALS | MORETHAN | LESSTHAN
  | MORETHANOREQUAL | LESSTHANOREQUAL => RELATIONAL
  | BITAND | BITOR | BITXOR => BITWISE
  | UNLISTED class => class
  end.

(** The bitwise tokens that are binary operators. *)
Definition binaryBitwiseTokens : list OperatorToken := [BITAND; BITOR; BITXOR].

End Tokens.
Export Tokens.

(** ** Outcomes: return, C++ exception, failed assertion *)

Module Outcomes.

(** The exception classes of [Exceptions.h] that [Utils.h] throws. *)
Inductive Exception : Type :=
| LLVMTypeError
| LLVMBinaryOperationError
| LLVMTokenError.

Inductive Outcome (A : Type) : Type :=
| Ok (a : A)
| Throw (e : Exception)
| AssertFail.

Arguments Ok {A} a.
Arguments Throw {A} e.
Arguments AssertFail {A}.

End Outcomes.
Export Outcomes.

(** ** Instruction selection: pure functions of types and tokens *)

Module Select.

(** [typePrecedence]: the highest order type of two scalar types. *)
Definition typePrecedence (typeA typeB : llvmType) : Outcome llvmType :=
  if negb (isScalarType typeA) then AssertFail
  else if negb (isScalarType typeB) then AssertFail
  else if isDoubleTy typeA then Ok typeA
  else if isDoubleTy typeB then Ok typeB
  else if isFloatTy typeA then Ok typeA
  else if isFloatTy typeB then Ok typeB
  else if isIntegerTyN typeA 64 then Ok typeA
  else if isIntegerTyN typeB 64 then Ok typeB
  else if isIntegerTyN typeA 32 then Ok typeA
  else if isIntegerTyN typeB 32 then Ok typeB
  else if isIntegerTyN typeA 16 then Ok typeA
  else if isIntegerTyN typeB 16 then Ok typeB
  else if isIntegerTyN typeA 8 then Ok typeA
  else if isIntegerTyN typeB 8 then Ok typeB
  else if isIntegerTyN typeA 1 then Ok typeA
  else if isIntegerTyN typeB 1 then Ok typeB
  else Throw LLVMTypeError.

(** The [IRBuilder] cast members a [CastFunction] can be bound to. *)
Inductive CastOp : Type :=
| Trunc | ZExt | SExt | FPToUI | FPToSI | UIToFP | SIToFP | FPTrunc | FPExt.

(** [llvmArithmeticConversion]: the instruction converting [sourceType] to
    [targetType]; every row that matches no source falls through to the
    final throw. *)
Definition llvmArithmeticConversion (sourceType targetType : llvmType)
  : Outcome CastOp :=
  if isDoubleTy targetType then
    if isFloatTy sourceType then Ok FPExt
    else if isIntegerTyN sourceType 64 then Ok SIToFP
    else if isIntegerTyN sourceType 32 then Ok SIToFP
    else if isIntegerTyN sourceType 16 then Ok SIToFP
    else if isIntegerTyN sourceType 8 then Ok SIToFP
    else if isIntegerTyN sourceType 1 then Ok UIToFP
    else Throw LLVMTypeError
  else if isFloatTy targetType then
    if isDoubleTy sourceType then Ok FPTrunc
    else if isIntegerTyN sourceType 64 then Ok SIToFP
    else if isIntegerTyN sourceType 32 then Ok SIToFP
    else if isIntegerTyN sourceType 16 then Ok SIToFP
    else if isIntegerTyN sourceType 8 then Ok SIToFP
    else if isIntegerTyN sourceType 1 then Ok UIToFP
    else Throw LLVMTypeError
  else if isIntegerTyN targetType 64 then
    if isDoubleTy sourceType then Ok FPToSI
    else if isFloatTy sourceType then Ok FPToSI
    else if isIntegerTyN sourceType 32 then Ok SExt
    else if isIntegerTyN sourceType 16 then Ok SExt
    else if isIntegerTyN sourceType 8 then Ok SExt
    else if isIntegerTyN sourceType 1 then Ok ZExt
    else Throw LLVMTypeError
  else if isIntegerTyN targetType 32 then
    if isDoubleTy sourceType then Ok FPToSI
    else if isFloatTy sourceType then Ok FPToSI
    else if isIntegerTyN sourceType 64 then Ok Trunc
    else if isIntegerTyN sourceType 16 then Ok SExt
    else if isIntegerTyN sourceType 8 then Ok SExt
    else if isIntegerTyN sourceType 1 then Ok ZExt
    else Throw LLVMTypeError
  else if isIntegerTyN targetType 16 then
    if isDoubleTy sourceType then Ok FPToSI
    else if isFloatTy sourceType then Ok FPToSI
    else if isIntegerTyN sourceType 64 then Ok Trunc
    else if isIntegerTyN sourceType 32 then Ok Trunc
    else if isIntegerTyN sourceType 8 then Ok SExt
    else if isIntegerTyN sourceType 1 then Ok ZExt
    else Throw LLVMTypeError
  else if isIntegerTyN targetType 8 then
    if isDoubleTy sourceType then Ok FPToSI
    else if isFloatTy sourceType then Ok FPToSI
    else if isIntegerTyN sourceType 64 then Ok Trunc
    else if isIntegerTyN sourceType 32 then Ok Trunc
    else if isIntegerTyN sourceType 16 then Ok Trunc
    else if isIntegerTyN sourceType 1 then Ok ZExt
    else Throw LLVMTypeError
  else if isIntegerTyN targetType 1 then
    if isDoubleTy sourceType then Ok FPToUI
    else if isFloatTy sourceType then Ok FPToUI
    else if isIntegerTyN sourceType 64 then Ok Trunc
    else if isIntegerTyN sourceType 32 then Ok Trunc
    else if isIntegerTyN sourceType 16 then Ok Trunc
    else if isIntegerTyN sourceType 8 then Ok Trunc
    else Throw LLVMTypeError
  else Throw LLVMTypeError.

(** Floating point and integer comparison predicates of the [CreateFCmp*]
    and [CreateICmp*] members the file binds. *)
Inductive FCmpPred : Type :=
| FCMP_OEQ | FCMP_ONE | FCMP_OGT | FCMP_OLT | FCMP_OGE | FCMP_OLE.

Inductive ICmpPred : Type :=
| ICMP_EQ | ICMP_NE | ICMP_SGT | ICMP_SLT | ICMP_SGE | ICMP_SLE.

(** The [IRBuilder] members a [BinaryFunction] can be bound to. *)
Inductive BinOp : Type :=
| FAdd | FSub | FMul | FDiv | FRem
| FCmp (p : FCmpPred)
| Add | Sub | Mul | SDiv | SRem
| ICmp (p : ICmpPred)
| And | Or | Xor.

(** [token == ast::tokens::X] *)
Definition tokenIs (token x : OperatorToken) : bool := bool_decide (token = x).

(** [llvmBinaryConversion]: the instruction for [token] at precision
    [type]. *)
Definition llvmBinaryConversion (type : llvmType) (token : OperatorToken)
  : Outcome BinOp :=
  if isFloatingPointTy type then
    let opType := operatorType token in
    if bool_decide (opType = LOGICAL) || bool_decide (opType = BITWISE)
    then Throw LLVMBinaryOperationError
    else if tokenIs token PLUS then Ok FAdd
    else if tokenIs token MINUS then Ok FSub
    else if tokenIs token MULTIPLY then Ok FMul
    else if tokenIs token DIVIDE then Ok FDiv
    else if tokenIs token MODULO then Ok FRem
    else if tokenIs token EQUALSEQUALS then Ok (FCmp FCMP_OEQ)
    else if tokenIs token NOTEQUALS then Ok (FCmp FCMP_ONE)
    else if tokenIs token MORETHAN then Ok (FCmp FCMP_OGT)
    else if tokenIs token LESSTHAN then Ok (FCmp FCMP_OLT)
    else if tokenIs token MORETHANOREQUAL then Ok (FCmp FCMP_OGE)
    else if tokenIs token LESSTHANOREQUAL then Ok (FCmp FCMP_OLE)
    else Throw LLVMTokenError
  else if isIntegerTy type then
    if tokenIs token PLUS then Ok Add
    else if tokenIs token MINUS then Ok Sub
    else if tokenIs token MULTIPLY then Ok Mul
    else if tokenIs token DIVIDE then Ok SDiv
    else if tokenIs token MODULO then Ok SRem
    else if tokenIs token EQUALSEQUALS then Ok (ICmp ICMP_EQ)
    else if tokenIs token NOTEQUALS then Ok (ICmp ICMP_NE)
    else if tokenIs token MORETHAN then Ok (ICmp ICMP_SGT)
    else if tokenIs token LESSTHAN then Ok (ICmp ICMP_SLT)
    else if tokenIs token MORETHANOREQUAL then Ok (ICmp ICMP_SGE)
    else if tokenIs token LESSTHANOREQUAL then Ok (ICmp ICMP_SLE)
    else if tokenIs token AND then Ok And
    else if tokenIs token OR then Ok Or
    else if tokenIs token BITAND then Ok And
    else if tokenIs token BITOR then Ok Or
    else if tokenIs token BITXOR then Ok Xor
    else Throw LLVMTokenError
  else Throw LLVMTypeError.

End Select.
Export Select.

(** ** Values and the IR builder *)

Module Builder.

(** An [llvm::Value*]: the result register of an instruction (or a function
    argument), or a constant.  Constants carry their bit pattern;
    [ConstantFP::get(type, 0.0)] is the all-zero pattern, [+0.0]. *)
Inductive Value : Type :=
| Reg (id : nat) (ty : llvmType)
| ConstantInt (ty : llvmType) (bits : Z)
| ConstantFP (ty : llvmType) (bits : Z).

#[global] Instance Value_eq_dec : EqDecision Value.
Proof. solve_decision. Defined.

(** [Value::getType] *)
Definition getType (v : Value) : llvmType :=
  match v with
  | Reg _ ty => ty
  | ConstantInt ty _ => ty
  | ConstantFP ty _ => ty
  end.

(** [llvm::isa<llvm::Constant>(v)]: the value is a constant, not the result
    of an instruction. *)
Definition isConstant (v : Value) : bool :=
  match v with
  | Reg _ _ => false
  | ConstantInt _ _ | ConstantFP _ _ => true
  end.

(** The instructions the helpers insert.  [dst] is the register the
    instruction defines. *)
Inductive Instr : Type :=
| Alloca (dst : nat) (ty : llvmType)
| GEP2 (dst : nat) (ptr : Value) (idx0 idx1 : nat)
| Load (dst : nat) (ptr : Value)
| Store (val ptr : Value)
| Cast (dst : nat) (op : CastOp) (v : Value) (destTy : llvmType)
| Binary (dst : nat) (op : BinOp) (lhs rhs : Value).

(** [llvm::IRBuilder<>]: the instructions inserted so far, in order, and the
    next free register. *)
Record IRBuilder : Type := mkBuilder {
  nextReg : nat;
  inserted : list Instr
}.

(** Code that takes [llvm::IRBuilder<>&]: the builder is threaded through,
    and keeps whatever was inserted when an exception is thrown. *)
Definition M (A : Type) : Type := IRBuilder -> Outcome A * IRBuilder.

Definition ret {A} (a : A) : M A := fun b => (Ok a, b).

Definition bind {A B} (m : M A) (k : A -> M B) : M B :=
  fun b =>
    match m b with
    | (Ok a, b') => k a b'
    | (Throw e, b') => (Throw e, b')
    | (AssertFail, b') => (AssertFail, b')
    end.

(** [OPENVDB_THROW] *)
Definition throw {A} (e : Exception) : M A := fun b => (Throw e, b).

(** A failed [assert] *)
Definition assertFail {A} : M A := fun b => (AssertFail, b).

(** The result of a pure selection function, inside builder code. *)
Definition lift {A} (o : Outcome A) : M A := fun b => (o, b).

Definition assertion (c : bool) : M unit :=
  if c then ret tt else assertFail.

(** Insert an instruction defining a fresh register of type [ty]. *)
Definition insert (mk : nat -> Instr) (ty : llvmType) : M Value :=
  fun b =>
    (Ok (Reg (nextReg b) ty),
     mkBuilder (S (nextReg b)) (inserted b ++ [mk (nextReg b)])).

(** Insert an instruction without a result. *)
Definition insert_ (i : Instr) : M unit :=
  fun b => (Ok tt, mkBuilder (nextReg b) (inserted b ++ [i])).

End Builder.
Export Builder.

Notation "'let*' x ':=' c 'in' k" := (bind c (fun x => k))
  (at level 10, x name, c at level 100, k at level 200).

(** ** The [IRBuilder] members the helpers call

    Each member is given by the instruction it creates.  This is what the
    builder does on operands that are not constants.  On constants
    ([isConstant]) the builder of LLVM asks its folder first: a cast of a
    constant, a comparison or an arithmetic instruction on two constants,
    and the address of an element of a constant pointer are not inserted,
    the constant the instruction evaluates to is returned in their place.
    The folder is no part of these definitions.  A theorem that states
    which instructions are inserted is therefore stated for operands that
    are not constants; a theorem on the run time value of a result needs no
    such condition, a folded constant being the value the instruction
    computes. *)

Module IR.

(** [IRBuilder::CreateAlloca] *)
Definition CreateAlloca (ty : llvmType) : M Value :=
  insert (fun d => Alloca d ty) (PointerTy ty).

(** [IRBuilder::CreateConstGEP2_64(Ptr, Idx0, Idx1)]; the pointer has to
    point to an array. *)
Definition CreateConstGEP2_64 (ptr : Value) (idx0 idx1 : nat) : M Value :=
  match getType ptr with
  | PointerTy (ArrayTy elem _) =>
      insert (fun d => GEP2 d ptr idx0 idx1) (PointerTy elem)
  | _ => assertFail
  end.

(** [IRBuilder::CreateLoad(Ptr)] *)
Definition CreateLoad (ptr : Value) : M Value :=
  match getType ptr with
  | PointerTy ty => insert (fun d => Load d ptr) ty
  | _ => assertFail
  end.

(** [IRBuilder::CreateStore(Val, Ptr)] *)
Definition CreateStore (val ptr : Value) : M unit :=
  insert_ (Store val ptr).

(** [IRBuilder::CreateCast]: a cast to the value's own type is the value
    itself. *)
Definition CreateCast (op : CastOp) (v : Value) (destTy : llvmType) : M Value :=
  if bool_decide (getType v = destTy) then ret v
  else insert (fun d => Cast d op v destTy) destTy.

(** The type of a binary instruction's result. *)
Definition binOpType (op : BinOp) (lhs : Value) : llvmType :=
  match op with
  | FCmp _ | ICmp _ => IntegerTy 1
  | _ => getType lhs
  end.

(** [IRBuilder::CreateFAdd] and the other bound binary members. *)
Definition CreateBinOp (op : BinOp) (lhs rhs : Value) : M Value :=
  insert (fun d => Binary d op lhs rhs) (binOpType op lhs).

End IR.
Export IR.

(** ** The helpers of [Utils.h] that take the builder *)

Module Utils.

(** [arithmeticConversion(value, targetType, builder)] *)
Definition arithmeticConversion (value : Value) (targetType : llvmType)
  : M Value :=
  let* _ := assertion (isIntegerTy (getType value) || isFloatingPointTy (getType value)) in
  let* _ := assertion (isIntegerTy targetType || isFloatingPointTy targetType) in
  let valueType := getType value in
  if bool_decide (valueType = targetType) then ret value
  else
    let* llvmCastFunction := lift (llvmArithmeticConversion valueType targetType) in
    CreateCast llvmCastFunction value targetType.

(** The body of the [for] loop of [arrayCast], from index [i] for [count]
    more elements. *)
Fixpoint arrayCastLoop (llvmCastFunction : CastOp) (ptrToArray targetArray : Value)
    (targetElementType : llvmType) (i count : nat) : M unit :=
  match count with
  | O => ret tt
  | S count' =>
      let* target := CreateConstGEP2_64 targetArray 0 i in
      let* source := CreateConstGEP2_64 ptrToArray 0 i in
      let* source := CreateLoad source in
      let* source := CreateCast llvmCastFunction source targetElementType in
      let* _ := CreateStore source target in
      arrayCastLoop llvmCastFunction ptrToArray targetArray targetElementType
        (S i) count'
  end.

(** [arrayCast(ptrToArray, targetElementType, builder)] *)
Definition arrayCast (ptrToArray : Value) (targetElementType : llvmType)
  : M Value :=
  let* _ := assertion (isIntegerTy targetElementType || isFloatingPointTy targetElementType) in
  match getType ptrToArray with
  | PointerTy (ArrayTy sourceElementType elementSize) =>
      let* _ := assertion (isIntegerTy sourceElementType || isFloatingPointTy sourceElementType) in
      if bool_decide (sourceElementType = targetElementType) then ret ptrToArray
      else
        let* llvmCastFunction :=
          lift (llvmArithmeticConversion sourceElementType targetElementType) in
        let* targetArray := CreateAlloca (ArrayTy targetElementType elementSize) in
        let* _ := arrayCastLoop llvmCastFunction ptrToArray targetArray
                    targetElementType 0 elementSize in
        ret targetArray
  | _ => assertFail
  end.

(** [boolComparison(value, builder)] *)
Definition boolComparison (value : Value) : M Value :=
  let type := getType value in
  if isFloatingPointTy type then
    CreateBinOp (FCmp FCMP_ONE) value (ConstantFP type 0)
  else if isIntegerTyN type 1 then
    CreateBinOp (ICmp ICMP_NE) value (ConstantInt type 0)
  else if isIntegerTy type then
    CreateBinOp (ICmp ICMP_NE) value (ConstantInt type 0)
  else throw LLVMTypeError.

(** [binaryOperator(lhs, rhs, token, builder, warnings)].  [warnings] is the
    string behind the optional pointer ([None] for [nullptr]); its content
    after the call is returned with the result. *)
Definition binaryOperator (lhs rhs : Value) (token : OperatorToken)
    (warnings : option string) : M (Value * option string) :=
  let lhsType := getType lhs in
  if negb (bool_decide (lhsType = getType rhs)) then throw LLVMTypeError
  else
    let opType := operatorType token in
    let* operands :=
      if bool_decide (opType = LOGICAL) then
        let* lhs := boolComparison lhs in
        let* rhs := boolComparison rhs in
        ret (lhs, rhs, getType lhs, warnings)
      else if bool_decide (opType = BITWISE) && isFloatingPointTy lhsType then
        let* rhs := arithmeticConversion rhs LLVMType_int64_t in
        let* lhs := arithmeticConversion lhs LLVMType_int64_t in
        ret (lhs, rhs, getType lhs,
             match warnings with
             | Some _ => Some "Implicit cast from float to int."%string
             | None => None
             end)
      else ret (lhs, rhs, lhsType, warnings) in
    let '(lhs, rhs, lhsType, warnings) := operands in
    let* llvmBinaryFunction := lift (llvmBinaryConversion lhsType token) in
    let* result := CreateBinOp llvmBinaryFunction lhs rhs in
    ret (result, warnings).

(** The [for] loop of [arrayUnpack], from index [i] for [count] more
    elements; [values.push_back] appends. *)
Fixpoint arrayUnpackLoop (ptrToArray : Value) (loadElements : bool)
    (values : list Value) (i count : nat) : M (list Value) :=
  match count with
  | O => ret values
  | S count' =>
      let* value := CreateConstGEP2_64 ptrToArray 0 i in
      let* value := if loadElements then CreateLoad value else ret value in
      arrayUnpackLoop ptrToArray loadElements (values ++ [value]) (S i) count'
  end.

(** [arrayUnpack(ptrToArray, values, builder, loadElements)]; the vector
    [values] is passed by reference and returned as it is after the call. *)
Definition arrayUnpack (ptrToArray : Value) (values : list Value)
    (loadElements : bool) : M (list Value) :=
  match getType ptrToArray with
  | PointerTy (ArrayTy _ elements) =>
      arrayUnpackLoop ptrToArray loadElements values 0 elements
  | _ => assertFail
  end.

(** [array3Pack(value1, value2, value3, builder)] *)
Definition array3Pack (value1 value2 value3 : Value) : M Value :=
  let* type := lift (typePrecedence (getType value1) (getType value2)) in
  let* type := lift (typePrecedence type (getType value3)) in
  let* value1 := arithmeticConversion value1 type in
  let* value2 := arithmeticConversion value2 type in
  let* value3 := arithmeticConversion value3 type in
  let vectorType := ArrayTy type 3 in
  let* vector := CreateAlloca vectorType in
  let* e1 := CreateConstGEP2_64 vector 0 0 in
  let* e2 := CreateConstGEP2_64 vector 0 1 in
  let* e3 := CreateConstGEP2_64 vector 0 2 in
  let* _ := CreateStore value1 e1 in
  let* _ := CreateStore value2 e2 in
  let* _ := CreateStore value3 e3 in
  ret vector.

End Utils.
Export Utils.

(** ** Meaning of the inserted instructions

    A small interpreter for the instructions above, after the LLVM language
    reference.  Scalars are bit patterns of their type: an integer of width
    [w] is its unsigned value in [0, 2^w), a floating point number its IEEE
    754 encoding.  Floating point arithmetic and the conversions that
    produce floating point numbers are outside the interpreted fragment
    (they evaluate to [None]); comparisons, conversions to integers, integer
    arithmetic and memory are interpreted. *)

Module Sem.

Inductive rtval : Type :=
| VBits (ty : llvmType) (bits : Z)
| VPtr (block off : nat)
| VUndef
| VPoison.

(** Registers, memory blocks (one cell per scalar), next free block. *)
Record Machine : Type := mkMachine {
  regs : gmap nat rtval;
  mem : gmap nat (list rtval);
  nextBlock : nat
}.

(** Precision and maximal exponent of the IEEE 754 binary formats. *)
Definition fpFormat (t : llvmType) : option (Z * Z) :=
  match t with
  | HalfTy => Some (11, 16)
  | FloatTy => Some (24, 128)
  | DoubleTy => Some (53, 1024)
  | FP128Ty => Some (113, 16384)
  | _ => None
  end.

(** The number encoded by an IEEE 754 bit pattern: sign bit, biased
    exponent field, fraction field. *)
Definition decodeFP (prec emax bits : Z) : spec_float :=
  let fracBits := prec - 1 in
  let expBits := Z.log2 emax + 1 in
  let frac := bits mod 2 ^ fracBits in
  let expo := (bits / 2 ^ fracBits) mod 2 ^ expBits in
  let sign := Z.testbit bits (fracBits + expBits) in
  if expo =? 2 ^ expBits - 1 then
    if frac =? 0 then S754_infinity sign else S754_nan
  else if expo =? 0 then
    match frac with
    | Zpos p => S754_finite sign p (3 - emax - prec)
    | _ => S754_zero sign
    end
  else
    match frac + 2 ^ fracBits with
    | Zpos p => S754_finite sign p (expo + 2 - emax - prec)
    | _ => S754_zero sign
    end.

(** The integer part of a number, rounding towards zero. *)
Definition truncSF (f : spec_float) : option Z :=
  match f with
  | S754_zero _ => Some 0
  | S754_finite s m e => Some (cond_Zopp s (Z.shiftl (Zpos m) e))
  | S754_infinity _ | S754_nan => None
  end.

(** Two's complement reading of a [w] bit pattern. *)
Definition toSigned (w bits : Z) : Z :=
  if bits <? 2 ^ (w - 1) then bits else bits - 2 ^ w.

Definition boolBits (c : bool) : rtval :=
  VBits (IntegerTy 1) (if c then 1 else 0).

(** Ordered predicates: true when neither operand is a NaN and the relation
    holds. *)
Definition evalFCmp (p : FCmpPred) (c : option comparison) : bool :=
  match p, c with
  | FCMP_OEQ, Some Eq => true
  | FCMP_ONE, Some Lt | FCMP_ONE, Some Gt => true
  | FCMP_OGT, Some Gt => true
  | FCMP_OLT, Some Lt => true
  | FCMP_OGE, Some Gt | FCMP_OGE, Some Eq => true
  | FCMP_OLE, Some Lt | FCMP_OLE, Some Eq => true
  | _, _ => false
  end.

Definition evalICmp (p : ICmpPred) (w x y : Z) : bool :=
  match p with
  | ICMP_EQ => x =? y
  | ICMP_NE => negb (x =? y)
  | ICMP_SGT => toSigned w y <? toSigned w x
  | ICMP_SLT => toSigned w x <? toSigned w y
  | ICMP_SGE => toSigned w y <=? toSigned w x
  | ICMP_SLE => toSigned w x <=? toSigned w y
  end.

(** Integer instructions on [w] bit patterns; division by zero and the
    overflowing division have no defined result. *)
Definition evalIntOp (op : BinOp) (w x y : Z) : option Z :=
  match op with
  | Add => Some ((x + y) mod 2 ^ w)
  | Sub => Some ((x - y) mod 2 ^ w)
  | Mul => Some ((x * y) mod 2 ^ w)
  | SDiv =>
      if (y =? 0) || ((toSigned w x =? - 2 ^ (w - 1)) && (toSigned w y =? -1))
      then None
      else Some (Z.quot (toSigned w x) (toSigned w y) mod 2 ^ w)
  | SRem =>
      if (y =? 0) || ((toSigned w x =? - 2 ^ (w - 1)) && (toSigned w y =? -1))
      then None
      else Some (Z.rem (toSigned w x) (toSigned w y) mod 2 ^ w)
  | And => Some (Z.land x y)
  | Or => Some (Z.lor x y)
  | Xor => Some (Z.lxor x y)
  | _ => None
  end.

Definition evalBinOp (op : BinOp) (l r : rtval) : option rtval :=
  match l, r with
  | VBits tl x, VBits tr y =>
      if negb (bool_decide (tl = tr)) then None
      else
        match op, tl with
        | FCmp p, _ =>
            match fpFormat tl with
            | Some (prec, emax) =>
                Some (boolBits (evalFCmp p
                  (SFcompare (decodeFP prec emax x) (decodeFP prec emax y))))
            | None => None
            end
        | ICmp p, IntegerTy w => Some (boolBits (evalICmp p (Z.of_N w) x y))
        | _, IntegerTy w => VBits tl <$> evalIntOp op (Z.of_N w) x y
        | _, _ => None
        end
  | VPoison, (VBits _ _ | VPoison) | VBits _ _, VPoison => Some VPoison
  | _, _ => None
  end.

(** Conversion of a number to an integer of width [w]; a number whose
    integer part does not fit gives poison. *)
Definition fpToInt (signed : bool) (w : Z) (f : spec_float) : rtval :=
  match truncSF f with
  | Some z =>
      if signed then
        if (- 2 ^ (w - 1) <=? z) && (z <? 2 ^ (w - 1))
        then VBits (IntegerTy (Z.to_N w)) (z mod 2 ^ w) else VPoison
      else
        if (0 <=? z) && (z <? 2 ^ w)
        then VBits (IntegerTy (Z.to_N w)) z else VPoison
  | None => VPoison
  end.

Definition evalCast (op : CastOp) (v : rtval) (destTy : llvmType)
  : option rtval :=
  match v with
  | VBits ty x =>
      match op, ty, destTy with
      | Trunc, IntegerTy _, IntegerTy w' =>
          Some (VBits destTy (x mod 2 ^ Z.of_N w'))
      | ZExt, IntegerTy _, IntegerTy _ => Some (VBits destTy x)
      | SExt, IntegerTy w, IntegerTy w' =>
          Some (VBits destTy (toSigned (Z.of_N w) x mod 2 ^ Z.of_N w'))
      | FPToUI, _, IntegerTy w' =>
          match fpFormat ty with
          | Some (prec, emax) =>
              Some (fpToInt false (Z.of_N w') (decodeFP prec emax x))
          | None => None
          end
      | FPToSI, _, IntegerTy w' =>
          match fpFormat ty with
          | Some (prec, emax) =>
              Some (fpToInt true (Z.of_N w') (decodeFP prec emax x))
          | None => None
          end
      | _, _, _ => None
      end
  | VPoison => Some VPoison
  | _ => None
  end.

(** The run time value of an operand. *)
Definition evalValue (m : Machine) (v : Value) : option rtval :=
  match v with
  | Reg id _ => regs m !! id
  | ConstantInt ty z =>
      match ty with
      | IntegerTy w => Some (VBits ty (z mod 2 ^ Z.of_N w))
      | _ => None
      end
  | ConstantFP ty z => Some (VBits ty z)
  end.

Definition setReg (dst : nat) (v : rtval) (m : Machine) : Machine :=
  mkMachine (<[dst := v]> (regs m)) (mem m) (nextBlock m).

(** One instruction.  [None]: no defined behaviour (or outside the
    interpreted fragment). *)
Definition exec (i : Instr) (m : Machine) : option Machine :=
  match i with
  | Alloca dst ty =>
      let cells :=
        match ty with
        | ArrayTy _ n => replicate n VUndef
        | _ => [VUndef]
        end in
      Some (mkMachine (<[dst := VPtr (nextBlock m) 0]> (regs m))
                      (<[nextBlock m := cells]> (mem m))
                      (S (nextBlock m)))
  | GEP2 dst ptr idx0 idx1 =>
      match evalValue m ptr, getType ptr with
      | Some (VPtr blk off), PointerTy (ArrayTy _ n) =>
          Some (setReg dst (VPtr blk (off + idx0 * n + idx1)%nat) m)
      | _, _ => None
      end
  | Load dst ptr =>
      match evalValue m ptr with
      | Some (VPtr blk off) =>
          match mem m !! blk with
          | Some cells =>
              match cells !! off with
              | Some v => Some (setReg dst v m)
              | None => None
              end
          | None => None
          end
      | _ => None
      end
  | Store val ptr =>
      match evalValue m val, evalValue m ptr with
      | Some v, Some (VPtr blk off) =>
          match mem m !! blk with
          | Some cells =>
              if bool_decide (off < length cells)%nat
              then Some (mkMachine (regs m) (<[blk := <[off := v]> cells]> (mem m))
                                   (nextBlock m))
              else None
          | None => None
          end
      | _, _ => None
      end
  | Cast dst op v destTy =>
      match evalValue m v with
      | Some x =>
          match evalCast op x destTy with
          | Some y => Some (setReg dst y m)
          | None => None
          end
      | None => None
      end
  | Binary dst op lhs rhs =>
      match evalValue m lhs, evalValue m rhs with
      | Some x, Some y =>
          match evalBinOp op x y with
          | Some z => Some (setReg dst z m)
          | None => None
          end
      | _, _ => None
      end
  end.

Fixpoint run (code : list Instr) (m : Machine) : option Machine :=
  match code with
  | [] => Some m
  | i :: code' =>
      match exec i m with
      | Some m' => run code' m'
      | None => None
      end
  end.

(** The instructions inserted between two states of a builder. *)
Definition insertedSince (b b' : IRBuilder) : list Instr :=
  drop (length (inserted b)) (inserted b').

(** Generate code with [c] from builder [b], run what it inserted on [m],
    and read the value it returned. *)
Definition resultOf (c : M Value) (b : IRBuilder) (m : Machine)
  : option rtval :=
  match c b with
  | (Ok r, b') =>
      match run (insertedSince b b') m with
      | Some m' => evalValue m' r
      | None => None
      end
  | _ => None
  end.

(** A constant, or a register below [n]. *)
Definition definedBelow (n : nat) (v : Value) : Prop :=
  match v with
  | Reg id _ => (id < n)%nat
  | _ => True
  end.

(** A value that exists before the builder inserts anything more: a
    constant, or a register below the builder's next one. *)
Definition definedBefore (b : IRBuilder) (v : Value) : Prop :=
  definedBelow (nextReg b) v.

End Sem.
Export Sem.

(** ** The remaining helpers of [Utils.h] *)

Module UtilsMore.

(** Modelled from the spec: [LLVMType<bool>::get] of [codegen/Types.h];
    the AX type [bool] is the 1 bit integer. *)
Definition LLVMType_bool : llvmType := IntegerTy 1.

(** [Type::isPointerTy()] *)
Definition isPointerTy (t : llvmType) : bool :=
  match t with PointerTy _ => true | _ => false end.

(** [valuesToTypes(values, types)]: [types] is passed by reference and
    returned as it is after the call. *)
Fixpoint valuesToTypes (values : list Value) (types : list llvmType)
  : list llvmType :=
  match values with
  | [] => types
  | v :: values' => valuesToTypes values' (types ++ [getType v])
  end.

(** [getBaseContainedType(type)]: the [while] loop strips one pointer layer
    per round. *)
Fixpoint getBaseContainedType (type : llvmType) : llvmType :=
  match type with
  | PointerTy contained => getBaseContainedType contained
  | _ => type
  end.

(** The [for] loop of [arithmeticConversion(values, targetElementType,
    builder)]: every value is replaced by its cast. *)
Fixpoint castValues (llvmCastFunction : CastOp) (targetElementType : llvmType)
    (values : list Value) : M (list Value) :=
  match values with
  | [] => ret []
  | value :: values' =>
      let* value := CreateCast llvmCastFunction value targetElementType in
      let* values' := castValues llvmCastFunction targetElementType values' in
      ret (value :: values')
  end.

(** [arithmeticConversion(values, targetElementType, builder)]; the vector
    is passed by reference and returned as it is after the call.
    [values.front()] of an empty vector has no defined behaviour; it is a
    failed precondition here. *)
Definition arithmeticConversionValues (values : list Value)
    (targetElementType : llvmType) : M (list Value) :=
  let* _ := assertion (isIntegerTy targetElementType
                       || isFloatingPointTy targetElementType) in
  match values with
  | [] => assertFail
  | front :: _ =>
      let sourceElementType := getType front in
      let* _ := assertion (isIntegerTy sourceElementType
                           || isFloatingPointTy sourceElementType) in
      if bool_decide (sourceElementType = targetElementType) then ret values
      else
        let* llvmCastFunction :=
          lift (llvmArithmeticConversion sourceElementType targetElementType) in
        castValues llvmCastFunction targetElementType values
  end.

(** The first loop of [arithmeticConversion(values, builder)]: the highest
    type among the scalar values, starting from [typeCast]. *)
Fixpoint highestScalarType (typeCast : llvmType) (values : list Value)
  : Outcome llvmType :=
  match values with
  | [] => Ok typeCast
  | value :: values' =>
      let type := getType value in
      if isScalarType type then
        match typePrecedence typeCast type with
        | Ok typeCast' => highestScalarType typeCast' values'
        | Throw e => Throw e
        | AssertFail => AssertFail
        end
      else highestScalarType typeCast values'
  end.

(** [arithmeticConversion(values, builder)] *)
Definition arithmeticConversionHighest (values : list Value) : M (list Value) :=
  let* typeCast := lift (highestScalarType LLVMType_bool values) in
  arithmeticConversionValues values typeCast.

(** [arithmeticConversion(valueA, valueB, builder)]; both references are
    returned as they are after the call. *)
Definition arithmeticConversionPair (valueA valueB : Value) : M (Value * Value) :=
  let* type := lift (typePrecedence (getType valueA) (getType valueB)) in
  let* valueA := arithmeticConversion valueA type in
  let* valueB := arithmeticConversion valueB type in
  ret (valueA, valueB).

(** [arrayIndexUnpack(ptrToArray, index, builder)]; [index] is an
    [int16_t], converted to the [uint64_t] parameter of the builder. *)
Definition arrayIndexUnpack (ptrToArray : Value) (index : Z) : M Value :=
  CreateConstGEP2_64 ptrToArray 0 (Z.to_nat (index mod 2 ^ 64)).

(** [array3Unpack(ptrToArray, value1, value2, value3, builder)]; the three
    references are returned. *)
Definition array3Unpack (ptrToArray : Value) : M (Value * Value * Value) :=
  let* _ := assertion (isPointerTy (getType ptrToArray)) in
  let* value1 := CreateConstGEP2_64 ptrToArray 0 0 in
  let* value2 := CreateConstGEP2_64 ptrToArray 0 1 in
  let* value3 := CreateConstGEP2_64 ptrToArray 0 2 in
  ret (value1, value2, value3).

(** The [for] loop of [arrayPack(value, builder, size)], from index [i] for
    [count] more elements. *)
Fixpoint arrayPackUniformLoop (array value : Value) (i count : nat) : M unit :=
  match count with
  | O => ret tt
  | S count' =>
      let* element := CreateConstGEP2_64 array 0 i in
      let* _ := CreateStore value element in
      arrayPackUniformLoop array value (S i) count'
  end.

(** [arrayPack(value, builder, size)]: an array of [size] copies of one
    scalar. *)
Definition arrayPackUniform (value : Value) (size : nat) : M Value :=
  let* _ := assertion (isIntegerTy (getType value)
                       || isFloatingPointTy (getType value)) in
  let type := getType value in
  let* array := CreateAlloca (ArrayTy type size) in
  let* _ := arrayPackUniformLoop array value 0 size in
  ret array.

(** The range [for] loop of [arrayPack(values, builder)], [idx] counting
    up. *)
Fixpoint arrayPackLoop (array : Value) (values : list Value) (idx : nat)
  : M unit :=
  match values with
  | [] => ret tt
  | value :: values' =>
      let* element := CreateConstGEP2_64 array 0 idx in
      let* _ := CreateStore value element in
      arrayPackLoop array values' (S idx)
  end.

(** [arrayPack(values, builder)]; [values.front()] of an empty vector has
    no defined behaviour and is a failed precondition here. *)
Definition arrayPack (values : list Value) : M Value :=
  match values with
  | [] => assertFail
  | front :: _ =>
      let type := getType front in
      let* array := CreateAlloca (ArrayTy type (length values)) in
      let* _ := arrayPackLoop array values 0 in
      ret array
  end.

(** The first loop of [arrayPackCast]: the highest type present, starting
    from [type]. *)
Fixpoint highestType (type : llvmType) (values : list Value)
  : Outcome llvmType :=
  match values with
  | [] => Ok type
  | value :: values' =>
      match typePrecedence type (getType value) with
      | Ok type' => highestType type' values'
      | Throw e => Throw e
      | AssertFail => AssertFail
      end
  end.



End UtilsMore.
Export UtilsMore.

(** ** The order of the specification *)

Module Spec.

(** The precedence order as the specification words it, lowest first:
    bool < i8 < i16 < i32 < i64 < f32 < f64. *)
Definition precedenceRank (t : llvmType) : nat :=
  match t with
  | IntegerTy 1 => 0
  | IntegerTy 8 => 1
  | IntegerTy 16 => 2
  | IntegerTy 32 => 3
  | IntegerTy 64 => 4
  | FloatTy => 5
  | DoubleTy => 6
  | _ => 0
  end.

(** The ordered predicate the specification names for each comparison. *)
Definition orderedPredicate (token : OperatorToken) : option FCmpPred :=
  match token with
  | EQUALSEQUALS => Some FCMP_OEQ
  | NOTEQUALS => Some FCMP_ONE
  | LESSTHAN => Some FCMP_OLT
  | MORETHAN => Some FCMP_OGT
  | LESSTHANOREQUAL => Some FCMP_OLE
  | MORETHANOREQUAL => Some FCMP_OGE
  | _ => None
  end.

(** A number other than the two zeros. *)
Definition fpNonzero (f : spec_float) : bool :=
  match f with
  | S754_zero _ => false
  | _ => true
  end.

(** The conversion table of [llvmArithmeticConversion] by the shape of the
    two types: narrowing integers truncate, widening integers extend with
    the sign, except from the 1 bit integer, which extends with zeros;
    integers convert to floating point as signed numbers, except the 1 bit
    integer; floating point converts to integers as signed numbers, except
    to the 1 bit integer. *)
Definition conversionByShape (source target : llvmType) : option CastOp :=
  match source, target with
  | IntegerTy ws, IntegerTy wt =>
      if (wt <? ws)%N then Some Trunc
      else if (ws =? 1)%N then Some ZExt
      else Some SExt
  | IntegerTy ws, (FloatTy | DoubleTy) =>
      Some (if (ws =? 1)%N then UIToFP else SIToFP)
  | (FloatTy | DoubleTy), IntegerTy wt =>
      Some (if (wt =? 1)%N then FPToUI else FPToSI)
  | FloatTy, DoubleTy => Some FPExt
  | DoubleTy, FloatTy => Some FPTrunc
  | _, _ => None
  end.

(** The integer instruction the specification has each bitwise operator
    perform. *)
Definition bitwiseInstruction (token : OperatorToken) : option BinOp :=
  match token with
  | BITAND => Some And
  | BITOR => Some Or
  | BITXOR => Some Xor
  | _ => None
  end.

(** The bitwise operators on two bit patterns. *)
Definition bitwiseValue (token : OperatorToken) (x y : Z) : Z :=
  match token with
  | BITAND => Z.land x y
  | BITOR => Z.lor x y
  | BITXOR => Z.lxor x y
  | _ => 0
  end.

End Spec.
Export Spec.

(** ** The code packing and unpacking are expected to insert *)

Module Expected.

(** What [array3Pack] inserts, from register [n] on, for three values of one
    type: the array, the three element addresses, the three stores. *)
Definition packCode (n : nat) (type : llvmType) (x y z : Value) : list Instr :=
  let vector := Reg n (PointerTy (ArrayTy type 3)) in
  [Alloca n (ArrayTy type 3);
   GEP2 (1 + n) vector 0 0;
   GEP2 (2 + n) vector 0 1;
   GEP2 (3 + n) vector 0 2;
   Store x (Reg (1 + n) (PointerTy type));
   Store y (Reg (2 + n) (PointerTy type));
   Store z (Reg (3 + n) (PointerTy type))].

(** What [arrayUnpack] inserts for an array of three with loaded
    elements: an address and a load per element. *)
Definition unpackCode (n : nat) (type : llvmType) (vector : Value) : list Instr :=
  [GEP2 n vector 0 0; Load (1 + n) (Reg n (PointerTy type));
   GEP2 (2 + n) vector 0 1; Load (3 + n) (Reg (2 + n) (PointerTy type));
   GEP2 (4 + n) vector 0 2; Load (5 + n) (Reg (4 + n) (PointerTy type))].

End Expected.
Export Expected.

(** ** The code the loops are expected to insert *)

Module ExpectedLoops.

(** What the loop of [arrayPack] inserts from register [d] and index [idx]
    on: an element address and a store per value. *)
Fixpoint packLoopCode (d : nat) (array : Value) (type : llvmType)
    (values : list Value) (idx : nat) : list Instr :=
  match values with
  | [] => []
  | value :: values' =>
      GEP2 d array 0 idx :: Store value (Reg d (PointerTy type))
        :: packLoopCode (S d) array type values' (S idx)
  end.

(** What the loop of [arrayUnpack] inserts with loaded elements: an element
    address and a load per element. *)
Fixpoint unpackLoopCode (d : nat) (ptrToArray : Value) (type : llvmType)
    (i count : nat) : list Instr :=
  match count with
  | O => []
  | S count' =>
      GEP2 d ptrToArray 0 i :: Load (S d) (Reg d (PointerTy type))
        :: unpackLoopCode (S (S d)) ptrToArray type (S i) count'
  end.

(** The values that loop pushes: the loaded registers. *)
Fixpoint unpackLoopValues (d : nat) (type : llvmType) (count : nat)
  : list Value :=
  match count with
  | O => []
  | S count' => Reg (S d) type :: unpackLoopValues (S (S d)) type count'
  end.


(** The first component of what a helper returns. *)
Definition valueOf {A} (c : M (Value * A)) : M Value :=
  let* p := c in ret (fst p).

(** The tokens [llvmBinaryConversion] names: the binary operators. *)
Definition binaryTokens : list OperatorToken :=
  [PLUS; MINUS; MULTIPLY; DIVIDE; MODULO; AND; OR;
   EQUALSEQUALS; NOTEQUALS; MORETHAN; LESSTHAN; MORETHANOREQUAL;
   LESSTHANOREQUAL; BITAND; BITOR; BITXOR].

(** The type of the result of a binary operator on two operands of type
    [type], by the class of the token. *)
Definition binaryResultType (type : llvmType) (token : OperatorToken)
  : llvmType :=
  match operatorType token with
  | LOGICAL | RELATIONAL => IntegerTy 1
  | BITWISE => if isFloatingPointTy type then IntegerTy 64 else type
  | _ => type
  end.

(** The highest rank in a list of types, from [r] on. *)
Definition highestRank (r : nat) (types : list llvmType) : nat :=
  foldl (fun acc t => Nat.max acc (precedenceRank t)) r types.

End ExpectedLoops.
Export ExpectedLoops.

(** ** The grid comparison of the integration tests ([CompareGrids.cc])

    The leaf nodes, node masks and attribute arrays of OpenVDB are kept as
    plain data: a buffer is the list of its voxel values, a node mask the
    list of its bits.  The comparison of two values within a tolerance,
    [openvdb::math::isApproxEqual], is a parameter. *)

Module CompareGrids.

(** [DiagnosticArrayData] *)
Record DiagnosticArrayData : Type := mkDiagnosticArrayData {
  mSizeMatch : bool;
  mTypesMatch : bool;
  mFlagsMatch : bool;
  mArrayValueFlags : option (list nat)
}.

(** The constructor [DiagnosticArrayData()]. *)
Definition newDiagnosticArrayData : DiagnosticArrayData :=
  mkDiagnosticArrayData true true true None.

(** [DiagnosticArrayData::flagArrayValue(idx)] *)
Definition flagArrayValue (idx : nat) (a : DiagnosticArrayData)
  : DiagnosticArrayData :=
  mkDiagnosticArrayData (mSizeMatch a) (mTypesMatch a) (mFlagsMatch a)
    (Some (default [] (mArrayValueFlags a) ++ [idx])).

(** [DiagnosticData]; a [unique_ptr] is an [option], the [std::array<bool,
    512>] a list of 512 bits. *)
Record DiagnosticData : Type := mkDiagnosticData {
  mValid : bool;
  mBufferSizes : bool;
  mVoxelTopologyFlags : option (list bool);
  mVoxelValueFlags : option (list bool);
  mDescriptorsMatch : bool;
  mAttributeArrayData : option (gmap string DiagnosticArrayData)
}.

(** The constructor [DiagnosticData()]. *)
Definition newDiagnosticData : DiagnosticData :=
  mkDiagnosticData true true None None true None.

Definition hasValueFlags (d : DiagnosticData) : bool :=
  bool_decide (is_Some (mVoxelValueFlags d)).

Definition hasTopologyFlags (d : DiagnosticData) : bool :=
  bool_decide (is_Some (mVoxelTopologyFlags d)).

(** [DiagnosticData::flagVoxelTopology(idx)]: the array is made on first
    use, all true, and the bit at [idx] is cleared.  An index outside the
    array has no defined behaviour in the source; here it changes
    nothing. *)
Definition flagVoxelTopology (idx : nat) (d : DiagnosticData) : DiagnosticData :=
  mkDiagnosticData (mValid d) (mBufferSizes d)
    (Some (<[idx := false]> (default (replicate 512 true) (mVoxelTopologyFlags d))))
    (mVoxelValueFlags d) (mDescriptorsMatch d) (mAttributeArrayData d).

(** [DiagnosticData::flagVoxelValue(idx)] *)
Definition flagVoxelValue (idx : nat) (d : DiagnosticData) : DiagnosticData :=
  mkDiagnosticData (mValid d) (mBufferSizes d) (mVoxelTopologyFlags d)
    (Some (<[idx := false]> (default (replicate 512 true) (mVoxelValueFlags d))))
    (mDescriptorsMatch d) (mAttributeArrayData d).

(** [DiagnosticData::getDiagnosticArrayData(name)]: the map is made on
    first use, and [operator[]] on the map makes the entry when there is
    none.  The entry is returned with the data as they are after the
    call. *)
Definition getDiagnosticArrayData (name : string) (d : DiagnosticData)
  : DiagnosticArrayData * DiagnosticData :=
  let map := default ∅ (mAttributeArrayData d) in
  let entry := default newDiagnosticArrayData (map !! name) in
  (entry,
   mkDiagnosticData (mValid d) (mBufferSizes d) (mVoxelTopologyFlags d)
     (mVoxelValueFlags d) (mDescriptorsMatch d)
     (Some (<[name := entry]> map))).

(** [DiagnosticData::hasDiagnosticArrayData()] *)
Definition hasDiagnosticArrayData (d : DiagnosticData) : bool :=
  bool_decide (is_Some (mAttributeArrayData d)).

(** [DiagnosticData::hasDiagnosticArrayData(name)] *)
Definition hasDiagnosticArrayDataFor (name : string) (d : DiagnosticData) : bool :=
  hasDiagnosticArrayData d &&
  bool_decide (is_Some (default ∅ (mAttributeArrayData d) !! name)).

(** [ComparisonSettings] is declared in [CompareGrids.h], which is not at
    hand; these are the members [CompareGrids.cc] reads, each of them as a
    condition. *)
Record ComparisonSettings : Type := mkComparisonSettings {
  mCheckTransforms : bool;
  mCheckTopologyStructure : bool;
  mCheckActiveStates : bool;
  mCheckBufferValues : bool;
  mCheckDescriptors : bool;
  mCheckArrayValues : bool;
  mCheckArrayFlags : bool
}.

(** [NodeMask::isOn(n)] *)
Definition isOn (mask : list bool) (n : nat) : bool :=
  default false (mask !! n).

(** The positions [NodeMask::beginOn()] iterates over: the set bits, in
    increasing order. *)
Definition onPositions (mask : list bool) : list nat :=
  filter (fun n => isOn mask n = true) (seq 0 (length mask)).

Section Leaves.

(** The value type of the tree and [openvdb::math::isApproxEqual(a, b,
    tolerance)]. *)
Variable ValueType : Type.
Variable isApproxEqual : ValueType -> ValueType -> ValueType -> bool.

(** What is read of a leaf node: its buffer and its value mask. *)
Record LeafNode : Type := mkLeafNode {
  buffer : list ValueType;
  getValueMask : list bool
}.

(** The [for] loop of [compareLeafBuffers] over the set bits of [mask]; the
    assertion is that the position is inside both buffers. *)
Fixpoint compareLeafBuffersLoop (firstLeaf secondLeaf : LeafNode)
    (settings : ComparisonSettings) (tolerance : ValueType)
    (positions : list nat) (data : DiagnosticData) : Outcome DiagnosticData :=
  match positions with
  | [] => Ok data
  | n :: positions' =>
      match buffer firstLeaf !! n, buffer secondLeaf !! n with
      | Some value1, Some value2 =>
          let data :=
            if mCheckActiveStates settings
               && xorb (isOn (getValueMask firstLeaf) n)
                       (isOn (getValueMask secondLeaf) n)
            then flagVoxelTopology n data else data in
          let data :=
            if mCheckBufferValues settings
               && negb (isApproxEqual value1 value2 tolerance)
            then flagVoxelValue n data else data in
          compareLeafBuffersLoop firstLeaf secondLeaf settings tolerance
            positions' data
      | _, _ => AssertFail
      end
  end.

(** [compareLeafBuffers(firstLeaf, secondLeaf, mask, data, settings,
    tolerance)]; [data] is passed by reference and returned with the
    result. *)
Definition compareLeafBuffers (firstLeaf secondLeaf : LeafNode)
    (mask : list bool) (data : DiagnosticData) (settings : ComparisonSettings)
    (tolerance : ValueType) : Outcome (bool * DiagnosticData) :=
  if negb (length (buffer firstLeaf) =? length (buffer secondLeaf))%nat then
    Ok (false,
        mkDiagnosticData (mValid data) false (mVoxelTopologyFlags data)
          (mVoxelValueFlags data) (mDescriptorsMatch data)
          (mAttributeArrayData data))
  else
    match compareLeafBuffersLoop firstLeaf secondLeaf settings tolerance
            (onPositions mask) data with
    | Ok data => Ok (negb (hasValueFlags data) && negb (hasTopologyFlags data), data)
    | Throw e => Throw e
    | AssertFail => AssertFail
    end.

(** The unspecialised [compareAttributes]: leaves without attributes always
    agree. *)
Definition compareAttributes (firstLeaf secondLeaf : LeafNode)
    (data : DiagnosticData) (settings : ComparisonSettings) : bool := true.

(** [CompareLeafNodes::operator()(leaf, index)] for a tree without point
    attributes.  [firstLeafNode] and [secondLeafNode] are what
    [probeConstLeaf(origin)] finds in the two trees, [leafValueMask] is the
    value mask of the leaf of the mask tree, and [slot] is
    [mDiagnosticData[index]], returned as it is after the call. *)
Definition compareLeafNodes (firstLeafNode secondLeafNode : option LeafNode)
    (leafValueMask : list bool) (mTolerance : ValueType)
    (mSettings : ComparisonSettings) (mUseVoxelMask : bool)
    (slot : option DiagnosticData) : Outcome (option DiagnosticData) :=
  match firstLeafNode, secondLeafNode with
  | None, None => Ok slot
  | Some firstLeaf, Some secondLeaf =>
      let data := newDiagnosticData in
      let mask :=
        if mUseVoxelMask then leafValueMask
        else replicate (length leafValueMask) true in
      match compareLeafBuffers firstLeaf secondLeaf mask data mSettings
              mTolerance with
      | Ok (true, data) =>
          if compareAttributes firstLeaf secondLeaf data mSettings
          then Ok None else Ok (Some data)
      | Ok (false, data) => Ok (Some data)
      | Throw e => Throw e
      | AssertFail => AssertFail
      end
  | _, _ =>
      Ok (Some (mkDiagnosticData false true None None true None))
  end.

(** Where the two leaves differ at a voxel, as the settings ask. *)
Definition topologyDiffers (firstLeaf secondLeaf : LeafNode)
    (settings : ComparisonSettings) (n : nat) : bool :=
  mCheckActiveStates settings
  && xorb (isOn (getValueMask firstLeaf) n) (isOn (getValueMask secondLeaf) n).

Definition valueDiffers (firstLeaf secondLeaf : LeafNode)
    (settings : ComparisonSettings) (tolerance : ValueType) (n : nat) : bool :=
  mCheckBufferValues settings
  && match buffer firstLeaf !! n, buffer secondLeaf !! n with
     | Some value1, Some value2 => negb (isApproxEqual value1 value2 tolerance)
     | _, _ => false
     end.

End Leaves.

End CompareGrids.
Export CompareGrids.

(** * Properties *)

(** Case analysis on membership in a list given by its elements. *)
Ltac list_cases H :=
  repeat (apply elem_of_cons in H as [H | H]; [subst |]);
  try (apply elem_of_nil in H; destruct H).

Ltac in_list := repeat (first [ apply list_elem_of_here | apply list_elem_of_further ]).

(** ** Type precedence *)

Section Precedence.

Lemma precedenceRank_inj (a b : llvmType) :
  a ∈ axScalarTypes -> b ∈ axScalarTypes ->
  precedenceRank a = precedenceRank b -> a = b.
Proof.
  intros Ha Hb. unfold axScalarTypes in *.
  list_cases Ha; list_cases Hb; simpl; intros E; try reflexivity; discriminate E.
Qed.

Lemma axScalar_isScalarType (t : llvmType) :
  t ∈ axScalarTypes -> isScalarType t = true.
Proof. intros H. unfold axScalarTypes in H. list_cases H; reflexivity. Qed.

(** Without any restriction on the two types the outcome does not depend on
    the order of the arguments. *)
Lemma typePrecedence_comm (a b : llvmType) :
  typePrecedence a b = typePrecedence b a.
Proof.
  unfold typePrecedence.
  destruct (isScalarType a) eqn:Sa, (isScalarType b) eqn:Sb; simpl; try reflexivity.
  destruct a, b; simpl in *; try discriminate; try reflexivity;
    repeat (case N.eqb_spec; intros; subst; try reflexivity).
Qed.

(** C1: on the scalar types bool, i8, i16, i32, i64, f32, f64,
    [typePrecedence a b] returns the greater of [a] and [b] in the order
    bool < i8 < i16 < i32 < i64 < f32 < f64: it returns one of the two, and
    the rank of what it returns is the maximum of the two ranks.  In
    particular f32 with i64 gives f32. *)
Theorem typePrecedence_is_max (a b : llvmType) :
  a ∈ axScalarTypes -> b ∈ axScalarTypes ->
  (exists r, typePrecedence a b = Ok r /\ (r = a \/ r = b) /\
             precedenceRank r = Nat.max (precedenceRank a) (precedenceRank b))
  /\ typePrecedence FloatTy (IntegerTy 64) = Ok FloatTy.
Proof.
  intros Ha Hb. split; [| reflexivity].
  unfold axScalarTypes in *.
  list_cases Ha; list_cases Hb;
    (eexists; split; [reflexivity | split; [auto | reflexivity]]).
Qed.

Lemma typePrecedence_is_max_witness :
  (exists r, typePrecedence (IntegerTy 16) FloatTy = Ok r /\
             (r = IntegerTy 16 \/ r = FloatTy) /\
             precedenceRank r = Nat.max (precedenceRank (IntegerTy 16))
                                        (precedenceRank FloatTy))
  /\ typePrecedence FloatTy (IntegerTy 64) = Ok FloatTy.
Proof.
  apply (typePrecedence_is_max (IntegerTy 16) FloatTy);
    unfold axScalarTypes; in_list.
Defined.

(** C5: on scalar types [typePrecedence] is symmetric, and it returns one of
    its two arguments. *)
Theorem typePrecedence_symmetric_choice (a b : llvmType) :
  a ∈ axScalarTypes -> b ∈ axScalarTypes ->
  typePrecedence a b = typePrecedence b a /\
  (typePrecedence a b = Ok a \/ typePrecedence a b = Ok b).
Proof.
  intros Ha Hb. split; [apply typePrecedence_comm |].
  unfold axScalarTypes in *.
  list_cases Ha; list_cases Hb; simpl; auto.
Qed.

Lemma typePrecedence_symmetric_choice_witness :
  typePrecedence (IntegerTy 32) DoubleTy = typePrecedence DoubleTy (IntegerTy 32) /\
  (typePrecedence (IntegerTy 32) DoubleTy = Ok (IntegerTy 32) \/
   typePrecedence (IntegerTy 32) DoubleTy = Ok DoubleTy).
Proof.
  apply (typePrecedence_symmetric_choice (IntegerTy 32) DoubleTy);
    unfold axScalarTypes; in_list.
Defined.

End Precedence.

(** ** Selection of binary instructions *)

Section BinarySelection.

Lemma SFcompare_nan_l (f : spec_float) : SFcompare S754_nan f = None.
Proof. reflexivity. Qed.

Lemma SFcompare_nan_r (f : spec_float) : SFcompare f S754_nan = None.
Proof. destruct f; reflexivity. Qed.

Lemma evalFCmp_unordered (p : FCmpPred) : evalFCmp p None = false.
Proof. destruct p; reflexivity. Qed.

Lemma bool_decide_refl {A} `{EqDecision A} (x : A) : bool_decide (x = x) = true.
Proof. apply bool_decide_eq_true. reflexivity. Qed.

(** C3: for a floating point type, [llvmBinaryConversion] throws
    [LLVMBinaryOperationError] on every logical and every bitwise token; it
    returns no binary function. *)
Theorem llvmBinaryConversion_fp_rejects (type : llvmType) (token : OperatorToken) :
  isFloatingPointTy type = true ->
  operatorType token = LOGICAL \/ operatorType token = BITWISE ->
  llvmBinaryConversion type token = Throw LLVMBinaryOperationError.
Proof.
  intros Hfp Hop. unfold llvmBinaryConversion. rewrite Hfp.
  destruct Hop as [-> | ->]; reflexivity.
Qed.

Lemma llvmBinaryConversion_fp_rejects_witness :
  llvmBinaryConversion DoubleTy BITAND = Throw LLVMBinaryOperationError /\
  llvmBinaryConversion FloatTy OR = Throw LLVMBinaryOperationError.
Proof.
  split.
  - apply (llvmBinaryConversion_fp_rejects DoubleTy BITAND);
      [reflexivity | right; reflexivity].
  - apply (llvmBinaryConversion_fp_rejects FloatTy OR);
      [reflexivity | left; reflexivity].
Defined.

(** C4: for a floating point type the comparisons ==, !=, <, >, <=, >= are
    lowered to the ordered predicates OEQ, ONE, OLT, OGT, OLE, OGE, and an
    ordered comparison with a NaN operand is false, != included. *)
Theorem fp_comparison_ordered (type : llvmType) (token : OperatorToken)
    (p : FCmpPred) :
  isFloatingPointTy type = true ->
  orderedPredicate token = Some p ->
  llvmBinaryConversion type token = Ok (FCmp p) /\
  forall prec emax x y,
    fpFormat type = Some (prec, emax) ->
    decodeFP prec emax x = S754_nan \/ decodeFP prec emax y = S754_nan ->
    evalBinOp (FCmp p) (VBits type x) (VBits type y) = Some (boolBits false).
Proof.
  intros Hfp Hp. split.
  - unfold llvmBinaryConversion. rewrite Hfp.
    destruct token; try discriminate Hp; simpl in Hp;
      injection Hp as <-; reflexivity.
  - intros prec emax x y Hfmt Hnan. unfold evalBinOp.
    rewrite bool_decide_refl. simpl negb. cbv iota. rewrite Hfmt.
    destruct Hnan as [-> | ->];
      rewrite ?SFcompare_nan_l, ?SFcompare_nan_r, evalFCmp_unordered;
      reflexivity.
Qed.

Lemma fp_comparison_ordered_witness :
  llvmBinaryConversion DoubleTy NOTEQUALS = Ok (FCmp FCMP_ONE) /\
  evalBinOp (FCmp FCMP_ONE) (VBits DoubleTy 0x7FF8000000000000)
            (VBits DoubleTy 0x3FF0000000000000) = Some (boolBits false).
Proof.
  destruct (fp_comparison_ordered DoubleTy NOTEQUALS FCMP_ONE eq_refl eq_refl)
    as [Hsel Hnan].
  split; [exact Hsel |].
  apply (Hnan 53 1024); [reflexivity | left; vm_compute; reflexivity].
Defined.

End BinarySelection.

(** ** [binaryOperator] *)

Section BinaryOperator.

(** C10: when the two operands differ in type, [binaryOperator] throws
    [LLVMTypeError] for every token and leaves the builder as it was: no
    instruction is inserted. *)
Theorem binaryOperator_mismatch (b : IRBuilder) (lhs rhs : Value)
    (token : OperatorToken) (warnings : option string) :
  getType lhs <> getType rhs ->
  binaryOperator lhs rhs token warnings b = (Throw LLVMTypeError, b).
Proof.
  intros Hne. unfold binaryOperator.
  rewrite (bool_decide_eq_false_2 _ Hne). reflexivity.
Qed.

Lemma binaryOperator_mismatch_witness :
  binaryOperator (Reg 0 FloatTy) (Reg 1 (IntegerTy 32)) PLUS None
                 (mkBuilder 2 []) =
  (Throw LLVMTypeError, mkBuilder 2 []).
Proof.
  apply (binaryOperator_mismatch (mkBuilder 2 []) (Reg 0 FloatTy)
           (Reg 1 (IntegerTy 32)) PLUS None).
  simpl. discriminate.
Defined.

(** The IR floating point kinds outside the AX types have no row in
    [llvmArithmeticConversion]: on them the implicit cast to i64 throws. *)
Lemma binaryOperator_bitwise_half :
  binaryOperator (Reg 0 HalfTy) (Reg 1 HalfTy) BITAND None (mkBuilder 2 []) =
  (Throw LLVMTypeError, mkBuilder 2 []).
Proof. reflexivity. Qed.

(** The logical tokens do reach an instruction on floating point operands:
    both sides are coerced to bool first. *)
Lemma binaryOperator_logical_float :
  binaryOperator (Reg 0 FloatTy) (Reg 1 FloatTy) AND None (mkBuilder 2 []) =
  (Ok (Reg 4 (IntegerTy 1), None),
   mkBuilder 5
     [Binary 2 (FCmp FCMP_ONE) (Reg 0 FloatTy) (ConstantFP FloatTy 0);
      Binary 3 (FCmp FCMP_ONE) (Reg 1 FloatTy) (ConstantFP FloatTy 0);
      Binary 4 And (Reg 2 (IntegerTy 1)) (Reg 3 (IntegerTy 1))]).
Proof. reflexivity. Qed.

End BinaryOperator.

(** ** Running what a helper inserts *)

Section Running.

Lemma insertedSince_app (b : IRBuilder) (n : nat) (code : list Instr) :
  insertedSince b (mkBuilder n (inserted b ++ code)) = code.
Proof. unfold insertedSince. simpl. apply drop_app_length. Qed.

Lemma resultOf_insert (mk : nat -> Instr) (ty : llvmType) (b : IRBuilder)
    (m : Machine) :
  resultOf (insert mk ty) b m =
  match exec (mk (nextReg b)) m with
  | Some m' => regs m' !! nextReg b
  | None => None
  end.
Proof.
  unfold resultOf, insert. rewrite insertedSince_app. simpl.
  destruct (exec (mk (nextReg b)) m); reflexivity.
Qed.

Lemma resultOf_CreateBinOp (op : BinOp) (lhs rhs : Value) (b : IRBuilder)
    (m : Machine) (x y : rtval) :
  evalValue m lhs = Some x -> evalValue m rhs = Some y ->
  resultOf (CreateBinOp op lhs rhs) b m = evalBinOp op x y.
Proof.
  intros Hx Hy. unfold CreateBinOp. rewrite resultOf_insert.
  unfold exec. rewrite Hx, Hy.
  destruct (evalBinOp op x y); [| reflexivity].
  unfold setReg. simpl. apply lookup_insert_eq.
Qed.

Lemma resultOf_ext (c c' : M Value) (b : IRBuilder) (m : Machine) :
  c b = c' b -> resultOf c b m = resultOf c' b m.
Proof. unfold resultOf. intros ->. reflexivity. Qed.

(** What [arithmeticConversion] does between two different scalar types. *)
Lemma arithmeticConversion_cast (value : Value) (targetType : llvmType)
    (op : CastOp) (b : IRBuilder) :
  isScalarType (getType value) = true -> isScalarType targetType = true ->
  getType value <> targetType ->
  llvmArithmeticConversion (getType value) targetType = Ok op ->
  arithmeticConversion value targetType b =
  insert (fun d => Cast d op value targetType) targetType b.
Proof.
  intros Hs Ht Hne Hop. unfold isScalarType in *.
  unfold arithmeticConversion, bind, assertion, lift, CreateCast.
  rewrite Hs, Ht. simpl. rewrite (bool_decide_eq_false_2 _ Hne), Hop.
  reflexivity.
Qed.

Lemma resultOf_cast (op : CastOp) (value : Value) (targetType : llvmType)
    (b : IRBuilder) (m : Machine) (x : rtval) :
  evalValue m value = Some x ->
  resultOf (insert (fun d => Cast d op value targetType) targetType) b m =
  evalCast op x targetType.
Proof.
  intros Hx. rewrite resultOf_insert. unfold exec. rewrite Hx.
  destruct (evalCast op x targetType); [| reflexivity].
  unfold setReg. simpl. apply lookup_insert_eq.
Qed.

(** A conversion to the type the value has returns the value and inserts
    nothing. *)
Lemma arithmeticConversion_same (value : Value) (b : IRBuilder) :
  isScalarType (getType value) = true ->
  arithmeticConversion value (getType value) b = (Ok value, b).
Proof.
  intros Hs. unfold isScalarType in Hs.
  unfold arithmeticConversion, bind, assertion. rewrite Hs. simpl.
  rewrite bool_decide_refl. reflexivity.
Qed.

Lemma decodeFP_zero (type : llvmType) (prec emax : Z) :
  fpFormat type = Some (prec, emax) -> decodeFP prec emax 0 = S754_zero false.
Proof.
  destruct type; simpl; intros E; try discriminate E;
    injection E as <- <-; vm_compute; reflexivity.
Qed.

End Running.

(** ** Coercion to bool *)

Section BoolCoercion.

(** C6: [boolComparison] coerces a floating point value by the ordered
    comparison [!= 0.0], so a NaN gives false, and an integer value by the
    comparison [!= 0], so every nonzero integer gives true. *)
Theorem boolComparison_coerces (b : IRBuilder) (m : Machine) (value : Value)
    (bits : Z) :
  evalValue m value = Some (VBits (getType value) bits) ->
  (forall prec emax,
     fpFormat (getType value) = Some (prec, emax) ->
     boolComparison value b =
       CreateBinOp (FCmp FCMP_ONE) value (ConstantFP (getType value) 0) b /\
     resultOf (boolComparison value) b m =
       Some (boolBits (evalFCmp FCMP_ONE
               (SFcompare (decodeFP prec emax bits) (S754_zero false)))) /\
     (decodeFP prec emax bits = S754_nan ->
      resultOf (boolComparison value) b m = Some (boolBits false)))
  /\
  (isIntegerTy (getType value) = true ->
     boolComparison value b =
       CreateBinOp (ICmp ICMP_NE) value (ConstantInt (getType value) 0) b /\
     resultOf (boolComparison value) b m = Some (boolBits (negb (bits =? 0))) /\
     (bits <> 0 ->
      resultOf (boolComparison value) b m = Some (boolBits true))).
Proof.
  intros Hv. split.
  - intros prec emax Hfmt.
    assert (Hsel : boolComparison value b =
              CreateBinOp (FCmp FCMP_ONE) value (ConstantFP (getType value) 0) b).
    { unfold boolComparison. destruct (getType value); try discriminate Hfmt;
        reflexivity. }
    assert (Hres : resultOf (boolComparison value) b m =
              Some (boolBits (evalFCmp FCMP_ONE
                (SFcompare (decodeFP prec emax bits) (S754_zero false))))).
    { rewrite (resultOf_ext _ _ _ _ Hsel).
      rewrite (resultOf_CreateBinOp (FCmp FCMP_ONE) value
                 (ConstantFP (getType value) 0) b m _
                 (VBits (getType value) 0) Hv eq_refl).
      unfold evalBinOp. rewrite bool_decide_refl. simpl negb. cbv iota.
      rewrite Hfmt, (decodeFP_zero _ _ _ Hfmt). reflexivity. }
    split; [exact Hsel | split; [exact Hres |]].
    intros Hnan. rewrite Hres, Hnan. reflexivity.
  - intros Hint.
    destruct (getType value) as [| | | | | | | w | |] eqn:Ety; try discriminate Hint.
    assert (Hsel : boolComparison value b =
              CreateBinOp (ICmp ICMP_NE) value (ConstantInt (IntegerTy w) 0) b).
    { unfold boolComparison. rewrite Ety. simpl.
      destruct (N.eqb w 1); reflexivity. }
    assert (Hres : resultOf (boolComparison value) b m =
              Some (boolBits (negb (bits =? 0)))).
    { rewrite (resultOf_ext _ _ _ _ Hsel).
      assert (Hc : evalValue m (ConstantInt (IntegerTy w) 0) =
                   Some (VBits (IntegerTy w) 0)).
      { simpl. rewrite Z.mod_0_l; [reflexivity |].
        apply Z.pow_nonzero; lia. }
      rewrite (resultOf_CreateBinOp _ _ _ _ _ _ _ Hv Hc).
      unfold evalBinOp. rewrite bool_decide_refl. reflexivity. }
    split; [exact Hsel | split; [exact Hres |]].
    intros Hnz. rewrite Hres.
    destruct (Z.eqb_spec bits 0); [contradiction | reflexivity].
Qed.

Lemma boolComparison_coerces_witness :
  resultOf (boolComparison (Reg 0 DoubleTy)) (mkBuilder 2 [])
    (mkMachine (<[0%nat := VBits DoubleTy 0x7FF8000000000000]>
                 (<[1%nat := VBits (IntegerTy 32) 2]> ∅)) ∅ 0)
  = Some (boolBits false) /\
  resultOf (boolComparison (Reg 1 (IntegerTy 32))) (mkBuilder 2 [])
    (mkMachine (<[0%nat := VBits DoubleTy 0x7FF8000000000000]>
                 (<[1%nat := VBits (IntegerTy 32) 2]> ∅)) ∅ 0)
  = Some (boolBits true).
Proof.
  split.
  - refine (proj2 (proj2 (proj1 (boolComparison_coerces (mkBuilder 2 []) _
        (Reg 0 DoubleTy) 0x7FF8000000000000 _) 53 1024 eq_refl)) _);
      vm_compute; reflexivity.
  - refine (proj2 (proj2 (proj2 (boolComparison_coerces (mkBuilder 2 []) _
        (Reg 1 (IntegerTy 32)) 2 _) eq_refl)) _);
      [vm_compute; reflexivity | discriminate].
Defined.

End BoolCoercion.

(** ** The arithmetic cast to bool *)

Section CastToBool.

(** C7 as stated fails: the double 0.5 is not zero, and the arithmetic cast
    to bool makes it false, so "casts to true if and only if it is nonzero"
    does not hold. *)
Lemma cast_fp_to_bool_counterexample :
  ~ (forall bits : Z,
       resultOf (arithmeticConversion (Reg 0 DoubleTy) (IntegerTy 1))
                (mkBuilder 1 [])
                (mkMachine (<[0%nat := VBits DoubleTy bits]> ∅) ∅ 0)
         = Some (boolBits true)
       <-> fpNonzero (decodeFP 53 1024 bits) = true).
Proof.
  intros H. specialize (H 0x3FE0000000000000).
  destruct H as [_ H]. vm_compute in H. discriminate (H eq_refl).
Qed.

Lemma fpToInt_bool_true (f : spec_float) :
  fpToInt false 1 f = boolBits true ->
  truncSF f = Some 1 /\ fpNonzero f = true.
Proof.
  unfold fpToInt, boolBits. intros H.
  destruct (truncSF f) as [z |] eqn:Ez; [| discriminate H].
  destruct ((0 <=? z) && (z <? 2 ^ 1)); [| discriminate H].
  injection H as ->. split; [reflexivity |].
  destruct f; try reflexivity. simpl in Ez. discriminate Ez.
Qed.

(** C7, as amended: the arithmetic cast to bool converts an integer source
    by truncation (the result is the lowest bit) and a floating point source
    by the conversion to an unsigned integer, which rounds towards zero; a
    floating point value that casts to true has integer part 1, so it is
    nonzero. *)
Theorem cast_to_bool (b : IRBuilder) (m : Machine) (value : Value) (bits : Z) :
  evalValue m value = Some (VBits (getType value) bits) ->
  (getType value ∈ [IntegerTy 8; IntegerTy 16; IntegerTy 32; IntegerTy 64] ->
     llvmArithmeticConversion (getType value) (IntegerTy 1) = Ok Trunc /\
     resultOf (arithmeticConversion value (IntegerTy 1)) b m =
       Some (VBits (IntegerTy 1) (bits mod 2)))
  /\
  (isAXFloat (getType value) = true ->
     llvmArithmeticConversion (getType value) (IntegerTy 1) = Ok FPToUI /\
     forall prec emax,
       fpFormat (getType value) = Some (prec, emax) ->
       resultOf (arithmeticConversion value (IntegerTy 1)) b m =
         Some (fpToInt false 1 (decodeFP prec emax bits)) /\
       (resultOf (arithmeticConversion value (IntegerTy 1)) b m =
          Some (boolBits true) ->
        truncSF (decodeFP prec emax bits) = Some 1 /\
        fpNonzero (decodeFP prec emax bits) = true)).
Proof.
  intros Hv. split.
  - intros Hin.
    assert (Hsel : llvmArithmeticConversion (getType value) (IntegerTy 1) = Ok Trunc).
    { list_cases Hin; rewrite Hin; reflexivity. }
    assert (Hs : isScalarType (getType value) = true).
    { list_cases Hin; rewrite Hin; reflexivity. }
    assert (Hne : getType value <> IntegerTy 1).
    { intros E. rewrite E in Hin. list_cases Hin; discriminate Hin. }
    split; [exact Hsel |].
    rewrite (resultOf_ext _ _ _ _
               (arithmeticConversion_cast value (IntegerTy 1) Trunc b
                  Hs eq_refl Hne Hsel)).
    rewrite (resultOf_cast _ _ _ _ _ _ Hv).
    list_cases Hin; rewrite Hin; reflexivity.
  - intros Hfp.
    assert (Hty : getType value = FloatTy \/ getType value = DoubleTy).
    { destruct (getType value); try discriminate Hfp; auto. }
    assert (Hsel : llvmArithmeticConversion (getType value) (IntegerTy 1) = Ok FPToUI).
    { destruct Hty as [-> | ->]; reflexivity. }
    split; [exact Hsel |].
    intros prec emax Hfmt.
    assert (Hres : resultOf (arithmeticConversion value (IntegerTy 1)) b m =
                   Some (fpToInt false 1 (decodeFP prec emax bits))).
    { assert (Hs : isScalarType (getType value) = true).
      { destruct Hty as [-> | ->]; reflexivity. }
      assert (Hne : getType value <> IntegerTy 1).
      { destruct Hty as [-> | ->]; discriminate. }
      rewrite (resultOf_ext _ _ _ _
                 (arithmeticConversion_cast value (IntegerTy 1) FPToUI b
                    Hs eq_refl Hne Hsel)).
      rewrite (resultOf_cast _ _ _ _ _ _ Hv).
      destruct Hty as [E | E]; rewrite E in Hfmt |- *;
        injection Hfmt as <- <-; reflexivity. }
    split; [exact Hres |].
    rewrite Hres. intros E. injection E as E.
    apply fpToInt_bool_true, E.
Qed.

Lemma cast_to_bool_witness :
  resultOf (arithmeticConversion (Reg 0 DoubleTy) (IntegerTy 1))
           (mkBuilder 1 [])
           (mkMachine (<[0%nat := VBits DoubleTy 0x3FF8000000000000]> ∅) ∅ 0)
  = Some (fpToInt false 1 (decodeFP 53 1024 0x3FF8000000000000)) /\
  resultOf (arithmeticConversion (Reg 0 (IntegerTy 32)) (IntegerTy 1))
           (mkBuilder 1 [])
           (mkMachine (<[0%nat := VBits (IntegerTy 32) 6]> ∅) ∅ 0)
  = Some (VBits (IntegerTy 1) (6 mod 2)).
Proof.
  split.
  - refine (proj1 (proj2 (proj2 (cast_to_bool (mkBuilder 1 []) _
        (Reg 0 DoubleTy) 0x3FF8000000000000 _) eq_refl) 53 1024 eq_refl));
      vm_compute; reflexivity.
  - refine (proj2 (proj1 (cast_to_bool (mkBuilder 1 []) _
        (Reg 0 (IntegerTy 32)) 6 _) _));
      [vm_compute; reflexivity | simpl; in_list].
Defined.

End CastToBool.

(** ** Conversions to the type a value already has *)

Section SameType.

(** C8: [arrayCast] to the element type the array already has returns the
    pointer it was given and inserts nothing (no array is allocated);
    [arithmeticConversion] to the type the value already has returns the
    value and inserts nothing. *)
Theorem same_type_conversion_is_identity (b : IRBuilder) :
  (forall (ptrToArray : Value) (elementType : llvmType) (size : nat),
     getType ptrToArray = PointerTy (ArrayTy elementType size) ->
     isScalarType elementType = true ->
     arrayCast ptrToArray elementType b = (Ok ptrToArray, b))
  /\
  (forall value : Value,
     isScalarType (getType value) = true ->
     arithmeticConversion value (getType value) b = (Ok value, b)).
Proof.
  split.
  - intros ptrToArray elementType size Hty Hs. unfold isScalarType in Hs.
    unfold arrayCast, bind, assertion. rewrite Hty, Hs. simpl.
    rewrite bool_decide_refl. reflexivity.
  - intros value Hs. apply arithmeticConversion_same, Hs.
Qed.

Lemma same_type_conversion_is_identity_witness :
  arrayCast (Reg 0 (PointerTy (ArrayTy FloatTy 3))) FloatTy (mkBuilder 1 []) =
    (Ok (Reg 0 (PointerTy (ArrayTy FloatTy 3))), mkBuilder 1 []) /\
  arithmeticConversion (Reg 0 (IntegerTy 32)) (IntegerTy 32) (mkBuilder 1 []) =
    (Ok (Reg 0 (IntegerTy 32)), mkBuilder 1 []).
Proof.
  split.
  - apply (proj1 (same_type_conversion_is_identity (mkBuilder 1 []))
             (Reg 0 (PointerTy (ArrayTy FloatTy 3))) FloatTy 3%nat);
      reflexivity.
  - apply (proj2 (same_type_conversion_is_identity (mkBuilder 1 []))
             (Reg 0 (IntegerTy 32))); reflexivity.
Defined.

End SameType.

(** ** Packing three values and unpacking them again *)

Section RoundTrip.

Lemma typePrecedence_same (type : llvmType) :
  type ∈ axScalarTypes -> typePrecedence type type = Ok type.
Proof. intros H. unfold axScalarTypes in H. list_cases H; reflexivity. Qed.

Lemma array3Pack_same_type (b : IRBuilder) (type : llvmType) (x y z : Value) :
  type ∈ axScalarTypes ->
  getType x = type -> getType y = type -> getType z = type ->
  array3Pack x y z b =
    (Ok (Reg (nextReg b) (PointerTy (ArrayTy type 3))),
     mkBuilder (4 + nextReg b)
       (inserted b ++ packCode (nextReg b) type x y z)).
Proof.
  intros Ht Hx Hy Hz. unfold array3Pack, bind, lift.
  rewrite Hx, Hy, Hz, (typePrecedence_same _ Ht), (typePrecedence_same _ Ht).
  pose proof (axScalar_isScalarType _ Ht) as Hs.
  rewrite <- Hx at 1. rewrite arithmeticConversion_same by (rewrite Hx; exact Hs).
  rewrite <- Hy at 1. rewrite arithmeticConversion_same by (rewrite Hy; exact Hs).
  rewrite <- Hz at 1. rewrite arithmeticConversion_same by (rewrite Hz; exact Hs).
  simpl. rewrite <- !app_assoc. reflexivity.
Qed.

Lemma arrayUnpack_three (b : IRBuilder) (type : llvmType) (vector : Value) :
  getType vector = PointerTy (ArrayTy type 3) ->
  arrayUnpack vector [] true b =
    (Ok [Reg (1 + nextReg b) type; Reg (3 + nextReg b) type;
         Reg (5 + nextReg b) type],
     mkBuilder (6 + nextReg b)
       (inserted b ++ unpackCode (nextReg b) type vector)).
Proof.
  intros Hty. unfold arrayUnpack. rewrite Hty.
  unfold arrayUnpackLoop, bind, CreateConstGEP2_64, CreateLoad, insert.
  rewrite Hty. simpl. rewrite <- !app_assoc. reflexivity.
Qed.

Lemma run_app (c1 c2 : list Instr) (m : Machine) :
  run (c1 ++ c2) m = match run c1 m with Some m1 => run c2 m1 | None => None end.
Proof.
  revert m. induction c1 as [| i c1 IH]; intros m; simpl; [reflexivity |].
  destruct (exec i m); [apply IH | reflexivity].
Qed.

Lemma evalValue_regs (R R' : gmap nat rtval) (M M' : gmap nat (list rtval))
    (k k' n : nat) (v : Value) :
  definedBelow n v ->
  (forall id, (id < n)%nat -> R' !! id = R !! id) ->
  evalValue (mkMachine R' M' k') v = evalValue (mkMachine R M k) v.
Proof.
  destruct v; simpl; intros Hd Hagree; try reflexivity.
  apply Hagree, Hd.
Qed.

Ltac machine_simpl :=
  repeat (cbn [run exec evalValue regs mem nextBlock setReg getType
               replicate length Nat.add Nat.mul];
          rewrite ?lookup_insert_eq;
          rewrite ?lookup_insert_ne by lia;
          rewrite ?bool_decide_eq_true_2 by (simpl; lia)).

Ltac eval_old D E :=
  match type of E with
  | evalValue {| regs := ?R; mem := ?M; nextBlock := ?k |} ?v = _ =>
      unfold setReg; cbn [regs mem nextBlock];
      match goal with
      | |- context [evalValue {| regs := ?R'; mem := ?M'; nextBlock := ?k' |} v] =>
          rewrite (evalValue_regs R R' M M' k k' _ v D)
            by (intros; rewrite ?lookup_insert_ne by lia; reflexivity)
      end;
      rewrite E
  end.

Lemma run_packCode (n : nat) (m : Machine) (type : llvmType) (x y z : Value)
    (vx vy vz : rtval) :
  definedBelow n x ->
  definedBelow n y ->
  definedBelow n z ->
  evalValue m x = Some vx -> evalValue m y = Some vy -> evalValue m z = Some vz ->
  exists m1,
    run (packCode n type x y z) m = Some m1 /\
    regs m1 !! n = Some (VPtr (nextBlock m) 0) /\
    mem m1 !! nextBlock m = Some [vx; vy; vz].
Proof.
  intros Dx Dy Dz Ex Ey Ez. destruct m as [R Mem k].
  unfold packCode. machine_simpl.
  eval_old Dx Ex. machine_simpl.
  eval_old Dy Ey. machine_simpl.
  eval_old Dz Ez. machine_simpl.
  eexists. split; [reflexivity |]. machine_simpl.
  split; reflexivity.
Qed.

Lemma run_unpackCode (n nv : nat) (m1 : Machine) (type : llvmType)
    (blk : nat) (c0 c1 c2 : rtval) :
  (nv < n)%nat ->
  regs m1 !! nv = Some (VPtr blk 0) ->
  mem m1 !! blk = Some [c0; c1; c2] ->
  exists m',
    run (unpackCode n type (Reg nv (PointerTy (ArrayTy type 3)))) m1 = Some m' /\
    regs m' !! (1 + n)%nat = Some c0 /\
    regs m' !! (3 + n)%nat = Some c1 /\
    regs m' !! (5 + n)%nat = Some c2.
Proof.
  intros Hlt Hreg Hmem. destruct m1 as [R Mem k]. cbn [regs mem] in Hreg, Hmem.
  unfold unpackCode.
  repeat (machine_simpl; rewrite ?Hreg, ?Hmem; cbn [lookup list_lookup]).
  eexists. split; [reflexivity |]. machine_simpl.
  repeat split; reflexivity.
Qed.

(** C9: for three loaded scalar values [x], [y], [z] of one scalar type,
    [array3Pack] inserts no conversion and stores the three values as they
    are; unpacking the array it returns, with the elements loaded, gives
    three values that at run time are exactly the values of [x], [y] and
    [z]. *)
Theorem array3Pack_arrayUnpack_roundtrip (b : IRBuilder) (m : Machine)
    (type : llvmType) (x y z : Value) (vx vy vz : rtval) :
  type ∈ axScalarTypes ->
  getType x = type -> getType y = type -> getType z = type ->
  definedBefore b x -> definedBefore b y -> definedBefore b z ->
  evalValue m x = Some vx -> evalValue m y = Some vy -> evalValue m z = Some vz ->
  exists vector b1 u1 u2 u3 b2 m',
    array3Pack x y z b = (Ok vector, b1) /\
    insertedSince b b1 = packCode (nextReg b) type x y z /\
    arrayUnpack vector [] true b1 = (Ok [u1; u2; u3], b2) /\
    run (insertedSince b b2) m = Some m' /\
    evalValue m' u1 = Some vx /\
    evalValue m' u2 = Some vy /\
    evalValue m' u3 = Some vz.
Proof.
  intros Ht Hx Hy Hz Dx Dy Dz Ex Ey Ez.
  set (n := nextReg b).
  destruct (run_packCode n m type x y z vx vy vz Dx Dy Dz Ex Ey Ez)
    as (m1 & Hrun1 & Hvec & Hmem).
  destruct (run_unpackCode (4 + n) n m1 type (nextBlock m) vx vy vz
              ltac:(lia) Hvec Hmem) as (m' & Hrun2 & H1 & H2 & H3).
  eexists _, _, _, _, _, _, m'.
  split; [apply (array3Pack_same_type b type x y z Ht Hx Hy Hz) |].
  split; [apply insertedSince_app |].
  split; [apply (arrayUnpack_three _ type); reflexivity |].
  split.
  - cbn [inserted nextReg]. rewrite <- app_assoc, insertedSince_app, run_app.
    fold n. rewrite Hrun1. exact Hrun2.
  - cbn [evalValue nextReg]. fold n. auto.
Qed.

Lemma array3Pack_arrayUnpack_roundtrip_witness :
  exists vector b1 u1 u2 u3 b2 m',
    array3Pack (Reg 0 DoubleTy) (Reg 1 DoubleTy) (Reg 2 DoubleTy)
               (mkBuilder 3 []) = (Ok vector, b1) /\
    insertedSince (mkBuilder 3 []) b1 =
      packCode 3 DoubleTy (Reg 0 DoubleTy) (Reg 1 DoubleTy) (Reg 2 DoubleTy) /\
    arrayUnpack vector [] true b1 = (Ok [u1; u2; u3], b2) /\
    run (insertedSince (mkBuilder 3 []) b2)
        (mkMachine (<[0%nat := VBits DoubleTy 0x3FE0000000000000]>
                     (<[1%nat := VBits DoubleTy 0x7FF8000000000001]>
                        (<[2%nat := VBits DoubleTy 0x8000000000000000]> ∅)))
                   ∅ 0) = Some m' /\
    evalValue m' u1 = Some (VBits DoubleTy 0x3FE0000000000000) /\
    evalValue m' u2 = Some (VBits DoubleTy 0x7FF8000000000001) /\
    evalValue m' u3 = Some (VBits DoubleTy 0x8000000000000000).
Proof.
  apply (array3Pack_arrayUnpack_roundtrip (mkBuilder 3 []) _ DoubleTy
           (Reg 0 DoubleTy) (Reg 1 DoubleTy) (Reg 2 DoubleTy));
    try reflexivity;
    try (unfold definedBefore, definedBelow; simpl; lia).
  unfold axScalarTypes. in_list.
Defined.

End RoundTrip.

(** * Further properties of [Utils.h] *)

(** ** The conversion table *)

Section ConversionTable.

Ltac width_cases :=
  repeat (case N.eqb_spec; intros ?Hw; try subst; simpl).

Lemma llvmArithmeticConversion_ok_inv (source target : llvmType) (op : CastOp) :
  llvmArithmeticConversion source target = Ok op ->
  source ∈ axScalarTypes /\ target ∈ axScalarTypes /\ source <> target.
Proof.
  intros H. unfold llvmArithmeticConversion in H. unfold axScalarTypes.
  destruct target, source; simpl in H; try discriminate H;
    revert H; width_cases; intros H; try discriminate H;
    (split; [in_list | split; [in_list | discriminate]]).
Qed.

(** [llvmArithmeticConversion] returns an instruction exactly for two
    different scalar types of the AX language; for every other pair of
    types, two equal types included, it throws [LLVMTypeError]. *)
Theorem llvmArithmeticConversion_defined (source target : llvmType) :
  ((exists op, llvmArithmeticConversion source target = Ok op) <->
   source ∈ axScalarTypes /\ target ∈ axScalarTypes /\ source <> target)
  /\ (llvmArithmeticConversion source target = Throw LLVMTypeError \/
      exists op, llvmArithmeticConversion source target = Ok op).
Proof.
  split.
  - split.
    + intros [op H]. apply (llvmArithmeticConversion_ok_inv _ _ _ H).
    + intros (Hs & Ht & Hne). unfold axScalarTypes in *.
      list_cases Hs; list_cases Ht; try (exfalso; apply Hne; reflexivity);
        eexists; reflexivity.
  - unfold llvmArithmeticConversion.
    destruct target, source; simpl; auto; width_cases; eauto.
Qed.

(** The instruction [llvmArithmeticConversion] returns follows the shape of
    the two types: truncation to a narrower integer, sign extension to a
    wider one, zero extension from the 1 bit integer; signed conversions
    between integers and floating point, unsigned ones from and to the
    1 bit integer; extension and truncation between float and double. *)
Theorem llvmArithmeticConversion_by_shape (source target : llvmType)
    (op : CastOp) :
  llvmArithmeticConversion source target = Ok op ->
  conversionByShape source target = Some op.
Proof.
  intros H. unfold llvmArithmeticConversion in H.
  destruct target, source; simpl in H; try discriminate H;
    revert H; width_cases; intros H; try discriminate H;
    injection H as <-; reflexivity.
Qed.

Lemma llvmArithmeticConversion_by_shape_witness :
  conversionByShape (IntegerTy 1) (IntegerTy 32) = Some ZExt.
Proof.
  apply (llvmArithmeticConversion_by_shape (IntegerTy 1) (IntegerTy 32) ZExt).
  reflexivity.
Defined.

End ConversionTable.

(** ** Type precedence as an operation *)

Section PrecedenceAlgebra.

(** The outcome of [typePrecedence] by its arguments: a failed assertion
    when one is not a scalar type, the exception when both are scalar types
    but none is a scalar type of the AX language, and otherwise a result,
    which is a scalar type of the AX language and one of the arguments. *)
Theorem typePrecedence_outcome (typeA typeB : llvmType) :
  match typePrecedence typeA typeB with
  | Ok r => isScalarType typeA = true /\ isScalarType typeB = true /\
            r ∈ axScalarTypes /\ (r = typeA \/ r = typeB)
  | Throw e => e = LLVMTypeError /\
               isScalarType typeA = true /\ isScalarType typeB = true /\
               (typeA ∉ axScalarTypes) /\ (typeB ∉ axScalarTypes)
  | AssertFail => isScalarType typeA = false \/ isScalarType typeB = false
  end.
Proof.
  unfold typePrecedence.
  destruct (isScalarType typeA) eqn:Sa; simpl; [| auto].
  destruct (isScalarType typeB) eqn:Sb; simpl; [| auto].
  unfold axScalarTypes.
  destruct typeA, typeB; simpl in *; try discriminate;
    repeat (case N.eqb_spec; intros ?Hw; try subst; simpl);
    repeat split; auto; try in_list;
    try (intros Hin; list_cases Hin; congruence).
Qed.

Lemma typePrecedence_ax (a b : llvmType) :
  a ∈ axScalarTypes -> b ∈ axScalarTypes ->
  exists r, typePrecedence a b = Ok r /\ r ∈ axScalarTypes /\
            (r = a \/ r = b) /\
            precedenceRank r = Nat.max (precedenceRank a) (precedenceRank b).
Proof.
  intros Ha Hb. unfold axScalarTypes in *.
  list_cases Ha; list_cases Hb;
    (eexists; split; [reflexivity | split; [in_list | split; [auto | reflexivity]]]).
Qed.

(** On the scalar types of the AX language [typePrecedence] is idempotent
    and associative, and [bool] is its identity on both sides: nested calls
    give the same type in whatever order the types are combined. *)
Theorem typePrecedence_monoid (a b c : llvmType) :
  a ∈ axScalarTypes -> b ∈ axScalarTypes -> c ∈ axScalarTypes ->
  typePrecedence a a = Ok a /\
  typePrecedence (IntegerTy 1) a = Ok a /\
  typePrecedence a (IntegerTy 1) = Ok a /\
  exists ab bc r,
    typePrecedence a b = Ok ab /\ typePrecedence b c = Ok bc /\
    typePrecedence ab c = Ok r /\ typePrecedence a bc = Ok r.
Proof.
  intros Ha Hb Hc. unfold axScalarTypes in *.
  list_cases Ha; (split; [reflexivity | split; [reflexivity | split; [reflexivity |]]]);
    list_cases Hb; list_cases Hc;
    (eexists _, _, _; repeat split; reflexivity).
Qed.

Lemma typePrecedence_monoid_witness :
  typePrecedence FloatTy FloatTy = Ok FloatTy /\
  typePrecedence (IntegerTy 1) FloatTy = Ok FloatTy /\
  typePrecedence FloatTy (IntegerTy 1) = Ok FloatTy /\
  exists ab bc r,
    typePrecedence FloatTy (IntegerTy 64) = Ok ab /\
    typePrecedence (IntegerTy 64) DoubleTy = Ok bc /\
    typePrecedence ab DoubleTy = Ok r /\ typePrecedence FloatTy bc = Ok r.
Proof.
  apply (typePrecedence_monoid FloatTy (IntegerTy 64) DoubleTy);
    unfold axScalarTypes; in_list.
Defined.

End PrecedenceAlgebra.

(** ** What integer conversions do to the value *)

Section IntegerConversions.

Lemma resultOf_two_casts (op1 op2 : CastOp) (value : Value) (t1 t2 : llvmType)
    (b : IRBuilder) (m : Machine) (x : rtval) :
  evalValue m value = Some x ->
  resultOf (let* wide := insert (fun d => Cast d op1 value t1) t1 in
            insert (fun d => Cast d op2 wide t2) t2) b m =
  match evalCast op1 x t1 with
  | Some y => evalCast op2 y t2
  | None => None
  end.
Proof.
  intros Hx. unfold resultOf, bind, insert. cbn [nextReg inserted].
  rewrite <- app_assoc, insertedSince_app. cbn [app run exec].
  rewrite Hx. destruct (evalCast op1 x t1) as [y |]; [| reflexivity].
  cbn [evalValue setReg regs]. rewrite lookup_insert_eq.
  destruct (evalCast op2 y t2) as [z |]; [| reflexivity].
  cbn [evalValue setReg regs]. apply lookup_insert_eq.
Qed.

Ltac pow_consts :=
  change (2 ^ Z.of_N 1) with 2 in *; change (2 ^ Z.of_N 8) with 256 in *;
  change (2 ^ Z.of_N 16) with 65536 in *;
  change (2 ^ Z.of_N 32) with 4294967296 in *;
  change (2 ^ Z.of_N 64) with 18446744073709551616 in *;
  change (2 ^ (Z.of_N 1 - 1)) with 1 in *;
  change (2 ^ (Z.of_N 8 - 1)) with 128 in *;
  change (2 ^ (Z.of_N 16 - 1)) with 32768 in *;
  change (2 ^ (Z.of_N 32 - 1)) with 2147483648 in *;
  change (2 ^ (Z.of_N 64 - 1)) with 9223372036854775808 in *.

Ltac signed_arith :=
  unfold toSigned; pow_consts;
  repeat match goal with
         | |- context [?a <? ?c] => destruct (Z.ltb_spec a c)
         end;
  try (Z.div_mod_to_equations; lia).

(** Converting an integer to a wider integer type keeps its value: the
    signed value for i8, i16 and i32, and the values 0 and 1 for bool (true
    becomes 1, never -1). *)
Theorem integer_widening_keeps_value (b : IRBuilder) (m : Machine)
    (value : Value) (bits : Z) (ws wt : N) :
  ws ∈ [1; 8; 16; 32]%N -> wt ∈ [8; 16; 32; 64]%N -> (ws < wt)%N ->
  getType value = IntegerTy ws ->
  evalValue m value = Some (VBits (IntegerTy ws) bits) ->
  0 <= bits < 2 ^ Z.of_N ws ->
  exists bits',
    resultOf (arithmeticConversion value (IntegerTy wt)) b m =
      Some (VBits (IntegerTy wt) bits') /\
    0 <= bits' < 2 ^ Z.of_N wt /\
    (if (ws =? 1)%N then bits' = bits
     else toSigned (Z.of_N wt) bits' = toSigned (Z.of_N ws) bits).
Proof.
  intros Hws Hwt Hlt Hty Hv Hr.
  assert (Hop : exists op, llvmArithmeticConversion (getType value) (IntegerTy wt) = Ok op
                 /\ op = (if (ws =? 1)%N then ZExt else SExt)).
  { rewrite Hty. list_cases Hws; list_cases Hwt; try lia; eexists; split; reflexivity. }
  destruct Hop as (op & Hop & Eop).
  assert (Hs : isScalarType (getType value) = true) by (rewrite Hty; reflexivity).
  assert (Hne : getType value <> IntegerTy wt).
  { rewrite Hty. intros E. injection E as E. lia. }
  rewrite (resultOf_ext _ _ _ _
             (arithmeticConversion_cast value (IntegerTy wt) op b Hs eq_refl Hne Hop)).
  rewrite (resultOf_cast _ _ _ _ _ _ Hv). subst op.
  list_cases Hws; list_cases Hwt; try lia; cbn [N.eqb Pos.eqb evalCast];
    eexists; (split; [reflexivity |]); pow_consts; split;
    try reflexivity; signed_arith.
Qed.

Lemma integer_widening_keeps_value_witness :
  exists bits',
    resultOf (arithmeticConversion (Reg 0 (IntegerTy 8)) (IntegerTy 32))
             (mkBuilder 1 [])
             (mkMachine (<[0%nat := VBits (IntegerTy 8) 0xFE]> ∅) ∅ 0) =
      Some (VBits (IntegerTy 32) bits') /\
    0 <= bits' < 2 ^ Z.of_N 32 /\
    toSigned (Z.of_N 32) bits' = toSigned (Z.of_N 8) 0xFE.
Proof.
  apply (integer_widening_keeps_value (mkBuilder 1 []) _ (Reg 0 (IntegerTy 8))
           0xFE 8 32); try reflexivity; try in_list; lia.
Defined.

(** Converting an integer to a wider integer type and the result back to
    the type it came from gives the bits it started with. *)
Theorem integer_widen_narrow_roundtrip (b : IRBuilder) (m : Machine)
    (value : Value) (bits : Z) (ws wt : N) :
  ws ∈ [1; 8; 16; 32]%N -> wt ∈ [8; 16; 32; 64]%N -> (ws < wt)%N ->
  getType value = IntegerTy ws ->
  evalValue m value = Some (VBits (IntegerTy ws) bits) ->
  0 <= bits < 2 ^ Z.of_N ws ->
  resultOf (let* wide := arithmeticConversion value (IntegerTy wt) in
            arithmeticConversion wide (IntegerTy ws)) b m =
  Some (VBits (IntegerTy ws) bits).
Proof.
  intros Hws Hwt Hlt Hty Hv Hr.
  assert (Hop : exists op, llvmArithmeticConversion (getType value) (IntegerTy wt) = Ok op
                 /\ op = (if (ws =? 1)%N then ZExt else SExt)).
  { rewrite Hty. list_cases Hws; list_cases Hwt; try lia; eexists; split; reflexivity. }
  destruct Hop as (op & Hop & Eop).
  assert (Hback : llvmArithmeticConversion (IntegerTy wt) (IntegerTy ws) = Ok Trunc).
  { list_cases Hws; list_cases Hwt; try lia; reflexivity. }
  assert (Hs : isScalarType (getType value) = true) by (rewrite Hty; reflexivity).
  assert (Hne : getType value <> IntegerTy wt).
  { rewrite Hty. intros E. injection E as E. lia. }
  assert (Hne' : IntegerTy wt <> IntegerTy ws).
  { intros E. injection E as E. lia. }
  rewrite (resultOf_ext _
             (let* wide := insert (fun d => Cast d op value (IntegerTy wt)) (IntegerTy wt) in
              insert (fun d => Cast d Trunc wide (IntegerTy ws)) (IntegerTy ws)) b m).
  - rewrite (resultOf_two_casts _ _ _ _ _ _ _ _ Hv). subst op.
    list_cases Hws; list_cases Hwt; try lia; cbn [N.eqb Pos.eqb evalCast];
      pow_consts; f_equal; f_equal; signed_arith.
  - unfold bind.
    rewrite (arithmeticConversion_cast value (IntegerTy wt) op b Hs eq_refl Hne Hop).
    unfold insert at 1 3.
    apply (arithmeticConversion_cast (Reg (nextReg b) (IntegerTy wt)) (IntegerTy ws)
             Trunc _ eq_refl eq_refl Hne' Hback).
Qed.

Lemma integer_widen_narrow_roundtrip_witness :
  resultOf (let* wide := arithmeticConversion (Reg 0 (IntegerTy 16)) (IntegerTy 64) in
            arithmeticConversion wide (IntegerTy 16))
           (mkBuilder 1 [])
           (mkMachine (<[0%nat := VBits (IntegerTy 16) 0x8001]> ∅) ∅ 0) =
  Some (VBits (IntegerTy 16) 0x8001).
Proof.
  apply (integer_widen_narrow_roundtrip (mkBuilder 1 []) _
           (Reg 0 (IntegerTy 16)) 0x8001 16 64); try reflexivity; try in_list; lia.
Defined.

End IntegerConversions.

(** ** What the scalar helpers return and insert *)

Section ScalarHelpers.

(** [arithmeticConversion] returns a value of the target type whenever it
    returns.  A value that has the target type already is returned as it
    is, and nothing is inserted.  For a value of another type that is not a
    constant, the one cast the table gives is inserted, and its register is
    returned.  When it does not return, it has inserted nothing. *)
Theorem arithmeticConversion_outcome (value : Value) (targetType : llvmType)
    (b : IRBuilder) :
  match arithmeticConversion value targetType b with
  | (Ok result, b') =>
      getType result = targetType /\
      (getType value = targetType -> result = value /\ b' = b) /\
      (getType value <> targetType -> isConstant value = false ->
       exists op,
         llvmArithmeticConversion (getType value) targetType = Ok op /\
         result = Reg (nextReg b) targetType /\
         b' = mkBuilder (S (nextReg b))
                (inserted b ++ [Cast (nextReg b) op value targetType]))
  | (_, b') => b' = b
  end.
Proof.
  unfold arithmeticConversion, bind, assertion, lift, CreateCast.
  destruct (isIntegerTy (getType value) || isFloatingPointTy (getType value));
    [| reflexivity].
  destruct (isIntegerTy targetType || isFloatingPointTy targetType);
    [| reflexivity].
  cbn [ret]. case_bool_decide as E.
  - cbn [ret]. split; [exact E |]. split; [auto | contradiction].
  - destruct (llvmArithmeticConversion (getType value) targetType) as [op | e |];
      try reflexivity.
    unfold insert. split; [reflexivity |]. split; [contradiction |].
    intros _ _. exists op. auto.
Qed.

Lemma arithmeticConversion_outcome_witness :
  arithmeticConversion (Reg 0 (IntegerTy 32)) DoubleTy (mkBuilder 1 []) =
    (Ok (Reg 1 DoubleTy),
     mkBuilder 2 [Cast 1 SIToFP (Reg 0 (IntegerTy 32)) DoubleTy]) /\
  arithmeticConversion (ConstantInt (IntegerTy 32) 7) (IntegerTy 32)
                       (mkBuilder 1 []) =
    (Ok (ConstantInt (IntegerTy 32) 7), mkBuilder 1 []) /\
  arithmeticConversion (Reg 0 (PointerTy FloatTy)) FloatTy (mkBuilder 1 []) =
    (AssertFail, mkBuilder 1 []).
Proof.
  split; [| split].
  - pose proof (arithmeticConversion_outcome (Reg 0 (IntegerTy 32)) DoubleTy
                  (mkBuilder 1 [])) as H.
    destruct (arithmeticConversion (Reg 0 (IntegerTy 32)) DoubleTy (mkBuilder 1 []))
      as [[result | e |] b'] eqn:E; try discriminate E.
    destruct H as (_ & _ & H).
    destruct (H ltac:(discriminate) eq_refl) as (op & Hop & -> & ->).
    injection Hop as <-. reflexivity.
  - pose proof (arithmeticConversion_outcome (ConstantInt (IntegerTy 32) 7)
                  (IntegerTy 32) (mkBuilder 1 [])) as H.
    destruct (arithmeticConversion (ConstantInt (IntegerTy 32) 7) (IntegerTy 32)
                (mkBuilder 1 [])) as [[result | e |] b'] eqn:E; try discriminate E.
    destruct H as (_ & H & _). destruct (H eq_refl) as [-> ->]. reflexivity.
  - pose proof (arithmeticConversion_outcome (Reg 0 (PointerTy FloatTy)) FloatTy
                  (mkBuilder 1 [])) as H.
    destruct (arithmeticConversion (Reg 0 (PointerTy FloatTy)) FloatTy
                (mkBuilder 1 [])) as [[result | e |] b'] eqn:E; try discriminate E.
    rewrite H. reflexivity.
Defined.

(** [boolComparison] returns exactly on the integer and floating point
    types, and what it returns is a 1 bit integer.  For a value that is not
    a constant it inserts one instruction, the ordered comparison [!=] with
    the constant 0.0 on a floating point type and the comparison [!=] with
    the constant 0 on an integer type, and returns its register.  On any
    other type it throws [LLVMTypeError] and inserts nothing. *)
Theorem boolComparison_outcome (value : Value) (b : IRBuilder) :
  (isScalarType (getType value) = true ->
   exists result b',
     boolComparison value b = (Ok result, b') /\
     getType result = IntegerTy 1 /\
     (isConstant value = false ->
      result = Reg (nextReg b) (IntegerTy 1) /\
      b' = mkBuilder (S (nextReg b))
             (inserted b ++
                [if isFloatingPointTy (getType value)
                 then Binary (nextReg b) (FCmp FCMP_ONE) value
                        (ConstantFP (getType value) 0)
                 else Binary (nextReg b) (ICmp ICMP_NE) value
                        (ConstantInt (getType value) 0)])))
  /\
  (isScalarType (getType value) = false ->
   boolComparison value b = (Throw LLVMTypeError, b)).
Proof.
  unfold isScalarType, boolComparison. split; intros Hs.
  - destruct (isFloatingPointTy (getType value)) eqn:Efp.
    + eexists _, _. split; [reflexivity |]. split; [reflexivity |].
      intros _. split; reflexivity.
    + rewrite orb_false_r in Hs. rewrite Hs.
      destruct (isIntegerTyN (getType value) 1);
        (eexists _, _; split; [reflexivity |]; split; [reflexivity |];
         intros _; split; reflexivity).
  - apply orb_false_iff in Hs as [Hi Hf]. rewrite Hf.
    destruct (getType value); try discriminate Hi; reflexivity.
Qed.

Lemma boolComparison_outcome_witness :
  boolComparison (Reg 0 FloatTy) (mkBuilder 1 []) =
    (Ok (Reg 1 (IntegerTy 1)),
     mkBuilder 2 [Binary 1 (FCmp FCMP_ONE) (Reg 0 FloatTy) (ConstantFP FloatTy 0)])
  /\
  boolComparison (Reg 0 (PointerTy FloatTy)) (mkBuilder 1 []) =
    (Throw LLVMTypeError, mkBuilder 1 []).
Proof.
  split.
  - destruct (proj1 (boolComparison_outcome (Reg 0 FloatTy) (mkBuilder 1 []))
                eq_refl) as (result & b' & Hrun & _ & Hcode).
    destruct (Hcode eq_refl) as [-> ->]. exact Hrun.
  - apply (proj2 (boolComparison_outcome (Reg 0 (PointerTy FloatTy)) (mkBuilder 1 []))).
    reflexivity.
Defined.

(** On two operands of one scalar type of the AX language, [binaryOperator]
    returns for every binary token, and the type of its result follows the
    class of the token: bool for comparisons and logical operators, the
    operand type for arithmetic, and for bitwise operators the operand type
    on integers and i64 on floating point. *)
Theorem binaryOperator_result_type (b : IRBuilder) (lhs rhs : Value)
    (token : OperatorToken) (warnings : option string) :
  getType lhs ∈ axScalarTypes -> getType rhs = getType lhs ->
  token ∈ binaryTokens ->
  exists result warnings' b',
    binaryOperator lhs rhs token warnings b = (Ok (result, warnings'), b') /\
    getType result = binaryResultType (getType lhs) token.
Proof.
  intros Ht Hr Htok. unfold axScalarTypes, binaryTokens in *.
  unfold binaryOperator, boolComparison, arithmeticConversion, CreateCast,
    CreateBinOp, insert, bind, lift, ret, assertion.
  rewrite Hr, bool_decide_refl. cbn [negb].
  list_cases Ht; rewrite Ht; list_cases Htok; cbn;
    (eexists _, _, _; split; [reflexivity | cbn; rewrite ?Ht; reflexivity]).
Qed.

Lemma binaryOperator_result_type_witness :
  exists result warnings' b',
    binaryOperator (Reg 0 FloatTy) (Reg 1 FloatTy) LESSTHAN None (mkBuilder 2 []) =
      (Ok (result, warnings'), b') /\
    getType result = binaryResultType FloatTy LESSTHAN.
Proof.
  apply (binaryOperator_result_type (mkBuilder 2 []) (Reg 0 FloatTy)
           (Reg 1 FloatTy) LESSTHAN None);
    [unfold axScalarTypes; in_list | reflexivity | unfold binaryTokens; in_list].
Defined.

End ScalarHelpers.

(** ** Logical operators *)

Section LogicalOperators.

Ltac msimpl :=
  repeat (cbn [run exec evalValue regs mem nextBlock setReg getType
               replicate length Nat.add Nat.mul app];
          rewrite ?lookup_insert_eq;
          rewrite ?lookup_insert_ne by lia;
          rewrite ?bool_decide_eq_true_2 by (simpl; lia)).

Ltac eval_old D E :=
  match type of E with
  | evalValue {| regs := ?R; mem := ?M; nextBlock := ?k |} ?v = _ =>
      unfold setReg; cbn [regs mem nextBlock];
      match goal with
      | |- context [evalValue {| regs := ?R'; mem := ?M'; nextBlock := ?k' |} v] =>
          rewrite (evalValue_regs R R' M M' k k' _ v D)
            by (intros; rewrite ?lookup_insert_ne by lia; reflexivity)
      end;
      rewrite E
  end.

Lemma land_bool (c1 c2 : bool) :
  Z.land (if c1 then 1 else 0) (if c2 then 1 else 0) = if c1 && c2 then 1 else 0.
Proof. destruct c1, c2; reflexivity. Qed.

Lemma lor_bool (c1 c2 : bool) :
  Z.lor (if c1 then 1 else 0) (if c2 then 1 else 0) = if c1 || c2 then 1 else 0.
Proof. destruct c1, c2; reflexivity. Qed.

(** What [binaryOperator] inserts for a logical token on two operands of
    one scalar type: the coercion of the left operand, the coercion of the
    right operand, and the bitwise instruction on the two 1 bit results. *)
Lemma binaryOperator_logical_code (b : IRBuilder) (lhs rhs : Value)
    (token : OperatorToken) (warnings : option string) :
  isScalarType (getType lhs) = true -> getType rhs = getType lhs ->
  token ∈ [AND; OR] ->
  exists cmp zero,
    (cmp, zero) =
      (if isFloatingPointTy (getType lhs)
       then (FCmp FCMP_ONE, ConstantFP (getType lhs) 0)
       else (ICmp ICMP_NE, ConstantInt (getType lhs) 0)) /\
    binaryOperator lhs rhs token warnings b =
      (Ok (Reg (2 + nextReg b) (IntegerTy 1), warnings),
       mkBuilder (3 + nextReg b)
         (inserted b ++
            [Binary (nextReg b) cmp lhs zero;
             Binary (1 + nextReg b) cmp rhs zero;
             Binary (2 + nextReg b) (if bool_decide (token = AND) then And else Or)
                    (Reg (nextReg b) (IntegerTy 1))
                    (Reg (1 + nextReg b) (IntegerTy 1))])).
Proof.
  intros Hs Hr Htok. unfold isScalarType in Hs.
  unfold binaryOperator, boolComparison, CreateBinOp, insert, bind, lift, ret.
  rewrite Hr, bool_decide_refl. cbn [negb].
  destruct (isFloatingPointTy (getType lhs)) eqn:Efp.
  - eexists _, _. split; [reflexivity |].
    list_cases Htok; cbn [operatorType]; rewrite bool_decide_refl; simpl;
      rewrite <- ?app_assoc; reflexivity.
  - rewrite orb_false_r in Hs. rewrite Hs.
    eexists _, _. split; [reflexivity |].
    list_cases Htok; cbn [operatorType]; rewrite bool_decide_refl;
      destruct (isIntegerTyN (getType lhs) 1); simpl;
      rewrite <- ?app_assoc; reflexivity.
Qed.

(** On integers the logical operators are those of C, without the short
    circuit: [&&] is true when both operands are nonzero, [||] when one of
    them is; both operands are always evaluated. *)
Theorem binaryOperator_logical_int (b : IRBuilder) (m : Machine)
    (lhs rhs : Value) (w : N) (x y : Z) :
  getType lhs = IntegerTy w -> getType rhs = IntegerTy w ->
  definedBefore b rhs ->
  evalValue m lhs = Some (VBits (IntegerTy w) x) ->
  evalValue m rhs = Some (VBits (IntegerTy w) y) ->
  resultOf (valueOf (binaryOperator lhs rhs AND None)) b m =
    Some (boolBits (negb (x =? 0) && negb (y =? 0))) /\
  resultOf (valueOf (binaryOperator lhs rhs OR None)) b m =
    Some (boolBits (negb (x =? 0) || negb (y =? 0))).
Proof.
  intros Hl Hr Dr Ex Ey.
  assert (Hs : isScalarType (getType lhs) = true) by (rewrite Hl; reflexivity).
  assert (Hrl : getType rhs = getType lhs) by congruence.
  assert (Hz : 0 mod 2 ^ Z.of_N w = 0).
  { apply Z.mod_0_l, Z.pow_nonzero; lia. }
  destruct m as [R Mem k].
  split.
  - destruct (binaryOperator_logical_code b lhs rhs AND None Hs Hrl ltac:(in_list))
      as (cmp & zero & Hcz & Hcode).
    rewrite Hl in Hcz. cbn in Hcz. injection Hcz as -> ->.
    rewrite ?bool_decide_refl in Hcode.
    rewrite ?(bool_decide_eq_false_2 (OR = AND)) in Hcode by discriminate.
    unfold resultOf, valueOf, bind, ret. rewrite Hcode.
    rewrite insertedSince_app. cbn [fst]. msimpl.
    rewrite Ex, Hz. cbn [evalBinOp]. rewrite bool_decide_refl. cbn [negb].
    msimpl. eval_old Dr Ey. rewrite ?Hz. cbn [evalBinOp]. rewrite bool_decide_refl. cbn [negb].
    msimpl. unfold boolBits at 1 2. cbn [evalBinOp]. rewrite bool_decide_refl.
    cbn [negb evalIntOp fmap option_fmap option_map]. msimpl.
    rewrite land_bool. reflexivity.
  - destruct (binaryOperator_logical_code b lhs rhs OR None Hs Hrl ltac:(in_list))
      as (cmp & zero & Hcz & Hcode).
    rewrite Hl in Hcz. cbn in Hcz. injection Hcz as -> ->.
    rewrite ?bool_decide_refl in Hcode.
    rewrite ?(bool_decide_eq_false_2 (OR = AND)) in Hcode by discriminate.
    unfold resultOf, valueOf, bind, ret. rewrite Hcode.
    rewrite insertedSince_app. cbn [fst]. msimpl.
    rewrite Ex, Hz. cbn [evalBinOp]. rewrite bool_decide_refl. cbn [negb].
    msimpl. eval_old Dr Ey. rewrite ?Hz. cbn [evalBinOp]. rewrite bool_decide_refl. cbn [negb].
    msimpl. unfold boolBits at 1 2. cbn [evalBinOp]. rewrite bool_decide_refl.
    cbn [negb evalIntOp fmap option_fmap option_map]. msimpl.
    rewrite lor_bool. reflexivity.
Qed.

Lemma binaryOperator_logical_int_witness :
  resultOf (valueOf (binaryOperator (Reg 0 (IntegerTy 32)) (Reg 1 (IntegerTy 32))
                                    AND None))
           (mkBuilder 2 [])
           (mkMachine (<[0%nat := VBits (IntegerTy 32) 2]>
                        (<[1%nat := VBits (IntegerTy 32) 4]> ∅)) ∅ 0) =
    Some (boolBits (negb (2 =? 0) && negb (4 =? 0))) /\
  resultOf (valueOf (binaryOperator (Reg 0 (IntegerTy 32)) (Reg 1 (IntegerTy 32))
                                    OR None))
           (mkBuilder 2 [])
           (mkMachine (<[0%nat := VBits (IntegerTy 32) 2]>
                        (<[1%nat := VBits (IntegerTy 32) 4]> ∅)) ∅ 0) =
    Some (boolBits (negb (2 =? 0) || negb (4 =? 0))).
Proof.
  apply (binaryOperator_logical_int (mkBuilder 2 []) _ (Reg 0 (IntegerTy 32))
           (Reg 1 (IntegerTy 32)) 32 2 4); try reflexivity.
  unfold definedBefore, definedBelow. simpl. lia.
Defined.

(** On floating point operands the logical operators count an operand as
    true when it compares ordered and different from zero: a NaN counts as
    false, so [&&] with a NaN operand is false. *)
Theorem binaryOperator_logical_fp (b : IRBuilder) (m : Machine)
    (lhs rhs : Value) (prec emax x y : Z) :
  fpFormat (getType lhs) = Some (prec, emax) -> getType rhs = getType lhs ->
  definedBefore b rhs ->
  evalValue m lhs = Some (VBits (getType lhs) x) ->
  evalValue m rhs = Some (VBits (getType lhs) y) ->
  let truth bits :=
    evalFCmp FCMP_ONE (SFcompare (decodeFP prec emax bits) (S754_zero false)) in
  resultOf (valueOf (binaryOperator lhs rhs AND None)) b m =
    Some (boolBits (truth x && truth y)) /\
  resultOf (valueOf (binaryOperator lhs rhs OR None)) b m =
    Some (boolBits (truth x || truth y)) /\
  (decodeFP prec emax x = S754_nan -> truth x = false).
Proof.
  intros Hfmt Hrl Dr Ex Ey truth.
  assert (Hfp : isFloatingPointTy (getType lhs) = true).
  { destruct (getType lhs); try discriminate Hfmt; reflexivity. }
  assert (Hs : isScalarType (getType lhs) = true).
  { unfold isScalarType. rewrite Hfp. apply orb_true_r. }
  pose proof (decodeFP_zero _ _ _ Hfmt) as Hz.
  destruct m as [R Mem k].
  split; [| split].
  - destruct (binaryOperator_logical_code b lhs rhs AND None Hs Hrl ltac:(in_list))
      as (cmp & zero & Hcz & Hcode).
    rewrite Hfp in Hcz. injection Hcz as -> ->.
    rewrite ?bool_decide_refl in Hcode.
    unfold resultOf, valueOf, bind, ret. rewrite Hcode.
    rewrite insertedSince_app. cbn [fst]. msimpl.
    rewrite Ex. cbn [evalBinOp]. rewrite bool_decide_refl. cbn [negb].
    rewrite Hfmt, Hz. msimpl. eval_old Dr Ey.
    cbn [evalBinOp]. rewrite bool_decide_refl. cbn [negb]. rewrite Hfmt, Hz.
    msimpl. unfold boolBits at 1 2. cbn [evalBinOp]. rewrite bool_decide_refl.
    cbn [negb evalIntOp fmap option_fmap option_map]. msimpl.
    rewrite land_bool. reflexivity.
  - destruct (binaryOperator_logical_code b lhs rhs OR None Hs Hrl ltac:(in_list))
      as (cmp & zero & Hcz & Hcode).
    rewrite Hfp in Hcz. injection Hcz as -> ->.
    rewrite ?(bool_decide_eq_false_2 (OR = AND)) in Hcode by discriminate.
    unfold resultOf, valueOf, bind, ret. rewrite Hcode.
    rewrite insertedSince_app. cbn [fst]. msimpl.
    rewrite Ex. cbn [evalBinOp]. rewrite bool_decide_refl. cbn [negb].
    rewrite Hfmt, Hz. msimpl. eval_old Dr Ey.
    cbn [evalBinOp]. rewrite bool_decide_refl. cbn [negb]. rewrite Hfmt, Hz.
    msimpl. unfold boolBits at 1 2. cbn [evalBinOp]. rewrite bool_decide_refl.
    cbn [negb evalIntOp fmap option_fmap option_map]. msimpl.
    rewrite lor_bool. reflexivity.
  - intros Hnan. unfold truth. rewrite Hnan. reflexivity.
Qed.

Lemma binaryOperator_logical_fp_witness :
  resultOf (valueOf (binaryOperator (Reg 0 DoubleTy) (Reg 1 DoubleTy) AND None))
           (mkBuilder 2 [])
           (mkMachine (<[0%nat := VBits DoubleTy 0x7FF8000000000000]>
                        (<[1%nat := VBits DoubleTy 0x3FF0000000000000]> ∅)) ∅ 0) =
    Some (boolBits false).
Proof.
  destruct (binaryOperator_logical_fp (mkBuilder 2 [])
              (mkMachine (<[0%nat := VBits DoubleTy 0x7FF8000000000000]>
                           (<[1%nat := VBits DoubleTy 0x3FF0000000000000]> ∅)) ∅ 0)
              (Reg 0 DoubleTy) (Reg 1 DoubleTy) 53 1024
              0x7FF8000000000000 0x3FF0000000000000
              eq_refl eq_refl ltac:(unfold definedBefore, definedBelow; simpl; lia)
              eq_refl eq_refl) as (Hand & _ & Hnan).
  rewrite Hand, Hnan; [reflexivity | vm_compute; reflexivity].
Defined.

End LogicalOperators.

(** ** Bitwise operators on floating point operands *)

Section BitwiseOperators.

Ltac msimpl :=
  repeat (cbn [run exec evalValue regs mem nextBlock setReg getType
               replicate length Nat.add Nat.mul app];
          rewrite ?lookup_insert_eq;
          rewrite ?lookup_insert_ne by lia;
          rewrite ?bool_decide_eq_true_2 by (simpl; lia)).

Ltac eval_old D E :=
  match type of E with
  | evalValue {| regs := ?R; mem := ?M; nextBlock := ?k |} ?v = _ =>
      unfold setReg; cbn [regs mem nextBlock];
      match goal with
      | |- context [evalValue {| regs := ?R'; mem := ?M'; nextBlock := ?k' |} v] =>
          rewrite (evalValue_regs R R' M M' k k' _ v D)
            by (intros; rewrite ?lookup_insert_ne by lia; reflexivity)
      end;
      rewrite E
  end.

(** What the definition of [binaryOperator] gives for a bitwise token on
    two operands of type f32 or f64: the two conversions, right operand
    first, and the instruction the table has for the token at i64. *)
Lemma binaryOperator_bitwise_code (b : IRBuilder) (lhs rhs : Value)
    (token : OperatorToken) (warnings : option string) :
  isAXFloat (getType lhs) = true ->
  getType rhs = getType lhs ->
  token ∈ binaryBitwiseTokens ->
  exists op,
    bitwiseInstruction token = Some op /\
    binaryOperator lhs rhs token warnings b =
      (Ok (Reg (S (S (nextReg b))) (IntegerTy 64),
           match warnings with
           | Some _ => Some "Implicit cast from float to int."%string
           | None => None
           end),
       mkBuilder (S (S (S (nextReg b))))
         (inserted b ++
            [Cast (nextReg b) FPToSI rhs (IntegerTy 64);
             Cast (S (nextReg b)) FPToSI lhs (IntegerTy 64);
             Binary (S (S (nextReg b))) op
               (Reg (S (nextReg b)) (IntegerTy 64))
               (Reg (nextReg b) (IntegerTy 64))])).
Proof.
  intros Hfp Hty Htok.
  assert (Hl : getType lhs = FloatTy \/ getType lhs = DoubleTy).
  { destruct (getType lhs); try discriminate Hfp; auto. }
  unfold binaryBitwiseTokens in Htok.
  unfold binaryOperator, arithmeticConversion, CreateCast, CreateBinOp,
    insert, bind, lift, ret, assertion.
  rewrite Hty, bool_decide_refl.
  list_cases Htok; (eexists; split; [reflexivity |]);
    destruct Hl as [E | E]; rewrite E; simpl;
    rewrite <- !app_assoc; destruct warnings; reflexivity.
Qed.

(** C2: on two floating point operands of one type (f32 or f64) and a
    bitwise token, [binaryOperator] returns a value of type i64 and stores
    the text "Implicit cast from float to int." through [warnings] when that
    pointer is given.  On operands that are not constants it inserts the
    conversion to i64 of the right and then of the left operand, and the
    integer instruction of the token ([&] and, [|] or, [^] xor) on the two
    converted operands.  At run time the result is that bitwise operation
    on the two operands converted to signed 64 bit integers. *)
Theorem binaryOperator_bitwise_float (b : IRBuilder) (lhs rhs : Value)
    (token : OperatorToken) (warnings : option string) :
  isAXFloat (getType lhs) = true ->
  getType rhs = getType lhs ->
  token ∈ binaryBitwiseTokens ->
  let n := nextReg b in
  let i64 := IntegerTy 64 in
  exists op result b',
    bitwiseInstruction token = Some op /\
    binaryOperator lhs rhs token warnings b =
      (Ok (result,
           match warnings with
           | Some _ => Some "Implicit cast from float to int."%string
           | None => None
           end), b') /\
    getType result = i64 /\
    (isConstant lhs = false -> isConstant rhs = false ->
     result = Reg (S (S n)) i64 /\
     b' = mkBuilder (S (S (S n)))
            (inserted b ++
               [Cast n FPToSI rhs i64;
                Cast (S n) FPToSI lhs i64;
                Binary (S (S n)) op (Reg (S n) i64) (Reg n i64)])) /\
    (forall (m : Machine) (x y x' y' : Z),
       definedBefore b lhs ->
       evalValue m lhs = Some (VBits (getType lhs) x) ->
       evalValue m rhs = Some (VBits (getType lhs) y) ->
       evalCast FPToSI (VBits (getType lhs) x) i64 = Some (VBits i64 x') ->
       evalCast FPToSI (VBits (getType lhs) y) i64 = Some (VBits i64 y') ->
       resultOf (valueOf (binaryOperator lhs rhs token warnings)) b m =
         Some (VBits i64 (bitwiseValue token x' y'))).
Proof.
  intros Hfp Hty Htok n i64. subst n i64.
  destruct (binaryOperator_bitwise_code b lhs rhs token warnings Hfp Hty Htok)
    as (op & Hop & Hcode).
  exists op. eexists _, _.
  split; [exact Hop |]. split; [exact Hcode |]. split; [reflexivity |].
  split; [intros _ _; split; reflexivity |].
  intros [R Mem k] x y x' y' Dl Ex Ey Cx Cy.
  unfold resultOf, valueOf, bind, ret. rewrite Hcode.
  rewrite insertedSince_app. cbn [fst]. msimpl.
  rewrite Ey, Cy. msimpl. eval_old Dl Ex. rewrite Cx. msimpl.
  cbn [evalBinOp]. rewrite bool_decide_refl. cbn [negb].
  unfold binaryBitwiseTokens in Htok.
  list_cases Htok; cbn in Hop; injection Hop as <-;
    cbn [evalIntOp fmap option_fmap option_map bitwiseValue]; msimpl;
    reflexivity.
Qed.

Lemma binaryOperator_bitwise_float_witness :
  binaryOperator (Reg 0 DoubleTy) (Reg 1 DoubleTy) BITXOR (Some "unset"%string)
                 (mkBuilder 2 []) =
    (Ok (Reg 4 (IntegerTy 64), Some "Implicit cast from float to int."%string),
     mkBuilder 5
       [Cast 2 FPToSI (Reg 1 DoubleTy) (IntegerTy 64);
        Cast 3 FPToSI (Reg 0 DoubleTy) (IntegerTy 64);
        Binary 4 Xor (Reg 3 (IntegerTy 64)) (Reg 2 (IntegerTy 64))]) /\
  resultOf (valueOf (binaryOperator (Reg 0 DoubleTy) (Reg 1 DoubleTy) BITXOR
                       (Some "unset"%string)))
           (mkBuilder 2 [])
           (mkMachine (<[0%nat := VBits DoubleTy 0x4018000000000000]>
                         (<[1%nat := VBits DoubleTy 0x4008000000000000]> ∅)) ∅ 0) =
    Some (VBits (IntegerTy 64) 5).
Proof.
  destruct (binaryOperator_bitwise_float (mkBuilder 2 []) (Reg 0 DoubleTy)
              (Reg 1 DoubleTy) BITXOR (Some "unset"%string) eq_refl eq_refl
              ltac:(unfold binaryBitwiseTokens; in_list))
    as (op & result & b' & Hop & Hrun & _ & Hcode & Hval).
  injection Hop as <-.
  destruct (Hcode eq_refl eq_refl) as [-> ->].
  split; [exact Hrun |].
  apply (Hval _ 0x4018000000000000 0x4008000000000000 6 3).
  - unfold definedBefore, definedBelow. simpl. lia.
  - reflexivity.
  - reflexivity.
  - vm_compute. reflexivity.
  - vm_compute. reflexivity.
Defined.

End BitwiseOperators.

(** ** Conversions of several values *)

Section VectorConversions.

Lemma Forall_ax_scalar (values : list Value) :
  Forall (fun v => getType v ∈ axScalarTypes) values ->
  Forall (fun v => isScalarType (getType v) = true) values.
Proof.
  intros H. eapply Forall_impl; [exact H |].
  intros v. apply axScalar_isScalarType.
Qed.

(** [arithmeticConversion] between scalar types of the AX language. *)
Lemma arithmeticConversion_ax (value : Value) (targetType : llvmType)
    (b : IRBuilder) :
  getType value ∈ axScalarTypes -> targetType ∈ axScalarTypes ->
  exists result b',
    arithmeticConversion value targetType b = (Ok result, b') /\
    getType result = targetType /\
    ((getType value = targetType /\ result = value /\ b' = b) \/
     (getType value <> targetType /\ exists op,
        b' = mkBuilder (S (nextReg b))
               (inserted b ++ [Cast (nextReg b) op value targetType]))).
Proof.
  intros Hv Ht.
  pose proof (axScalar_isScalarType _ Hv) as Sv.
  pose proof (axScalar_isScalarType _ Ht) as St.
  destruct (decide (getType value = targetType)) as [E | Hne].
  - exists value, b. subst targetType.
    rewrite (arithmeticConversion_same value b Sv).
    split; [reflexivity | split; [reflexivity | left; auto]].
  - assert (Hop : exists op, llvmArithmeticConversion (getType value) targetType = Ok op).
    { unfold axScalarTypes in *. list_cases Hv; rewrite Hv in *;
        list_cases Ht; try (exfalso; apply Hne; reflexivity);
        eexists; reflexivity. }
    destruct Hop as [op Hop].
    rewrite (arithmeticConversion_cast value targetType op b Sv St Hne Hop).
    unfold insert. eexists _, _. split; [reflexivity |].
    split; [reflexivity |]. right. split; [exact Hne |]. exists op. reflexivity.
Qed.

(** [arithmeticConversion(valueA, valueB, builder)] on two scalar values of
    the AX language returns them with one and the same type, the one
    [typePrecedence] gives; a value that has this type already is returned
    as it is, and at most one instruction is inserted. *)
Theorem arithmeticConversionPair_types (b : IRBuilder) (valueA valueB : Value) :
  getType valueA ∈ axScalarTypes -> getType valueB ∈ axScalarTypes ->
  exists type valueA' valueB' b',
    typePrecedence (getType valueA) (getType valueB) = Ok type /\
    arithmeticConversionPair valueA valueB b = (Ok (valueA', valueB'), b') /\
    getType valueA' = type /\ getType valueB' = type /\
    (getType valueA = type -> valueA' = valueA) /\
    (getType valueB = type -> valueB' = valueB) /\
    (length (insertedSince b b') <= 1)%nat.
Proof.
  intros Ha Hb.
  destruct (typePrecedence_ax _ _ Ha Hb) as (type & Hp & Ht & Hab & _).
  unfold arithmeticConversionPair, bind, lift. rewrite Hp.
  destruct (arithmeticConversion_ax valueA type b Ha Ht)
    as (a' & b1 & Ea & Ta & Ca).
  rewrite Ea.
  destruct (arithmeticConversion_ax valueB type b1 Hb Ht)
    as (b'' & b2 & Eb & Tb & Cb).
  rewrite Eb. cbn [ret].
  exists type, a', b'', b2. repeat split; auto.
  - intros E. destruct Ca as [(_ & -> & _) | (Hne & _)]; [reflexivity | contradiction].
  - intros E. destruct Cb as [(_ & -> & _) | (Hne & _)]; [reflexivity | contradiction].
  - destruct Ca as [(Ea' & _ & ->) | (Hna & opa & ->)];
      destruct Cb as [(Eb' & _ & ->) | (Hnb & opb & ->)].
    + unfold insertedSince. rewrite drop_all. simpl. lia.
    + rewrite insertedSince_app. simpl. lia.
    + rewrite insertedSince_app. simpl. lia.
    + exfalso. destruct Hab as [E | E]; [apply Hna | apply Hnb]; auto.
Qed.

Lemma arithmeticConversionPair_types_witness :
  exists type valueA' valueB' b',
    typePrecedence (IntegerTy 32) FloatTy = Ok type /\
    arithmeticConversionPair (Reg 0 (IntegerTy 32)) (Reg 1 FloatTy) (mkBuilder 2 []) =
      (Ok (valueA', valueB'), b') /\
    getType valueA' = type /\ getType valueB' = type /\
    (IntegerTy 32 = type -> valueA' = Reg 0 (IntegerTy 32)) /\
    (FloatTy = type -> valueB' = Reg 1 FloatTy) /\
    (length (insertedSince (mkBuilder 2 []) b') <= 1)%nat.
Proof.
  apply (arithmeticConversionPair_types (mkBuilder 2 []) (Reg 0 (IntegerTy 32))
           (Reg 1 FloatTy)); unfold axScalarTypes; simpl; in_list.
Defined.

(** The loop that casts every value never fails; every value it returns
    has the target type. *)
Lemma castValues_types (op : CastOp) (target : llvmType) (values : list Value)
    (b : IRBuilder) :
  exists values' b',
    castValues op target values b = (Ok values', b') /\
    Forall (fun v => getType v = target) values' /\
    length values' = length values.
Proof.
  revert b. induction values as [| v vs IH]; intros b.
  - exists [], b. repeat split. constructor.
  - cbn [castValues]. unfold bind at 1. unfold CreateCast.
    case_bool_decide as E.
    + cbn [ret]. destruct (IH b) as (vs' & b' & Hc & Hf & Hl).
      unfold bind. rewrite Hc. cbn [ret].
      eexists _, _. split; [reflexivity |].
      split; [constructor; assumption | simpl; congruence].
    + unfold insert at 1.
      destruct (IH (mkBuilder (S (nextReg b))
                      (inserted b ++ [Cast (nextReg b) op v target])))
        as (vs' & b' & Hc & Hf & Hl).
      unfold bind. rewrite Hc. cbn [ret].
      eexists _, _. split; [reflexivity |].
      split; [constructor; [reflexivity | assumption] | simpl; congruence].
Qed.

Lemma arithmeticConversionValues_first_type_aux (b : IRBuilder) (front : Value)
    (rest : list Value) (targetElementType : llvmType) :
  getType front ∈ axScalarTypes -> targetElementType ∈ axScalarTypes ->
  (getType front = targetElementType ->
   arithmeticConversionValues (front :: rest) targetElementType b =
     (Ok (front :: rest), b))
  /\
  (getType front <> targetElementType ->
   exists values' b',
     arithmeticConversionValues (front :: rest) targetElementType b =
       (Ok values', b') /\
     Forall (fun v => getType v = targetElementType) values' /\
     length values' = length (front :: rest)).
Proof.
  intros Hf Ht.
  pose proof (axScalar_isScalarType _ Hf) as Sf.
  pose proof (axScalar_isScalarType _ Ht) as St.
  unfold isScalarType in Sf, St.
  unfold arithmeticConversionValues, bind, assertion, lift.
  rewrite St. cbn [ret]. rewrite Sf. cbn [ret].
  split; intros E.
  - rewrite (bool_decide_eq_true_2 _ E). reflexivity.
  - rewrite (bool_decide_eq_false_2 _ E).
    assert (Hop : exists op, llvmArithmeticConversion (getType front) targetElementType = Ok op).
    { unfold axScalarTypes in *. list_cases Hf; rewrite Hf in *;
        list_cases Ht; try (exfalso; apply E; reflexivity);
        eexists; reflexivity. }
    destruct Hop as [op ->].
    apply castValues_types.
Qed.

(** [arithmeticConversion(values, targetElementType, builder)] looks at the
    type of the first value only.  When that is the target type, the values
    are returned as they are and nothing is inserted, whatever the types of
    the others; when it is another scalar type of the AX language, all the
    values returned have the target type, and there are as many as
    before. *)
Theorem arithmeticConversionValues_first_type (b : IRBuilder) (front : Value)
    (rest : list Value) (targetElementType : llvmType) :
  getType front ∈ axScalarTypes -> targetElementType ∈ axScalarTypes ->
  (getType front = targetElementType ->
   arithmeticConversionValues (front :: rest) targetElementType b =
     (Ok (front :: rest), b))
  /\
  (getType front <> targetElementType ->
   exists values' b',
     arithmeticConversionValues (front :: rest) targetElementType b =
       (Ok values', b') /\
     Forall (fun v => getType v = targetElementType) values' /\
     length values' = length (front :: rest)).
Proof. apply arithmeticConversionValues_first_type_aux. Qed.

Lemma arithmeticConversionValues_first_type_witness :
  arithmeticConversionValues [Reg 0 DoubleTy; Reg 1 (IntegerTy 32)] DoubleTy
                             (mkBuilder 2 []) =
  (Ok [Reg 0 DoubleTy; Reg 1 (IntegerTy 32)], mkBuilder 2 []).
Proof.
  apply (proj1 (arithmeticConversionValues_first_type (mkBuilder 2 [])
                  (Reg 0 DoubleTy) [Reg 1 (IntegerTy 32)] DoubleTy
                  ltac:(unfold axScalarTypes; simpl; in_list)
                  ltac:(unfold axScalarTypes; in_list))).
  reflexivity.
Defined.

(** The highest type of scalar values of the AX language. *)
Lemma highestType_ax (values : list Value) (type : llvmType) :
  type ∈ axScalarTypes ->
  Forall (fun v => getType v ∈ axScalarTypes) values ->
  exists r,
    highestType type values = Ok r /\
    highestScalarType type values = Ok r /\
    r ∈ axScalarTypes /\
    precedenceRank r = highestRank (precedenceRank type) (map getType values).
Proof.
  revert type. induction values as [| v vs IH]; intros type Ht Hall.
  - exists type. repeat split; auto.
  - inversion Hall as [| ? ? Hv Hvs]; subst.
    destruct (typePrecedence_ax _ _ Ht Hv) as (r1 & Hp & Hr1 & _ & Hrank).
    destruct (IH r1 Hr1 Hvs) as (r & H1 & H2 & Hr & Hrk).
    exists r. cbn [highestType highestScalarType].
    rewrite (axScalar_isScalarType _ Hv), Hp.
    repeat split; auto.
    rewrite Hrk, Hrank. reflexivity.
Qed.

(** [arithmeticConversion(values, builder)] finds the highest type among
    the values, but converts by the type of the first value: when the first
    value has the highest type already, the values are returned as they are
    and nothing is inserted, also when others have lower types; otherwise
    all the values returned have the highest type. *)
Theorem arithmeticConversionHighest_first_type (b : IRBuilder) (front : Value)
    (rest : list Value) :
  Forall (fun v => getType v ∈ axScalarTypes) (front :: rest) ->
  exists highest,
    highestScalarType LLVMType_bool (front :: rest) = Ok highest /\
    precedenceRank highest =
      highestRank 0 (map getType (front :: rest)) /\
    (getType front = highest ->
     arithmeticConversionHighest (front :: rest) b = (Ok (front :: rest), b)) /\
    (getType front <> highest ->
     exists values' b',
       arithmeticConversionHighest (front :: rest) b = (Ok values', b') /\
       Forall (fun v => getType v = highest) values' /\
       length values' = length (front :: rest)).
Proof.
  intros Hall.
  destruct (highestType_ax (front :: rest) LLVMType_bool
              ltac:(unfold axScalarTypes, LLVMType_bool; in_list) Hall)
    as (r & _ & Hs & Hr & Hrk).
  exists r. split; [exact Hs |]. split; [exact Hrk |].
  inversion Hall as [| ? ? Hf _]; subst.
  destruct (arithmeticConversionValues_first_type_aux b front rest r Hf Hr)
    as [Hsame Hdiff].
  unfold arithmeticConversionHighest, bind, lift. rewrite Hs.
  split; assumption.
Qed.

Lemma arithmeticConversionHighest_first_type_witness :
  exists highest,
    highestScalarType LLVMType_bool [Reg 0 DoubleTy; Reg 1 (IntegerTy 32)] =
      Ok highest /\
    precedenceRank highest =
      highestRank 0 (map getType [Reg 0 DoubleTy; Reg 1 (IntegerTy 32)]) /\
    (getType (Reg 0 DoubleTy) = highest ->
     arithmeticConversionHighest [Reg 0 DoubleTy; Reg 1 (IntegerTy 32)]
                                 (mkBuilder 2 []) =
       (Ok [Reg 0 DoubleTy; Reg 1 (IntegerTy 32)], mkBuilder 2 [])) /\
    (getType (Reg 0 DoubleTy) <> highest ->
     exists values' b',
       arithmeticConversionHighest [Reg 0 DoubleTy; Reg 1 (IntegerTy 32)]
                                   (mkBuilder 2 []) = (Ok values', b') /\
       Forall (fun v => getType v = highest) values' /\
       length values' = length [Reg 0 DoubleTy; Reg 1 (IntegerTy 32)]).
Proof.
  apply (arithmeticConversionHighest_first_type (mkBuilder 2 []) (Reg 0 DoubleTy)
           [Reg 1 (IntegerTy 32)]).
  repeat constructor; unfold axScalarTypes; simpl; in_list.
Defined.

End VectorConversions.

(** ** What the packing helpers insert *)

Section PackingCode.

Lemma arrayPackLoop_code (array : Value) (type : llvmType) (size : nat)
    (values : list Value) (idx : nat) (b : IRBuilder) :
  getType array = PointerTy (ArrayTy type size) ->
  arrayPackLoop array values idx b =
    (Ok tt,
     mkBuilder (length values + nextReg b)
       (inserted b ++ packLoopCode (nextReg b) array type values idx)).
Proof.
  intros Hty. revert idx b. induction values as [| v vs IH]; intros idx b.
  - cbn. rewrite app_nil_r. destruct b; reflexivity.
  - cbn [arrayPackLoop packLoopCode length].
    unfold bind, CreateConstGEP2_64, CreateStore. rewrite Hty.
    unfold insert, insert_. cbn [nextReg inserted].
    rewrite IH. cbn [nextReg inserted].
    rewrite <- !app_assoc, Nat.add_succ_r. reflexivity.
Qed.

Lemma arrayPack_code (front : Value) (rest : list Value) (b : IRBuilder) :
  arrayPack (front :: rest) b =
    (Ok (Reg (nextReg b)
           (PointerTy (ArrayTy (getType front) (length (front :: rest))))),
     mkBuilder (S (length (front :: rest)) + nextReg b)
       (inserted b ++
          Alloca (nextReg b) (ArrayTy (getType front) (length (front :: rest)))
          :: packLoopCode (S (nextReg b))
               (Reg (nextReg b)
                  (PointerTy (ArrayTy (getType front) (length (front :: rest)))))
               (getType front) (front :: rest) 0)).
Proof.
  unfold arrayPack, bind, CreateAlloca, insert.
  rewrite (arrayPackLoop_code _ (getType front) (length (front :: rest)))
    by reflexivity.
  cbn [nextReg inserted ret].
  rewrite <- app_assoc, Nat.add_succ_r. reflexivity.
Qed.

Lemma arrayPackUniformLoop_code (array value : Value) (type : llvmType)
    (size count i : nat) (b : IRBuilder) :
  getType array = PointerTy (ArrayTy type size) ->
  arrayPackUniformLoop array value i count b =
    arrayPackLoop array (replicate count value) i b.
Proof.
  intros Hty. revert i b. induction count as [| c IH]; intros i b.
  - reflexivity.
  - cbn [arrayPackUniformLoop arrayPackLoop replicate].
    unfold bind, CreateConstGEP2_64, CreateStore. rewrite Hty.
    unfold insert, insert_. apply IH.
Qed.

Lemma arrayUnpackLoop_code (ptrToArray : Value) (type : llvmType) (size : nat)
    (values : list Value) (i count : nat) (b : IRBuilder) :
  getType ptrToArray = PointerTy (ArrayTy type size) ->
  arrayUnpackLoop ptrToArray true values i count b =
    (Ok (values ++ unpackLoopValues (nextReg b) type count),
     mkBuilder (count + count + nextReg b)
       (inserted b ++ unpackLoopCode (nextReg b) ptrToArray type i count)).
Proof.
  intros Hty. revert values i b. induction count as [| c IH]; intros values i b.
  - cbn. rewrite !app_nil_r. destruct b; reflexivity.
  - cbn [arrayUnpackLoop unpackLoopCode unpackLoopValues].
    unfold bind, CreateConstGEP2_64, CreateLoad. rewrite Hty.
    unfold insert. cbn [getType nextReg inserted].
    rewrite IH. cbn [nextReg inserted].
    rewrite <- !app_assoc. cbn [app].
    replace (c + c + S (S (nextReg b)))%nat with (S c + S c + nextReg b)%nat by lia.
    reflexivity.
Qed.




End PackingCode.

(** ** Running the packing and unpacking loops *)

Section RunningLoops.

Ltac msimpl :=
  repeat (cbn [run exec evalValue regs mem nextBlock setReg getType
               replicate length Nat.add Nat.mul app];
          rewrite ?lookup_insert_eq;
          rewrite ?lookup_insert_ne by lia;
          rewrite ?bool_decide_eq_true_2 by (simpl; lia)).

Ltac eval_old D E :=
  match type of E with
  | evalValue {| regs := ?R; mem := ?M; nextBlock := ?k |} ?v = _ =>
      unfold setReg; cbn [regs mem nextBlock];
      match goal with
      | |- context [evalValue {| regs := ?R'; mem := ?M'; nextBlock := ?k' |} v] =>
          rewrite (evalValue_regs R R' M M' k k' _ v D)
            by (intros; rewrite ?lookup_insert_ne by lia; reflexivity)
      end;
      rewrite E
  end.

Lemma definedBelow_le (n n' : nat) (v : Value) :
  (n <= n')%nat -> definedBelow n v -> definedBelow n' v.
Proof. destruct v; simpl; intros; auto; lia. Qed.

Lemma Forall2_eval_regs (R R' : gmap nat rtval) (M M' : gmap nat (list rtval))
    (k k' d : nat) (values : list Value) (ws : list rtval) :
  Forall (definedBelow d) values ->
  (forall id, (id < d)%nat -> R' !! id = R !! id) ->
  Forall2 (fun v w => evalValue (mkMachine R M k) v = Some w) values ws ->
  Forall2 (fun v w => evalValue (mkMachine R' M' k') v = Some w) values ws.
Proof.
  intros Hd Hagree H. revert Hd.
  induction H as [| v w vs ws Hv _ IH]; intros Hd; constructor.
  - inversion Hd; subst.
    rewrite (evalValue_regs R R' M M' k k' d v) by assumption. exact Hv.
  - apply IH. inversion Hd; assumption.
Qed.

(** The stores of the packing loop write the values of [values] into the
    cells from [idx] on and leave the registers below [d] alone. *)
Lemma run_packLoop (type : llvmType) (size aid blk : nat) (values : list Value) :
  forall (ws : list rtval) (d idx : nat) (R : gmap nat rtval)
         (Mem : gmap nat (list rtval)) (k : nat) (cells : list rtval),
    (aid < d)%nat ->
    R !! aid = Some (VPtr blk 0) ->
    Mem !! blk = Some cells ->
    (idx + length values <= length cells)%nat ->
    Forall (definedBelow d) values ->
    Forall2 (fun v w => evalValue (mkMachine R Mem k) v = Some w) values ws ->
    exists R',
      run (packLoopCode d (Reg aid (PointerTy (ArrayTy type size))) type values idx)
          (mkMachine R Mem k) =
        Some (mkMachine R'
                (<[blk := take idx cells ++ ws ++ drop (idx + length ws) cells]> Mem)
                k) /\
      (forall id, (id < d)%nat -> R' !! id = R !! id).
Proof.
  induction values as [| v vs IH];
    intros ws d idx R Mem k cells Haid Hreg Hmem Hlen Hdef Hev.
  - inversion Hev; subst. exists R. split; [| auto].
    cbn [packLoopCode run app length]. rewrite Nat.add_0_r, take_drop.
    rewrite insert_id by assumption. reflexivity.
  - inversion Hev as [| ? w ? ws' Hv Hvs]; subst.
    inversion Hdef as [| ? ? Dv Dvs]; subst.
    cbn [length] in Hlen.
    cbn [packLoopCode]. msimpl. rewrite Hreg. msimpl.
    eval_old Dv Hv. msimpl. rewrite Hmem.
    rewrite bool_decide_eq_true_2 by lia.
    destruct (IH ws' (S d) (S idx)
                (<[d := VPtr blk idx]> R)
                (<[blk := <[idx := w]> cells]> Mem) k (<[idx := w]> cells))
      as (R' & Hrun & Hagree).
    + lia.
    + rewrite lookup_insert_ne by lia. exact Hreg.
    + apply lookup_insert_eq.
    + rewrite length_insert. lia.
    + eapply Forall_impl; [exact Dvs |]. intros x. apply definedBelow_le. lia.
    + apply (Forall2_eval_regs R _ Mem _ k k d); auto.
      intros. rewrite lookup_insert_ne by lia. reflexivity.
    + exists R'. split.
      * rewrite Hrun. f_equal. f_equal.
        rewrite insert_insert_eq. f_equal.
        rewrite (take_S_r _ _ w) by (apply list_lookup_insert_eq; lia).
        rewrite take_insert_ge by lia.
        rewrite drop_insert_lt by lia.
        rewrite <- app_assoc. cbn [app length].
        rewrite Nat.add_succ_r. reflexivity.
      * intros id Hid. rewrite Hagree by lia.
        apply lookup_insert_ne. lia.
Qed.

(** The loads of the unpacking loop read the cells from [i] on into the
    registers it returns and change nothing else below [d]. *)
Lemma run_unpackLoop (type : llvmType) (size aid blk : nat)
    (Mem : gmap nat (list rtval)) (k : nat) (cells : list rtval) :
  forall (count i d : nat) (R : gmap nat rtval),
    (aid < d)%nat ->
    R !! aid = Some (VPtr blk 0) ->
    Mem !! blk = Some cells ->
    (i + count <= length cells)%nat ->
    exists R',
      run (unpackLoopCode d (Reg aid (PointerTy (ArrayTy type size))) type i count)
          (mkMachine R Mem k) = Some (mkMachine R' Mem k) /\
      (forall id, (id < d)%nat -> R' !! id = R !! id) /\
      Forall2 (fun u w => evalValue (mkMachine R' Mem k) u = Some w)
              (unpackLoopValues d type count) (take count (drop i cells)).
Proof.
  induction count as [| c IH]; intros i d R Haid Hreg Hmem Hlen.
  - exists R. cbn. repeat split; auto.
  - destruct (lookup_lt_is_Some_2 cells i ltac:(lia)) as [ci Hci].
    cbn [unpackLoopCode unpackLoopValues]. msimpl. rewrite Hreg. msimpl.
    rewrite Hmem, Hci.
    destruct (IH (S i) (S (S d)) (<[S d := ci]> (<[d := VPtr blk i]> R)))
      as (R' & Hrun & Hagree & Hvals).
    + lia.
    + rewrite !lookup_insert_ne by lia. exact Hreg.
    + exact Hmem.
    + lia.
    + exists R'. split; [exact Hrun |]. split.
      * intros id Hid. rewrite Hagree by lia.
        rewrite !lookup_insert_ne by lia. reflexivity.
      * rewrite (drop_S _ _ _ Hci). cbn [take]. constructor; [| exact Hvals].
        cbn [evalValue regs]. rewrite Hagree by lia. apply lookup_insert_eq.
Qed.

(** An array is allocated and filled by the packing loop. *)
Lemma run_alloca_pack (type : llvmType) (r : nat) (values : list Value)
    (ws : list rtval) (R : gmap nat rtval) (Mem : gmap nat (list rtval)) (k : nat) :
  Forall (definedBelow r) values ->
  Forall2 (fun v w => evalValue (mkMachine R Mem k) v = Some w) values ws ->
  exists R',
    run (Alloca r (ArrayTy type (length values))
           :: packLoopCode (S r)
                (Reg r (PointerTy (ArrayTy type (length values)))) type values 0)
        (mkMachine R Mem k) =
      Some (mkMachine R' (<[k := ws]> Mem) (S k)) /\
    R' !! r = Some (VPtr k 0).
Proof.
  intros Hdef Hev.
  pose proof (Forall2_length _ _ _ Hev) as Hlen.
  cbn [run exec].
  destruct (run_packLoop type (length values) r k values ws (S r) 0
              (<[r := VPtr k 0]> R)
              (<[k := replicate (length values) VUndef]> Mem) (S k)
              (replicate (length values) VUndef))
    as (R1 & Hrun1 & Hagree1).
  - lia.
  - apply lookup_insert_eq.
  - apply lookup_insert_eq.
  - rewrite length_replicate. lia.
  - eapply Forall_impl; [exact Hdef |]. intros x. apply definedBelow_le. lia.
  - apply (Forall2_eval_regs R _ Mem _ k (S k) r); auto.
    intros. rewrite lookup_insert_ne by lia. reflexivity.
  - cbn [nextBlock regs mem]. rewrite Hrun1.
    cbn [take app Nat.add]. rewrite insert_insert_eq.
    rewrite <- Hlen, drop_ge, app_nil_r by (rewrite length_replicate; lia).
    exists R1. split; [reflexivity |].
    rewrite Hagree1 by lia. apply lookup_insert_eq.
Qed.

(** An array is allocated, filled by the packing loop and read back by the
    unpacking loop. *)
Lemma run_alloca_pack_unpack (type : llvmType) (r : nat) (values : list Value)
    (ws : list rtval) (R : gmap nat rtval) (Mem : gmap nat (list rtval)) (k : nat) :
  Forall (definedBelow r) values ->
  Forall2 (fun v w => evalValue (mkMachine R Mem k) v = Some w) values ws ->
  exists m',
    run ((Alloca r (ArrayTy type (length values))
            :: packLoopCode (S r)
                 (Reg r (PointerTy (ArrayTy type (length values)))) type values 0)
         ++ unpackLoopCode (S (length values) + r)
              (Reg r (PointerTy (ArrayTy type (length values)))) type 0
              (length values))
        (mkMachine R Mem k) = Some m' /\
    Forall2 (fun u w => evalValue m' u = Some w)
            (unpackLoopValues (S (length values) + r) type (length values)) ws.
Proof.
  intros Hdef Hev.
  pose proof (Forall2_length _ _ _ Hev) as Hlen.
  destruct (run_alloca_pack type r values ws R Mem k Hdef Hev) as (R1 & Hrun1 & Hr).
  rewrite run_app, Hrun1.
  destruct (run_unpackLoop type (length values) r k (<[k := ws]> Mem) (S k) ws
              (length values) 0 (S (length values) + r) R1)
    as (R2 & Hrun2 & Hagree2 & Hvals).
  - lia.
  - exact Hr.
  - apply lookup_insert_eq.
  - lia.
  - eexists. split; [exact Hrun2 |].
    rewrite drop_0 in Hvals. rewrite Hlen in Hvals at 3.
    rewrite firstn_all in Hvals. exact Hvals.
Qed.

(** [arrayPack(values, builder)] followed by [arrayUnpack] with loaded
    elements: for any number of values of one type, the values unpacked are
    at run time exactly the values packed, in their order. *)
Theorem arrayPack_arrayUnpack_roundtrip (b : IRBuilder) (m : Machine)
    (front : Value) (rest : list Value) (ws : list rtval) :
  Forall (fun v => getType v = getType front) rest ->
  Forall (definedBefore b) (front :: rest) ->
  Forall2 (fun v w => evalValue m v = Some w) (front :: rest) ws ->
  exists array b1 us b2 m',
    arrayPack (front :: rest) b = (Ok array, b1) /\
    arrayUnpack array [] true b1 = (Ok us, b2) /\
    run (insertedSince b b2) m = Some m' /\
    Forall2 (fun u w => evalValue m' u = Some w) us ws.
Proof.
  intros _ Hdef Hev. destruct m as [R Mem k].
  destruct (run_alloca_pack_unpack (getType front) (nextReg b) (front :: rest)
              ws R Mem k Hdef Hev) as (m' & Hrun & Hvals).
  eexists _, _, _, _, m'.
  split; [apply arrayPack_code |].
  split.
  { unfold arrayUnpack. cbn [getType].
    apply (arrayUnpackLoop_code _ (getType front) (length (front :: rest)));
      reflexivity. }
  split.
  - cbn [inserted nextReg]. rewrite <- app_assoc, insertedSince_app. exact Hrun.
  - cbn [app nextReg]. exact Hvals.
Qed.

Lemma arrayPack_arrayUnpack_roundtrip_witness :
  exists array b1 us b2 m',
    arrayPack [Reg 0 FloatTy; Reg 1 FloatTy] (mkBuilder 2 []) = (Ok array, b1) /\
    arrayUnpack array [] true b1 = (Ok us, b2) /\
    run (insertedSince (mkBuilder 2 []) b2)
        (mkMachine (<[0%nat := VBits FloatTy 0x3F800000]>
                     (<[1%nat := VBits FloatTy 0x7FC00001]> ∅)) ∅ 0) = Some m' /\
    Forall2 (fun u w => evalValue m' u = Some w) us
            [VBits FloatTy 0x3F800000; VBits FloatTy 0x7FC00001].
Proof.
  apply (arrayPack_arrayUnpack_roundtrip (mkBuilder 2 []) _ (Reg 0 FloatTy)
           [Reg 1 FloatTy]).
  - repeat constructor.
  - repeat constructor; unfold definedBefore, definedBelow; simpl; lia.
  - repeat constructor.
Defined.

Lemma Forall2_replicate_r {A B} (P : A -> B -> Prop) (us : list A) (n : nat) (w : B) :
  Forall2 P us (replicate n w) -> length us = n /\ Forall (fun u => P u w) us.
Proof.
  revert n. induction us as [| u us IH]; intros n H.
  - destruct n; inversion H. split; [reflexivity | constructor].
  - destruct n; inversion H; subst.
    destruct (IH n ltac:(assumption)) as [Hl Hf].
    split; [simpl; congruence | constructor; assumption].
Qed.

(** [arrayPack(value, builder, size)] fills an array of [size] elements with
    one value: unpacked with loaded elements it gives [size] values, each of
    them at run time the value packed. *)
Theorem arrayPackUniform_elements (b : IRBuilder) (m : Machine) (value : Value)
    (size : nat) (w : rtval) :
  isScalarType (getType value) = true ->
  definedBefore b value ->
  evalValue m value = Some w ->
  exists array b1 us b2 m',
    arrayPackUniform value size b = (Ok array, b1) /\
    getType array = PointerTy (ArrayTy (getType value) size) /\
    arrayUnpack array [] true b1 = (Ok us, b2) /\
    run (insertedSince b b2) m = Some m' /\
    length us = size /\
    Forall (fun u => evalValue m' u = Some w) us.
Proof.
  intros Hs Hdef Hev. unfold isScalarType in Hs. destruct m as [R Mem k].
  destruct (run_alloca_pack_unpack (getType value) (nextReg b)
              (replicate size value) (replicate size w) R Mem k)
    as (m' & Hrun & Hvals).
  { apply Forall_replicate. exact Hdef. }
  { apply Forall2_replicate. exact Hev. }
  rewrite length_replicate in Hrun, Hvals.
  apply Forall2_replicate_r in Hvals as [Hlen Hall].
  eexists _, _, _, _, m'.
  split.
  { unfold arrayPackUniform, bind, assertion, CreateAlloca, insert.
    rewrite Hs. cbn [ret].
    rewrite (arrayPackUniformLoop_code _ _ (getType value) size) by reflexivity.
    rewrite (arrayPackLoop_code _ (getType value) size) by reflexivity.
    cbn [nextReg inserted ret]. reflexivity. }
  split; [reflexivity |].
  split.
  { unfold arrayUnpack. cbn [getType].
    apply (arrayUnpackLoop_code _ (getType value) size); reflexivity. }
  split.
  - cbn [inserted nextReg]. rewrite <- !app_assoc, insertedSince_app.
    rewrite length_replicate.
    replace (size + S (nextReg b))%nat with (S size + nextReg b)%nat by lia.
    exact Hrun.
  - cbn [app nextReg]. rewrite length_replicate.
    replace (size + S (nextReg b))%nat with (S size + nextReg b)%nat by lia.
    auto.
Qed.

Lemma arrayPackUniform_elements_witness :
  exists array b1 us b2 m',
    arrayPackUniform (Reg 0 (IntegerTy 32)) 4 (mkBuilder 1 []) = (Ok array, b1) /\
    getType array = PointerTy (ArrayTy (IntegerTy 32) 4) /\
    arrayUnpack array [] true b1 = (Ok us, b2) /\
    run (insertedSince (mkBuilder 1 []) b2)
        (mkMachine (<[0%nat := VBits (IntegerTy 32) 7]> ∅) ∅ 0) = Some m' /\
    length us = 4%nat /\
    Forall (fun u => evalValue m' u = Some (VBits (IntegerTy 32) 7)) us.
Proof.
  apply (arrayPackUniform_elements (mkBuilder 1 []) _ (Reg 0 (IntegerTy 32)) 4).
  - reflexivity.
  - unfold definedBefore, definedBelow. simpl. lia.
  - reflexivity.
Defined.

(** [arrayIndexUnpack] on the array [arrayPack] made, followed by a load:
    an index inside the array gives the value packed at that index; any
    other [int16_t] index, a negative one included (it becomes a huge
    unsigned offset), gives no defined value. *)
Theorem arrayIndexUnpack_load (b : IRBuilder) (m : Machine) (front : Value)
    (rest : list Value) (ws : list rtval) (index : Z) :
  Forall (fun v => getType v = getType front) rest ->
  Forall (definedBefore b) (front :: rest) ->
  Forall2 (fun v w => evalValue m v = Some w) (front :: rest) ws ->
  - 2 ^ 15 <= index < 2 ^ 15 ->
  Z.of_nat (length (front :: rest)) < 2 ^ 63 ->
  resultOf (let* array := arrayPack (front :: rest) in
            let* element := arrayIndexUnpack array index in
            CreateLoad element) b m =
  if 0 <=? index then ws !! Z.to_nat index else None.
Proof.
  intros _ Hdef Hev Hrange Hsize. destruct m as [R Mem k].
  pose proof (Forall2_length _ _ _ Hev) as Hlen.
  destruct (run_alloca_pack (getType front) (nextReg b) (front :: rest)
              ws R Mem k Hdef Hev) as (R1 & Hrun & Hr).
  unfold resultOf, bind. rewrite arrayPack_code.
  unfold arrayIndexUnpack, CreateConstGEP2_64, CreateLoad. cbn [getType].
  unfold insert. cbn [nextReg inserted getType].
  rewrite <- !app_assoc, insertedSince_app.
  match goal with
  | |- context [run (?c ++ ?c2) _] => rewrite (run_app c c2)
  end.
  rewrite Hrun. msimpl. rewrite Hr. msimpl.
  set (n := length rest) in *.
  destruct (Z.leb_spec 0 index) as [Hpos | Hneg].
  - rewrite Z.mod_small by lia.
    destruct (ws !! Z.to_nat index) as [w |] eqn:Ew; [| reflexivity].
    msimpl. reflexivity.
  - assert (Hout : ws !! Z.to_nat (index mod 2 ^ 64) = None).
    { apply lookup_ge_None. rewrite <- Hlen. cbn [length]. fold n.
      cbn [length] in Hsize. fold n in Hsize.
      assert (index mod 2 ^ 64 = index + 2 ^ 64).
      { symmetry. apply (Z.mod_unique _ _ (-1)); lia. }
      lia. }
    rewrite Hout. reflexivity.
Qed.

Lemma arrayIndexUnpack_load_witness :
  resultOf (let* array := arrayPack [Reg 0 FloatTy; Reg 1 FloatTy] in
            let* element := arrayIndexUnpack array 1 in
            CreateLoad element)
           (mkBuilder 2 [])
           (mkMachine (<[0%nat := VBits FloatTy 0x3F800000]>
                        (<[1%nat := VBits FloatTy 0x40000000]> ∅)) ∅ 0) =
  [VBits FloatTy 0x3F800000; VBits FloatTy 0x40000000] !! Z.to_nat 1.
Proof.
  apply (arrayIndexUnpack_load (mkBuilder 2 []) _ (Reg 0 FloatTy) [Reg 1 FloatTy]
           [VBits FloatTy 0x3F800000; VBits FloatTy 0x40000000] 1).
  - repeat constructor.
  - repeat constructor; unfold definedBefore, definedBelow; simpl; lia.
  - repeat constructor.
  - lia.
  - simpl. lia.
Defined.





End RunningLoops.

(** ** Unpacking without loads, and the small helpers *)

Section SmallHelpers.

(** The loop of [arrayUnpack] without loads, from index [i] for [count]
    more elements: instruction [j] is the address of element [i + j], and
    value [j] is its register. *)
Lemma arrayUnpackLoop_pointers (ptrToArray : Value) (type : llvmType) (size : nat) :
  getType ptrToArray = PointerTy (ArrayTy type size) ->
  forall (count : nat) (values : list Value) (i : nat) (b : IRBuilder),
  exists new code,
    arrayUnpackLoop ptrToArray false values i count b =
      (Ok (values ++ new),
       mkBuilder (length code + nextReg b) (inserted b ++ code)) /\
    length new = count /\ length code = count /\
    forall j, (j < count)%nat ->
      code !! j = Some (GEP2 (nextReg b + j) ptrToArray 0 (i + j)) /\
      new !! j = Some (Reg (nextReg b + j) (PointerTy type)).
Proof.
  intros Hty. induction count as [| c IH]; intros values i b.
  - exists [], []. cbn. rewrite !app_nil_r. destruct b.
    repeat split; try reflexivity; lia.
  - cbn [arrayUnpackLoop]. unfold bind at 1. unfold CreateConstGEP2_64.
    rewrite Hty. unfold insert at 1. unfold bind at 1. cbn [ret].
    destruct (IH (values ++ [Reg (nextReg b) (PointerTy type)]) (S i)
                (mkBuilder (S (nextReg b))
                   (inserted b ++ [GEP2 (nextReg b) ptrToArray 0 i])))
      as (new & code & Hrun & Hnew & Hcode & Hat).
    rewrite Hrun. cbn [nextReg inserted] in *.
    exists (Reg (nextReg b) (PointerTy type) :: new),
           (GEP2 (nextReg b) ptrToArray 0 i :: code).
    rewrite <- !app_assoc. cbn [app length].
    rewrite Nat.add_succ_r.
    split; [reflexivity |]. split; [congruence |]. split; [congruence |].
    intros [| j] Hj.
    + rewrite !Nat.add_0_r. split; reflexivity.
    + destruct (Hat j ltac:(lia)) as [Hc Hn].
      change ((GEP2 (nextReg b) ptrToArray 0 i :: code) !! S j) with (code !! j).
      change ((Reg (nextReg b) (PointerTy type) :: new) !! S j) with (new !! j).
      rewrite Hc, Hn, !Nat.add_succ_r. split; reflexivity.
Qed.

(** The same loop with loads: instructions [2 j] and [2 j + 1] are the
    address of element [i + j] and the load from it, and value [j] is the
    register of the load. *)
Lemma arrayUnpackLoop_loads (ptrToArray : Value) (type : llvmType) (size : nat) :
  getType ptrToArray = PointerTy (ArrayTy type size) ->
  forall (count : nat) (values : list Value) (i : nat) (b : IRBuilder),
  exists new code,
    arrayUnpackLoop ptrToArray true values i count b =
      (Ok (values ++ new),
       mkBuilder (length code + nextReg b) (inserted b ++ code)) /\
    length new = count /\ length code = (2 * count)%nat /\
    forall j, (j < count)%nat ->
      code !! (2 * j)%nat = Some (GEP2 (nextReg b + 2 * j) ptrToArray 0 (i + j)) /\
      code !! (2 * j + 1)%nat =
        Some (Load (nextReg b + 2 * j + 1)
                (Reg (nextReg b + 2 * j) (PointerTy type))) /\
      new !! j = Some (Reg (nextReg b + 2 * j + 1) type).
Proof.
  intros Hty. induction count as [| c IH]; intros values i b.
  - exists [], []. cbn. rewrite !app_nil_r. destruct b.
    repeat split; try reflexivity; lia.
  - cbn [arrayUnpackLoop]. unfold bind at 1. unfold CreateConstGEP2_64.
    rewrite Hty. unfold insert at 1. unfold bind at 1. unfold CreateLoad.
    cbn [getType]. unfold insert at 1. cbn [nextReg inserted].
    destruct (IH (values ++ [Reg (S (nextReg b)) type]) (S i)
                (mkBuilder (S (S (nextReg b)))
                   ((inserted b ++ [GEP2 (nextReg b) ptrToArray 0 i]) ++
                    [Load (S (nextReg b)) (Reg (nextReg b) (PointerTy type))])))
      as (new & code & Hrun & Hnew & Hcode & Hat).
    rewrite Hrun. cbn [nextReg inserted] in *.
    exists (Reg (S (nextReg b)) type :: new),
           (GEP2 (nextReg b) ptrToArray 0 i
              :: Load (S (nextReg b)) (Reg (nextReg b) (PointerTy type)) :: code).
    rewrite <- !app_assoc. cbn [app length].
    rewrite !Nat.add_succ_r.
    split; [reflexivity |]. split; [congruence |]. split; [lia |].
    intros [| j] Hj.
    + cbn [Nat.mul Nat.add]. rewrite !Nat.add_0_r, Nat.add_1_r.
      repeat split; reflexivity.
    + destruct (Hat j ltac:(lia)) as (Hg & Hl & Hn).
      replace (2 * S j)%nat with (S (S (2 * j))) by lia.
      replace (S (S (2 * j)) + 1)%nat with (S (S (2 * j + 1))) by lia.
      change ((Reg (S (nextReg b)) type :: new) !! S j) with (new !! j).
      cbn [lookup list_lookup].
      replace (nextReg b + S (S (2 * j)))%nat
        with (S (S (nextReg b)) + 2 * j)%nat by lia.
      replace (i + S j)%nat with (S i + j)%nat by lia.
      split; [exact Hg | split; [exact Hl | exact Hn]].
Qed.

(** [arrayUnpack] on a pointer that is not a constant keeps what the vector
    [values] held and appends one value per element of the array, in the
    order of the elements.  Without loads it inserts, for element [i], the
    address of element [i] of the array, and appends the register of that
    address.  With loads it inserts the address of element [i] and the load
    from that address, and appends the register of the load.  Nothing else
    is inserted. *)
Theorem arrayUnpack_appends (b : IRBuilder) (ptrToArray : Value)
    (values : list Value) (loadElements : bool) (type : llvmType) (size : nat) :
  getType ptrToArray = PointerTy (ArrayTy type size) ->
  isConstant ptrToArray = false ->
  let n := nextReg b in
  exists new code,
    arrayUnpack ptrToArray values loadElements b =
      (Ok (values ++ new),
       mkBuilder (length code + n) (inserted b ++ code)) /\
    length new = size /\
    if loadElements then
      length code = (2 * size)%nat /\
      forall i, (i < size)%nat ->
        code !! (2 * i)%nat = Some (GEP2 (n + 2 * i) ptrToArray 0 i) /\
        code !! (2 * i + 1)%nat =
          Some (Load (n + 2 * i + 1) (Reg (n + 2 * i) (PointerTy type))) /\
        new !! i = Some (Reg (n + 2 * i + 1) type)
    else
      length code = size /\
      forall i, (i < size)%nat ->
        code !! i = Some (GEP2 (n + i) ptrToArray 0 i) /\
        new !! i = Some (Reg (n + i) (PointerTy type)).
Proof.
  intros Hty _ n. subst n. unfold arrayUnpack. rewrite Hty.
  destruct loadElements.
  - destruct (arrayUnpackLoop_loads ptrToArray type size Hty size values 0 b)
      as (new & code & Hrun & Hnew & Hcode & Hat).
    exists new, code. auto.
  - destruct (arrayUnpackLoop_pointers ptrToArray type size Hty size values 0 b)
      as (new & code & Hrun & Hnew & Hcode & Hat).
    exists new, code. auto.
Qed.

Lemma arrayUnpack_appends_witness :
  arrayUnpack (Reg 0 (PointerTy (ArrayTy FloatTy 2))) [Reg 1 FloatTy] false
              (mkBuilder 2 []) =
    (Ok [Reg 1 FloatTy; Reg 2 (PointerTy FloatTy); Reg 3 (PointerTy FloatTy)],
     mkBuilder 4
       [GEP2 2 (Reg 0 (PointerTy (ArrayTy FloatTy 2))) 0 0;
        GEP2 3 (Reg 0 (PointerTy (ArrayTy FloatTy 2))) 0 1]).
Proof.
  destruct (arrayUnpack_appends (mkBuilder 2 [])
              (Reg 0 (PointerTy (ArrayTy FloatTy 2))) [Reg 1 FloatTy] false
              FloatTy 2 eq_refl eq_refl)
    as (new & code & Hrun & Hnew & Hcode & Hat).
  destruct new as [| u0 [| u1 [| ? ?]]]; try discriminate Hnew.
  destruct code as [| c0 [| c1 [| ? ?]]]; try discriminate Hcode.
  destruct (Hat 0%nat ltac:(lia)) as [H0 K0].
  destruct (Hat 1%nat ltac:(lia)) as [H1 K1].
  cbn in H0, H1, K0, K1.
  injection H0 as ->. injection H1 as ->. injection K0 as ->. injection K1 as ->.
  exact Hrun.
Defined.

(** On an array of three, [array3Unpack] gives the same three element
    pointers, by the same instructions, as [arrayUnpack] without loads. *)
Theorem array3Unpack_as_arrayUnpack (b : IRBuilder) (ptrToArray : Value)
    (type : llvmType) :
  getType ptrToArray = PointerTy (ArrayTy type 3) ->
  exists value1 value2 value3 b',
    array3Unpack ptrToArray b = (Ok (value1, value2, value3), b') /\
    arrayUnpack ptrToArray [] false b = (Ok [value1; value2; value3], b').
Proof.
  intros Hty. unfold array3Unpack, arrayUnpack, arrayUnpackLoop, bind, assertion,
    CreateConstGEP2_64.
  rewrite Hty. unfold insert, ret. simpl.
  rewrite !Hty. simpl. rewrite <- !app_assoc. simpl.
  eexists _, _, _, _. split; reflexivity.
Qed.

Lemma array3Unpack_as_arrayUnpack_witness :
  exists value1 value2 value3 b',
    array3Unpack (Reg 0 (PointerTy (ArrayTy DoubleTy 3))) (mkBuilder 1 []) =
      (Ok (value1, value2, value3), b') /\
    arrayUnpack (Reg 0 (PointerTy (ArrayTy DoubleTy 3))) [] false (mkBuilder 1 []) =
      (Ok [value1; value2; value3], b').
Proof.
  apply (array3Unpack_as_arrayUnpack (mkBuilder 1 [])
           (Reg 0 (PointerTy (ArrayTy DoubleTy 3))) DoubleTy).
  reflexivity.
Defined.

(** [getBaseContainedType] never returns a pointer type: it strips every
    pointer layer, so it returns a type that is no pointer as it is, gives
    the same for a type and for pointers to it, and changes nothing when
    applied again. *)
Theorem getBaseContainedType_base (type : llvmType) (layers : nat) :
  isPointerTy (getBaseContainedType type) = false /\
  getBaseContainedType (Nat.iter layers PointerTy type) =
    getBaseContainedType type /\
  getBaseContainedType (getBaseContainedType type) = getBaseContainedType type /\
  (isPointerTy type = false -> getBaseContainedType type = type).
Proof.
  assert (H1 : forall t, isPointerTy (getBaseContainedType t) = false).
  { induction t; simpl; auto. }
  assert (H2 : forall t, isPointerTy t = false -> getBaseContainedType t = t).
  { destruct t; simpl; auto; discriminate. }
  repeat split; auto.
  induction layers as [| n IH]; simpl; auto.
Qed.

Lemma getBaseContainedType_base_witness :
  getBaseContainedType (PointerTy (PointerTy FloatTy)) = FloatTy.
Proof.
  destruct (getBaseContainedType_base FloatTy 2) as (_ & Hlayers & _ & Hsame).
  rewrite <- (Hsame eq_refl). exact Hlayers.
Defined.

Lemma valuesToTypes_app (values : list Value) (types : list llvmType) :
  valuesToTypes values types = types ++ map getType values.
Proof.
  revert types. induction values as [| v vs IH]; intros types; simpl.
  - symmetry. apply app_nil_r.
  - rewrite IH, <- app_assoc. reflexivity.
Qed.

(** [valuesToTypes] keeps what [types] held and appends the type of every
    value, in the order of the values; on two lists in a row it gives what
    it gives on their concatenation. *)
Theorem valuesToTypes_appends (values values' : list Value)
    (types : list llvmType) :
  valuesToTypes values types = types ++ map getType values /\
  length (valuesToTypes values types) = (length types + length values)%nat /\
  valuesToTypes values' (valuesToTypes values types) =
    valuesToTypes (values ++ values') types.
Proof.
  rewrite !valuesToTypes_app. repeat split.
  - rewrite length_app, length_map. reflexivity.
  - rewrite map_app, app_assoc. reflexivity.
Qed.

End SmallHelpers.

(** * Properties of the grid comparison *)

Section LeafComparison.

Context {ValueType : Type} (isApproxEqual : ValueType -> ValueType -> ValueType -> bool).
Context (firstLeaf secondLeaf : LeafNode ValueType).
Context (settings : ComparisonSettings) (tolerance : ValueType).

Local Abbreviation loop := (compareLeafBuffersLoop ValueType isApproxEqual firstLeaf
                    secondLeaf settings tolerance).
Local Abbreviation vdiff := (valueDiffers ValueType isApproxEqual firstLeaf secondLeaf
                     settings tolerance).
Local Abbreviation tdiff := (topologyDiffers ValueType firstLeaf secondLeaf settings).
Local Abbreviation allTrue := (replicate 512 true).

Lemma elem_of_onPositions (mask : list bool) (n : nat) :
  n ∈ onPositions mask <-> isOn mask n = true.
Proof.
  unfold onPositions. rewrite list_elem_of_filter, elem_of_seq. split.
  - intros [H _]. exact H.
  - intros H. split; [exact H |]. split; [lia |].
    unfold isOn in H. destruct (mask !! n) eqn:E; [| discriminate H].
    apply lookup_lt_Some in E. lia.
Qed.

Lemma isOn_lt (mask : list bool) (n : nat) :
  isOn mask n = true -> (n < length mask)%nat.
Proof.
  unfold isOn. destruct (mask !! n) eqn:E; [| discriminate].
  intros _. apply lookup_lt_Some in E. exact E.
Qed.

(** The loop returns when every position is inside both buffers, and
    touches nothing but the two arrays of flags. *)
Lemma compareLoop_returns (positions : list nat) :
  forall data,
    (forall n, n ∈ positions ->
       (n < length (buffer ValueType firstLeaf))%nat /\
       (n < length (buffer ValueType secondLeaf))%nat) ->
    exists data',
      loop positions data = Ok data' /\
      mValid data' = mValid data /\
      mBufferSizes data' = mBufferSizes data /\
      mDescriptorsMatch data' = mDescriptorsMatch data /\
      mAttributeArrayData data' = mAttributeArrayData data.
Proof.
  induction positions as [| n ps IH]; intros data Hb.
  - exists data. repeat split.
  - destruct (Hb n ltac:(left)) as [H1 H2].
    destruct (lookup_lt_is_Some_2 _ _ H1) as [v1 E1].
    destruct (lookup_lt_is_Some_2 _ _ H2) as [v2 E2].
    cbn [compareLeafBuffersLoop]. rewrite E1, E2.
    match goal with
    | |- context [loop ps ?d] =>
        destruct (IH d) as (data' & Hrun & Hv & Hs & Hd & Ha)
    end.
    { intros k Hk. apply Hb. right. exact Hk. }
    exists data'. split; [exact Hrun |].
    rewrite Hv, Hs, Hd, Ha.
    destruct (mCheckActiveStates settings && _), (mCheckBufferValues settings && _);
      repeat split; reflexivity.
Qed.

(** The value flags after the loop: a flag array exists when it existed
    before or some position differs, and the bits cleared are those cleared
    before and those of the positions that differ. *)
Lemma compareLoop_value_flags (positions : list nat) :
  forall data data',
    loop positions data = Ok data' ->
    (is_Some (mVoxelValueFlags data') <->
     is_Some (mVoxelValueFlags data) \/
     exists n, n ∈ positions /\ vdiff n = true) /\
    length (default allTrue (mVoxelValueFlags data')) =
      length (default allTrue (mVoxelValueFlags data)) /\
    (forall n,
       default allTrue (mVoxelValueFlags data') !! n = Some false <->
       default allTrue (mVoxelValueFlags data) !! n = Some false \/
       (n ∈ positions /\ vdiff n = true /\
        (n < length (default allTrue (mVoxelValueFlags data)))%nat)).
Proof.
  induction positions as [| p ps IH]; intros data data' Hrun.
  - cbn in Hrun. injection Hrun as <-. repeat split.
    + auto.
    + intros [H | (n & Hn & _)]; [exact H | inversion Hn].
    + auto.
    + intros [H | (Hn & _)]; [exact H | inversion Hn].
  - cbn [compareLeafBuffersLoop] in Hrun.
    destruct (buffer ValueType firstLeaf !! p) as [v1 |] eqn:E1; [| discriminate Hrun].
    destruct (buffer ValueType secondLeaf !! p) as [v2 |] eqn:E2; [| discriminate Hrun].
    apply IH in Hrun as (Hsome & Hlen & Hbits).
    assert (Hvd : vdiff p = (mCheckBufferValues settings
                             && negb (isApproxEqual v1 v2 tolerance))).
    { unfold valueDiffers. rewrite E1, E2. reflexivity. }
    destruct (mCheckBufferValues settings && negb (isApproxEqual v1 v2 tolerance)) eqn:Ev.
    + (* the position is flagged *)
      assert (Hf : forall d, mVoxelValueFlags (flagVoxelValue p d) =
                     Some (<[p := false]> (default allTrue (mVoxelValueFlags d))))
        by reflexivity.
      assert (Hsame : mVoxelValueFlags
                (flagVoxelValue p
                   (if mCheckActiveStates settings
                       && xorb (isOn (getValueMask ValueType firstLeaf) p)
                               (isOn (getValueMask ValueType secondLeaf) p)
                    then flagVoxelTopology p data else data)) =
              Some (<[p := false]> (default allTrue (mVoxelValueFlags data)))).
      { rewrite Hf. destruct (mCheckActiveStates settings && _); reflexivity. }
      rewrite Hsame in Hsome, Hlen, Hbits. cbn [from_option id] in Hlen, Hbits.
      rewrite length_insert in Hlen, Hbits.
      split; [| split].
      * split; [| intros _; apply Hsome; left; eauto].
        intros _. right. exists p. split; [left | exact Hvd].
      * exact Hlen.
      * intros n. rewrite Hbits. split.
        -- intros [H | (Hn & Hd & Hl)].
           ++ destruct (decide (p = n)) as [-> | Hne].
              ** right. split; [left |]. split; [exact Hvd |].
                 apply lookup_lt_Some in H. rewrite length_insert in H. exact H.
              ** left. rewrite list_lookup_insert_ne in H by exact Hne. exact H.
           ++ right. split; [right; exact Hn | auto].
        -- intros [H | (Hn & Hd & Hl)].
           ++ destruct (decide (p = n)) as [-> | Hne].
              ** left. apply list_lookup_insert_eq.
                 apply lookup_lt_Some in H. exact H.
              ** left. rewrite list_lookup_insert_ne by exact Hne. exact H.
           ++ apply elem_of_cons in Hn as [-> | Hn].
              ** left. apply list_lookup_insert_eq. exact Hl.
              ** right. auto.
    + (* the position is not flagged *)
      assert (Hsame : mVoxelValueFlags
                (if mCheckActiveStates settings
                    && xorb (isOn (getValueMask ValueType firstLeaf) p)
                            (isOn (getValueMask ValueType secondLeaf) p)
                 then flagVoxelTopology p data else data) =
              mVoxelValueFlags data).
      { destruct (mCheckActiveStates settings && _); reflexivity. }
      rewrite Hsame in Hsome, Hlen, Hbits.
      split; [| split].
      * rewrite Hsome. split.
        -- intros [H | (n & Hn & Hd)]; [left; exact H |].
           right. exists n. split; [right; exact Hn | exact Hd].
        -- intros [H | (n & Hn & Hd)]; [left; exact H |].
           apply elem_of_cons in Hn as [-> | Hn]; [congruence |].
           right. eauto.
      * exact Hlen.
      * intros n. rewrite Hbits. split.
        -- intros [H | (Hn & Hd & Hl)]; [left; exact H |].
           right. split; [right; exact Hn | auto].
        -- intros [H | (Hn & Hd & Hl)]; [left; exact H |].
           apply elem_of_cons in Hn as [-> | Hn]; [congruence |].
           right. auto.
Qed.

(** The same for the topology flags. *)
Lemma compareLoop_topology_flags (positions : list nat) :
  forall data data',
    loop positions data = Ok data' ->
    (is_Some (mVoxelTopologyFlags data') <->
     is_Some (mVoxelTopologyFlags data) \/
     exists n, n ∈ positions /\ tdiff n = true) /\
    length (default allTrue (mVoxelTopologyFlags data')) =
      length (default allTrue (mVoxelTopologyFlags data)) /\
    (forall n,
       default allTrue (mVoxelTopologyFlags data') !! n = Some false <->
       default allTrue (mVoxelTopologyFlags data) !! n = Some false \/
       (n ∈ positions /\ tdiff n = true /\
        (n < length (default allTrue (mVoxelTopologyFlags data)))%nat)).
Proof.
  induction positions as [| p ps IH]; intros data data' Hrun.
  - cbn in Hrun. injection Hrun as <-. repeat split.
    + auto.
    + intros [H | (n & Hn & _)]; [exact H | inversion Hn].
    + auto.
    + intros [H | (Hn & _)]; [exact H | inversion Hn].
  - cbn [compareLeafBuffersLoop] in Hrun.
    destruct (buffer ValueType firstLeaf !! p) as [v1 |] eqn:E1; [| discriminate Hrun].
    destruct (buffer ValueType secondLeaf !! p) as [v2 |] eqn:E2; [| discriminate Hrun].
    apply IH in Hrun as (Hsome & Hlen & Hbits).
    assert (Hkeep : forall d,
              mVoxelTopologyFlags
                (if mCheckBufferValues settings
                    && negb (isApproxEqual v1 v2 tolerance)
                 then flagVoxelValue p d else d) = mVoxelTopologyFlags d).
    { intros d. destruct (mCheckBufferValues settings && _); reflexivity. }
    rewrite Hkeep in Hsome, Hlen, Hbits.
    unfold topologyDiffers in *.
    destruct (mCheckActiveStates settings
              && xorb (isOn (getValueMask ValueType firstLeaf) p)
                      (isOn (getValueMask ValueType secondLeaf) p)) eqn:Et.
    + cbn [flagVoxelTopology mVoxelTopologyFlags from_option id] in Hsome, Hlen, Hbits.
      rewrite length_insert in Hlen, Hbits.
      split; [| split].
      * split; [| intros _; apply Hsome; left; eauto].
        intros _. right. exists p. split; [left | exact Et].
      * exact Hlen.
      * intros n. rewrite Hbits. split.
        -- intros [H | (Hn & Hd & Hl)].
           ++ destruct (decide (p = n)) as [-> | Hne].
              ** right. split; [left |]. split; [exact Et |].
                 apply lookup_lt_Some in H. rewrite length_insert in H. exact H.
              ** left. rewrite list_lookup_insert_ne in H by exact Hne. exact H.
           ++ right. split; [right; exact Hn | auto].
        -- intros [H | (Hn & Hd & Hl)].
           ++ destruct (decide (p = n)) as [-> | Hne].
              ** left. apply list_lookup_insert_eq.
                 apply lookup_lt_Some in H. exact H.
              ** left. rewrite list_lookup_insert_ne by exact Hne. exact H.
           ++ apply elem_of_cons in Hn as [-> | Hn].
              ** left. apply list_lookup_insert_eq. exact Hl.
              ** right. auto.
    + split; [| split].
      * rewrite Hsome. split.
        -- intros [H | (n & Hn & Hd)]; [left; exact H |].
           right. exists n. split; [right; exact Hn | exact Hd].
        -- intros [H | (n & Hn & Hd)]; [left; exact H |].
           apply elem_of_cons in Hn as [-> | Hn]; [congruence |].
           right. eauto.
      * exact Hlen.
      * intros n. rewrite Hbits. split.
        -- intros [H | (Hn & Hd & Hl)]; [left; exact H |].
           right. split; [right; exact Hn | auto].
        -- intros [H | (Hn & Hd & Hl)]; [left; exact H |].
           apply elem_of_cons in Hn as [-> | Hn]; [congruence |].
           right. auto.
Qed.

Lemma allTrue_not_false (n : nat) : allTrue !! n <> Some false.
Proof.
  intros H. apply lookup_replicate in H as [H _]. discriminate H.
Qed.

Lemma compareLeafBuffers_fresh (mask : list bool) (data : DiagnosticData) :
  length (buffer ValueType firstLeaf) = length (buffer ValueType secondLeaf) ->
  (length mask <= length (buffer ValueType firstLeaf))%nat ->
  mVoxelTopologyFlags data = None -> mVoxelValueFlags data = None ->
  exists result data',
    compareLeafBuffers ValueType isApproxEqual firstLeaf secondLeaf mask data
      settings tolerance = Ok (result, data') /\
    (result = true <->
     forall n, isOn mask n = true -> tdiff n = false /\ vdiff n = false) /\
    (result = true -> data' = data) /\
    mValid data' = mValid data /\ mBufferSizes data' = mBufferSizes data.
Proof.
  intros Hsize Hmask Ht Hv.
  destruct (compareLoop_returns (onPositions mask) data)
    as (data' & Hrun & Hva & Hbs & Hdm & Haa).
  { intros n Hn. apply elem_of_onPositions, isOn_lt in Hn. lia. }
  destruct (compareLoop_value_flags _ _ _ Hrun) as (Hvs & _ & _).
  destruct (compareLoop_topology_flags _ _ _ Hrun) as (Hts & _ & _).
  rewrite Hv in Hvs. rewrite Ht in Hts.
  unfold compareLeafBuffers. rewrite Hsize, Nat.eqb_refl. cbn [negb]. rewrite Hrun.
  eexists _, data'. split; [reflexivity |].
  assert (Hiff : negb (hasValueFlags data') && negb (hasTopologyFlags data') = true <->
                 forall n, isOn mask n = true -> tdiff n = false /\ vdiff n = false).
  { unfold hasValueFlags, hasTopologyFlags.
    rewrite andb_true_iff, !negb_true_iff, !bool_decide_eq_false. split.
    - intros [Hnv Hnt] n Hn. apply elem_of_onPositions in Hn. split.
      + destruct (tdiff n) eqn:E; [| reflexivity].
        exfalso. apply Hnt, Hts. right. eauto.
      + destruct (vdiff n) eqn:E; [| reflexivity].
        exfalso. apply Hnv, Hvs. right. eauto.
    - intros Hall. split.
      + intros H. apply Hvs in H as [H | (n & Hn & Hd)].
        * destruct H as [? H]. discriminate H.
        * apply elem_of_onPositions in Hn. destruct (Hall n Hn). congruence.
      + intros H. apply Hts in H as [H | (n & Hn & Hd)].
        * destruct H as [? H]. discriminate H.
        * apply elem_of_onPositions in Hn. destruct (Hall n Hn). congruence. }
  split; [exact Hiff |].
  split; [| split; assumption].
  intros Hr.
  unfold hasValueFlags, hasTopologyFlags in Hr.
  rewrite andb_true_iff, !negb_true_iff, !bool_decide_eq_false in Hr.
  destruct Hr as [Hnv Hnt].
  destruct data as [a1 a2 a3 a4 a5 a6], data' as [b1 b2 b3 b4 b5 b6].
  cbn in *. subst.
  destruct b3; [exfalso; apply Hnt; eauto |].
  destruct b4; [exfalso; apply Hnv; eauto |]. reflexivity.
Qed.

(** [compareLeafBuffers] on two buffers of one size and fresh diagnostic
    data, with every set bit of the mask inside the buffers: it returns
    true exactly when at every set bit of the mask the two leaves agree in
    what the settings ask to check, and then it leaves the data as they
    were. *)
Theorem compareLeafBuffers_true_iff (mask : list bool) (data : DiagnosticData) :
  length (buffer ValueType firstLeaf) = length (buffer ValueType secondLeaf) ->
  (length mask <= length (buffer ValueType firstLeaf))%nat ->
  mVoxelTopologyFlags data = None -> mVoxelValueFlags data = None ->
  exists result data',
    compareLeafBuffers ValueType isApproxEqual firstLeaf secondLeaf mask data
      settings tolerance = Ok (result, data') /\
    (result = true <->
     forall n, isOn mask n = true -> tdiff n = false /\ vdiff n = false) /\
    (result = true -> data' = data).
Proof.
  intros Hsize Hmask Ht Hv.
  destruct (compareLeafBuffers_fresh mask data Hsize Hmask Ht Hv)
    as (result & data' & Hrun & Hiff & Hsame & _).
  exists result, data'. auto.
Qed.

(** The flags [compareLeafBuffers] leaves, for a mask of at most 512 bits:
    an array of flags, when there is one, has 512 bits, and the cleared
    ones are exactly the set bits of the mask at which the two leaves
    differ; when the sizes of the two buffers differ, the result is false
    and only [mBufferSizes] is cleared. *)
Theorem compareLeafBuffers_flags (mask : list bool) (data : DiagnosticData) :
  (length mask <= 512)%nat ->
  (length mask <= length (buffer ValueType firstLeaf))%nat ->
  mVoxelTopologyFlags data = None -> mVoxelValueFlags data = None ->
  (length (buffer ValueType firstLeaf) = length (buffer ValueType secondLeaf) ->
   exists result data',
     compareLeafBuffers ValueType isApproxEqual firstLeaf secondLeaf mask data
       settings tolerance = Ok (result, data') /\
     (forall flags, mVoxelValueFlags data' = Some flags ->
        length flags = 512%nat /\
        forall n, flags !! n = Some false <-> isOn mask n = true /\ vdiff n = true) /\
     (forall flags, mVoxelTopologyFlags data' = Some flags ->
        length flags = 512%nat /\
        forall n, flags !! n = Some false <-> isOn mask n = true /\ tdiff n = true))
  /\
  (length (buffer ValueType firstLeaf) <> length (buffer ValueType secondLeaf) ->
   compareLeafBuffers ValueType isApproxEqual firstLeaf secondLeaf mask data
     settings tolerance =
   Ok (false,
       mkDiagnosticData (mValid data) false None None (mDescriptorsMatch data)
         (mAttributeArrayData data))).
Proof.
  intros H512 Hmask Ht Hv. split.
  - intros Hsize.
    destruct (compareLoop_returns (onPositions mask) data)
      as (data' & Hrun & _).
    { intros n Hn. apply elem_of_onPositions, isOn_lt in Hn. lia. }
    destruct (compareLoop_value_flags _ _ _ Hrun) as (_ & Hvl & Hvb).
    destruct (compareLoop_topology_flags _ _ _ Hrun) as (_ & Htl & Htb).
    rewrite Hv in Hvl, Hvb. rewrite Ht in Htl, Htb.
    cbn [from_option id] in Hvl, Hvb, Htl, Htb.
    rewrite length_replicate in Hvl, Hvb, Htl, Htb.
    unfold compareLeafBuffers. rewrite Hsize, Nat.eqb_refl. cbn [negb]. rewrite Hrun.
    eexists _, data'. split; [reflexivity |]. split.
    + intros flags E. rewrite E in Hvl, Hvb. cbn [from_option id] in Hvl, Hvb.
      split; [exact Hvl |]. intros n. rewrite Hvb, elem_of_onPositions. split.
      * intros [H | (Hn & Hd & _)]; [destruct (allTrue_not_false _ H) | auto].
      * intros [Hn Hd]. right. repeat split; auto.
        apply isOn_lt in Hn. lia.
    + intros flags E. rewrite E in Htl, Htb. cbn [from_option id] in Htl, Htb.
      split; [exact Htl |]. intros n. rewrite Htb, elem_of_onPositions. split.
      * intros [H | (Hn & Hd & _)]; [destruct (allTrue_not_false _ H) | auto].
      * intros [Hn Hd]. right. repeat split; auto.
        apply isOn_lt in Hn. lia.
  - intros Hne. unfold compareLeafBuffers.
    apply Nat.eqb_neq in Hne. rewrite Hne. cbn [negb]. rewrite Ht, Hv. reflexivity.
Qed.

(** [CompareLeafNodes::operator()] on one leaf position: when both trees
    have the leaf, the diagnostic slot is left empty exactly when the two
    buffers have one size and agree at every set bit of the mask, and
    otherwise holds data that are valid, with [mBufferSizes] cleared exactly
    when the sizes differ; when neither tree has the leaf the slot is left
    as it was, and when only one has it the slot holds data that are not
    valid. *)
Theorem compareLeafNodes_slot (firstLeafNode secondLeafNode : option (LeafNode ValueType))
    (leafValueMask : list bool) (mUseVoxelMask : bool)
    (slot : option DiagnosticData) :
  let mask := if mUseVoxelMask then leafValueMask
              else replicate (length leafValueMask) true in
  let run first second :=
    compareLeafNodes ValueType isApproxEqual first second leafValueMask
      tolerance settings mUseVoxelMask slot in
  (firstLeafNode = Some firstLeaf -> secondLeafNode = Some secondLeaf ->
   (length leafValueMask <= length (buffer ValueType firstLeaf))%nat ->
   exists slot',
     run firstLeafNode secondLeafNode = Ok slot' /\
     (slot' = None <->
      length (buffer ValueType firstLeaf) = length (buffer ValueType secondLeaf) /\
      forall n, isOn mask n = true -> tdiff n = false /\ vdiff n = false) /\
     (forall data, slot' = Some data ->
        mValid data = true /\
        (mBufferSizes data = false <->
         length (buffer ValueType firstLeaf) <>
         length (buffer ValueType secondLeaf))))
  /\
  run None None = Ok slot
  /\
  (exists data, run (Some firstLeaf) None = Ok (Some data) /\ mValid data = false)
  /\
  (exists data, run None (Some secondLeaf) = Ok (Some data) /\ mValid data = false).
Proof.
  intros mask run. subst run. cbn beta.
  split; [| split; [reflexivity | split; eexists; split; reflexivity]].
  intros -> -> Hmask. unfold compareLeafNodes. fold mask.
  assert (Hmask' : (length mask <= length (buffer ValueType firstLeaf))%nat).
  { subst mask. destruct mUseVoxelMask; [exact Hmask |].
    rewrite length_replicate. exact Hmask. }
  destruct (decide (length (buffer ValueType firstLeaf) =
                    length (buffer ValueType secondLeaf))) as [Hsize | Hsize].
  - destruct (compareLeafBuffers_fresh mask newDiagnosticData Hsize Hmask'
                eq_refl eq_refl)
      as (result & data' & Hrun & Hiff & Hsame & Hvalid & Hsizes).
    rewrite Hrun. destruct result.
    + exists None. cbn [compareAttributes]. split; [reflexivity |]. split.
      * split; [intros _; split; [exact Hsize | apply Hiff; reflexivity] | reflexivity].
      * intros data E. discriminate E.
    + exists (Some data'). split; [reflexivity |]. split.
      * split; [intros E; discriminate E |].
        intros [_ Hall]. apply Hiff in Hall. discriminate Hall.
      * intros data E. injection E as <-. rewrite Hvalid, Hsizes.
        split; [reflexivity |]. cbn. split; [discriminate | contradiction].
  - unfold compareLeafBuffers.
    rewrite (proj2 (Nat.eqb_neq _ _) Hsize). cbn [negb].
    eexists. split; [reflexivity |]. split.
    + split; [intros E; discriminate E | intros [E _]; contradiction].
    + intros data E. injection E as <-. cbn. split; [reflexivity |].
      split; auto.
Qed.

End LeafComparison.

Section Diagnostics.

(** [getDiagnosticArrayData] makes the entry it is asked for and touches
    nothing else.  After the call the data have attribute diagnostics and
    an entry of that name, which is the entry returned: the one that was
    there before, or the default one when there was none.  The entry of
    every other name is the entry it was before (or is still missing), and
    the other members are unchanged.  Asking again gives the same entry and
    changes nothing more. *)
Theorem getDiagnosticArrayData_creates (name name' : string) (data : DiagnosticData) :
  let entries (d : DiagnosticData) : gmap string DiagnosticArrayData :=
    default ∅ (mAttributeArrayData d) in
  let entry := fst (getDiagnosticArrayData name data) in
  let data' := snd (getDiagnosticArrayData name data) in
  hasDiagnosticArrayData data' = true /\
  hasDiagnosticArrayDataFor name data' = true /\
  entries data' !! name = Some entry /\
  (forall old, entries data !! name = Some old -> entry = old) /\
  (entries data !! name = None -> entry = newDiagnosticArrayData) /\
  (name' <> name ->
   entries data' !! name' = entries data !! name' /\
   hasDiagnosticArrayDataFor name' data' = hasDiagnosticArrayDataFor name' data) /\
  (mValid data' = mValid data /\
   mBufferSizes data' = mBufferSizes data /\
   mVoxelTopologyFlags data' = mVoxelTopologyFlags data /\
   mVoxelValueFlags data' = mVoxelValueFlags data /\
   mDescriptorsMatch data' = mDescriptorsMatch data) /\
  getDiagnosticArrayData name data' = (entry, data').
Proof.
  cbn zeta. unfold getDiagnosticArrayData, hasDiagnosticArrayDataFor,
    hasDiagnosticArrayData.
  cbn [fst snd mAttributeArrayData mValid mBufferSizes mVoxelTopologyFlags
       mVoxelValueFlags mDescriptorsMatch from_option id].
  split; [apply bool_decide_eq_true; eauto |].
  split.
  { rewrite lookup_insert_eq. apply andb_true_iff.
    split; apply bool_decide_eq_true; eauto. }
  split; [apply lookup_insert_eq |].
  split; [intros old Hold; rewrite Hold; reflexivity |].
  split; [intros Hnone; rewrite Hnone; reflexivity |].
  split.
  { intros Hne. rewrite lookup_insert_ne by auto.
    split; [reflexivity |].
    destruct (mAttributeArrayData data) as [map |]; cbn.
    - reflexivity.
    - rewrite lookup_empty. apply bool_decide_eq_false.
      intros [? H]. discriminate H. }
  split; [repeat split |].
  rewrite lookup_insert_eq. cbn [from_option id]. rewrite insert_insert_eq.
  reflexivity.
Qed.

Lemma getDiagnosticArrayData_creates_witness :
  let flagged := flagArrayValue 3 newDiagnosticArrayData in
  let data :=
    mkDiagnosticData true true None None true
      (Some (<["Q"%string := flagged]> ∅)) in
  default ∅ (mAttributeArrayData (snd (getDiagnosticArrayData "P" data)))
    !! "Q"%string = Some flagged /\
  fst (getDiagnosticArrayData "P" data) = newDiagnosticArrayData.
Proof.
  intros flagged data.
  pose proof (getDiagnosticArrayData_creates "P" "Q" data) as H.
  cbn zeta in H.
  destruct H as (_ & _ & _ & _ & Hnew & Hother & _).
  split.
  - rewrite (proj1 (Hother ltac:(discriminate))).
    subst data. cbn [mAttributeArrayData from_option id].
    apply lookup_insert_eq.
  - apply Hnew. subst data. cbn [mAttributeArrayData from_option id].
    rewrite lookup_insert_ne by discriminate. apply lookup_empty.
Defined.

End Diagnostics.

Section LeafComparisonWitnesses.

Lemma compareLeafBuffers_true_iff_witness :
  exists result data',
    compareLeafBuffers Z (fun a b t => Z.abs (a - b) <=? t)
      (mkLeafNode Z [1; 2] [true; true]) (mkLeafNode Z [1; 5] [true; true])
      [true; false] newDiagnosticData
      (mkComparisonSettings true true true true true true true) 0 =
      Ok (result, data') /\
    (result = true <->
     forall n, isOn [true; false] n = true ->
       topologyDiffers Z (mkLeafNode Z [1; 2] [true; true])
         (mkLeafNode Z [1; 5] [true; true])
         (mkComparisonSettings true true true true true true true) n = false /\
       valueDiffers Z (fun a b t => Z.abs (a - b) <=? t)
         (mkLeafNode Z [1; 2] [true; true]) (mkLeafNode Z [1; 5] [true; true])
         (mkComparisonSettings true true true true true true true) 0 n = false) /\
    (result = true -> data' = newDiagnosticData).
Proof.
  apply (compareLeafBuffers_true_iff (fun a b t => Z.abs (a - b) <=? t)
           (mkLeafNode Z [1; 2] [true; true]) (mkLeafNode Z [1; 5] [true; true])
           (mkComparisonSettings true true true true true true true) 0
           [true; false] newDiagnosticData);
    [reflexivity | simpl; lia | reflexivity | reflexivity].
Defined.

Lemma compareLeafBuffers_flags_witness :
  compareLeafBuffers Z (fun a b t => Z.abs (a - b) <=? t)
    (mkLeafNode Z [1; 2] [true; true]) (mkLeafNode Z [1] [true])
    [true; false] newDiagnosticData
    (mkComparisonSettings true true true true true true true) 0 =
  Ok (false, mkDiagnosticData true false None None true None).
Proof.
  apply (proj2 (compareLeafBuffers_flags (fun a b t => Z.abs (a - b) <=? t)
                  (mkLeafNode Z [1; 2] [true; true]) (mkLeafNode Z [1] [true])
                  (mkComparisonSettings true true true true true true true) 0
                  [true; false] newDiagnosticData
                  ltac:(simpl; lia) ltac:(simpl; lia) eq_refl eq_refl)).
  simpl. lia.
Defined.

Lemma compareLeafNodes_slot_witness :
  exists slot',
    compareLeafNodes Z (fun a b t => Z.abs (a - b) <=? t)
      (Some (mkLeafNode Z [1; 2] [true; true]))
      (Some (mkLeafNode Z [1; 5] [true; true]))
      [true; true] 0 (mkComparisonSettings true true true true true true true)
      true None = Ok slot' /\
    (slot' = None <->
     length [1; 2] = length [1; 5] /\
     forall n, isOn [true; true] n = true ->
       topologyDiffers Z (mkLeafNode Z [1; 2] [true; true])
         (mkLeafNode Z [1; 5] [true; true])
         (mkComparisonSettings true true true true true true true) n = false /\
       valueDiffers Z (fun a b t => Z.abs (a - b) <=? t)
         (mkLeafNode Z [1; 2] [true; true]) (mkLeafNode Z [1; 5] [true; true])
         (mkComparisonSettings true true true true true true true) 0 n = false) /\
    (forall data, slot' = Some data ->
       mValid data = true /\
       (mBufferSizes data = false <-> length [1; 2] <> length [1; 5])).
Proof.
  apply (proj1 (compareLeafNodes_slot (fun a b t => Z.abs (a - b) <=? t)
                  (mkLeafNode Z [1; 2] [true; true])
                  (mkLeafNode Z [1; 5] [true; true])
                  (mkComparisonSettings true true true true true true true) 0
                  (Some (mkLeafNode Z [1; 2] [true; true]))
                  (Some (mkLeafNode Z [1; 5] [true; true]))
                  [true; true] true None));
    [reflexivity | reflexivity | simpl; lia].
Defined.

End LeafComparisonWitnesses.
